(** * LawBridge reference parser: a shallow embedding and its properties

    The development follows [lawbridge_reference.py]: the [Timecode]
    value class, the [Document] edit model with its time index, and the
    [LawBridgeParser] byte-driven state machine with its two refresh
    strategies.

    Conventions of the embedding.
    - A Python [int] is a [Z].  A byte is a [Z] (iterating over [bytes]
      yields integers in 0..255); [bytes] is [list Z].
    - A Python [str] is the list of its code points, so the one-character
      strings held in [Document._chars] are single code points.
    - [Dict[int, int]] is a [gmap Z Z].
    - A method that mutates [self] becomes a function from the old state
      to an [outcome]: the new state, or the exception raised together
      with the state the object was left in. *)

From Stdlib Require Import ZArith List Bool Lia.
From stdpp Require Import base option list gmap fin_maps sorting.
Import ListNotations.
Local Open Scope Z_scope.

(** ** Exceptions and results *)

Inductive exn : Type :=
  | ValueError
  | RuntimeError
  | IndexError
  | KeyError
  | AssertionError.

(** Result of a computation that returns a value or raises. *)
Inductive result (A : Type) : Type :=
  | Ret (a : A)
  | Raise (e : exn).
Arguments Ret {A} a.
Arguments Raise {A} e.

Definition rbind {A B} (r : result A) (k : A → result B) : result B :=
  match r with
  | Ret a => k a
  | Raise e => Raise e
  end.

Notation "x ←r r ; k" := (rbind r (fun x => k))
  (at level 100, r at next level, right associativity, only parsing).

(** [len(l)] *)
Definition len {A} (l : list A) : Z := Z.of_nat (length l).

(** [max(0, min(pos, n))] *)
Definition clamp (pos n : Z) : Z := Z.max 0 (Z.min pos n).

(** ** Python list primitives used by [Document] *)

(** [l.insert(i, x)]: a position past the end appends, a negative
    position counts from the end and stops at the front. *)
Definition py_insert {A} (i : Z) (x : A) (l : list A) : list A :=
  let j := if i <? 0 then Z.max 0 (len l + i) else i in
  take (Z.to_nat j) l ++ x :: drop (Z.to_nat j) l.

(** [del l[i]] for a non-negative [i]: [IndexError] out of range.  (The
    only call site guards the index with [self._insertion > 0].) *)
Definition py_del_item {A} (i : Z) (l : list A) : result (list A) :=
  if (0 <=? i) && (i <? len l)
  then Ret (take (Z.to_nat i) l ++ drop (S (Z.to_nat i)) l)
  else Raise IndexError.

(** [del l[a:b]] for [0 <= a] and [0 <= b]. *)
Definition py_del_slice {A} (a b : Z) (l : list A) : list A :=
  if a <? b then take (Z.to_nat a) l ++ drop (Z.to_nat b) l else l.

(** [max(l)] and [min(l)] of a non-empty list; the callers test for the
    empty list first. *)
Definition py_max (l : list Z) : Z :=
  match l with
  | [] => 0
  | x :: l' => foldl Z.max x l'
  end.

Definition py_min (l : list Z) : Z :=
  match l with
  | [] => 0
  | x :: l' => foldl Z.min x l'
  end.

(** [int.from_bytes(b, byteorder='little', signed=False)] *)
Definition int_from_bytes_le (b : list Z) : Z :=
  foldr (fun x acc => x + 256 * acc) 0 b.

(** [d[k]] on a dict. *)
Definition getitem (d : gmap Z Z) (k : Z) : result Z :=
  match d !! k with
  | Some v => Ret v
  | None => Raise KeyError
  end.

(** [sorted(d.keys())] *)
Definition sorted_keys (d : gmap Z Z) : list Z :=
  merge_sort Z.le (elements (dom d)).

(** ** Protocol constants *)

Definition STX : Z := 2.
Definition ETX : Z := 3.

(** The command letters, as byte values. *)
Definition cmd_P : Z := 80.
Definition cmd_N : Z := 78.
Definition cmd_F : Z := 70.
Definition cmd_T : Z := 84.
Definition cmd_R : Z := 82.
Definition cmd_E : Z := 69.
Definition cmd_D : Z := 68.
Definition cmd_K : Z := 75.

(** [CMD_LEN]: data bytes after the command letter, before ETX. *)
Definition CMD_LEN : list (Z * Z) :=
  [ (cmd_P, 2); (cmd_N, 1); (cmd_F, 1); (cmd_T, 4);
    (cmd_R, 8); (cmd_E, 0); (cmd_D, 0); (cmd_K, 0) ].

(** [CMD_LEN[c]] when [c in CMD_LEN]. *)
Definition cmd_len (c : Z) : option Z :=
  snd <$> List.find (fun e => fst e =? c) CMD_LEN.

Inductive ParserState : Type := NORMAL | REFRESH.
Inductive RefreshMode : Type := BUFFER | STREAM.

Definition is_refresh (s : ParserState) : bool :=
  match s with REFRESH => true | NORMAL => false end.

(** ** Timecode *)

Module Timecode.

Record t : Type := mk { hh : Z; mm : Z; ss : Z; ff : Z }.

Definition to_frames (tc : t) : Z :=
  ((hh tc * 60 + mm tc) * 60 + ss tc) * 30 + ff tc.

Definition from_bytes (b : list Z) : result t :=
  match b with
  | [b0; b1; b2; b3] => Ret (mk b0 b1 b2 b3)
  | _ => Raise ValueError
  end.

(** The comparison that [@dataclass(order=True)] generates: the field
    tuples [(hh, mm, ss, ff)] are compared lexicographically. *)
Definition lt (a b : t) : bool :=
  if negb (hh a =? hh b) then hh a <? hh b
  else if negb (mm a =? mm b) then mm a <? mm b
  else if negb (ss a =? ss b) then ss a <? ss b
  else ff a <? ff b.

(** The field ranges of a wall-clock timecode at 30 frames per second.
    Nothing in the class enforces them. *)
Definition in_range (tc : t) : Prop :=
  0 <= mm tc < 60 ∧ 0 <= ss tc < 60 ∧ 0 <= ff tc < 30.

(** The decimal digits of a non-negative integer, most significant
    first, as code points; [fuel] bounds the number of digits. *)
Fixpoint digits (fuel : nat) (n : Z) (acc : list Z) : list Z :=
  match fuel with
  | O => acc
  | S fuel' =>
      let acc' := (48 + n mod 10) :: acc in
      if n <? 10 then acc' else digits fuel' (n / 10) acc'
  end.

(** [str(n)] for [n >= 0]: a number has no more decimal than binary
    digits. *)
Definition decimal (n : Z) : list Z :=
  digits (S (Z.to_nat (Z.log2 n))) n [].

(** [f"{n:02}"]: zero-padded to a width of two, the sign counting as one
    of the two. *)
Definition format_02 (n : Z) : list Z :=
  if n <? 0 then 45 :: decimal (- n)
  else if n <? 10 then 48 :: decimal n
  else decimal n.

Definition __str__ (tc : t) : list Z :=
  format_02 (hh tc) ++ [58] ++ format_02 (mm tc) ++ [58]
  ++ format_02 (ss tc) ++ [58] ++ format_02 (ff tc).

End Timecode.

(** ** Document *)

Module Document.

Record t : Type := mk {
  _chars : list Z;
  _insertion : Z;
  time_index : gmap Z Z;
  current_page : option Z;
  current_line : option Z;
  current_format : option Z;
  prevent_save : bool
}.

(** [Document()] *)
Definition new : t :=
  mk [] 0 ∅ None None None false.

Definition with_chars (cs : list Z) (d : t) : t :=
  mk cs (_insertion d) (time_index d) (current_page d) (current_line d)
     (current_format d) (prevent_save d).

Definition with_insertion (i : Z) (d : t) : t :=
  mk (_chars d) i (time_index d) (current_page d) (current_line d)
     (current_format d) (prevent_save d).

Definition with_time_index (ti : gmap Z Z) (d : t) : t :=
  mk (_chars d) (_insertion d) ti (current_page d) (current_line d)
     (current_format d) (prevent_save d).

Definition with_page (v : option Z) (d : t) : t :=
  mk (_chars d) (_insertion d) (time_index d) v (current_line d)
     (current_format d) (prevent_save d).

Definition with_line (v : option Z) (d : t) : t :=
  mk (_chars d) (_insertion d) (time_index d) (current_page d) v
     (current_format d) (prevent_save d).

Definition with_format (v : option Z) (d : t) : t :=
  mk (_chars d) (_insertion d) (time_index d) (current_page d)
     (current_line d) v (prevent_save d).

Definition with_prevent_save (v : bool) (d : t) : t :=
  mk (_chars d) (_insertion d) (time_index d) (current_page d)
     (current_line d) (current_format d) v.

Definition set_insertion (pos : Z) (d : t) : t :=
  with_insertion (clamp pos (len (_chars d))) d.

Definition get_insertion (d : t) : Z := _insertion d.

(** The loop of [insert_text]: the running pair is ([_chars], [pos]). *)
Definition insert_loop (s : list Z) (cs : list Z) (pos : Z) : list Z * Z :=
  foldl (fun st ch => (py_insert (snd st) ch (fst st), snd st + 1)) (cs, pos) s.

Definition insert_text (s : list Z) (d : t) : t :=
  match s with
  | [] => d
  | _ =>
      let r := insert_loop s (_chars d) (_insertion d) in
      with_insertion (snd r) (with_chars (fst r) d)
  end.

(** The [del] raises before the cursor is touched, so a raising call
    leaves the document as it was. *)
Definition delete_backspace (lower_bound : Z) (d : t) : result t :=
  if (lower_bound <? _insertion d) && (0 <? _insertion d) then
    cs ←r py_del_item (_insertion d - 1) (_chars d);
    Ret (with_insertion (_insertion d - 1) (with_chars cs d))
  else Ret d.

Definition delete_range (start end_ : Z) (d : t) : t :=
  let start := clamp start (len (_chars d)) in
  let end_ := clamp end_ (len (_chars d)) in
  if start <? end_
  then with_insertion start (with_chars (py_del_slice start end_ (_chars d)) d)
  else d.

Definition length (d : t) : Z := len (_chars d).

(** [''.join(self._chars)] *)
Definition text (d : t) : list Z := _chars d.

Definition on_page (page_le : list Z) (d : t) : t :=
  with_page (Some (int_from_bytes_le page_le)) d.

(** [line_b[0]] raises on an empty payload. *)
Definition on_line (line_b : list Z) (d : t) : result t :=
  match line_b with
  | b0 :: _ => Ret (with_line (Some b0) d)
  | [] => Raise IndexError
  end.

Definition on_format (fmt_b : list Z) (d : t) : result t :=
  match fmt_b with
  | b0 :: _ => Ret (with_format (Some b0) d)
  | [] => Raise IndexError
  end.

Definition on_timecode (tc : Timecode.t) (d : t) : t :=
  with_time_index (<[Timecode.to_frames tc := _insertion d]> (time_index d)) d.

Definition on_prevent_save (d : t) : t := with_prevent_save true d.

(** The class invariant: the cursor names a gap of the text. *)
Definition wf (d : t) : Prop := 0 <= _insertion d <= len (_chars d).

End Document.

(** ** LawBridgeParser *)

(** A reference to one of the two documents the parser owns; this is
    what [_refresh_target_doc] returns. *)
Inductive docref : Type := MainDoc | ScratchDoc.

Module LawBridgeParser.

Record t : Type := mk {
  state : ParserState;
  refresh_mode : RefreshMode;
  doc : Document.t;
  _refresh_start_tc : option Timecode.t;
  _refresh_end_tc : option Timecode.t;
  _refresh_start_pos : option Z;
  _refresh_end_pos : option Z;
  _refresh_buffer : option Document.t;
  _refresh_lower_bound : Z;
  _frame_buf : list Z;
  _in_cmd : bool;
  _expected_len : option Z;
  _current_cmd : option Z
}.

(** [LawBridgeParser(refresh_mode)] *)
Definition new (mode : RefreshMode) : t :=
  mk NORMAL mode Document.new None None None None None 0 [] false None None.

(** What a method call leaves behind: the parser after a normal return,
    or the exception together with the parser as the raise left it. *)
Inductive outcome : Type :=
  | Done (p : t)
  | Raised (e : exn) (p : t).

Definition andthen (o : outcome) (k : t → outcome) : outcome :=
  match o with
  | Done p => k p
  | Raised e p => Raised e p
  end.

Definition final (o : outcome) : t :=
  match o with
  | Done p => p
  | Raised _ p => p
  end.

(** *** Field assignments *)

Definition set_state v p :=
  mk v (refresh_mode p) (doc p) (_refresh_start_tc p) (_refresh_end_tc p)
     (_refresh_start_pos p) (_refresh_end_pos p) (_refresh_buffer p)
     (_refresh_lower_bound p) (_frame_buf p) (_in_cmd p) (_expected_len p)
     (_current_cmd p).

Definition set_doc v p :=
  mk (state p) (refresh_mode p) v (_refresh_start_tc p) (_refresh_end_tc p)
     (_refresh_start_pos p) (_refresh_end_pos p) (_refresh_buffer p)
     (_refresh_lower_bound p) (_frame_buf p) (_in_cmd p) (_expected_len p)
     (_current_cmd p).

Definition set_start_tc v p :=
  mk (state p) (refresh_mode p) (doc p) v (_refresh_end_tc p)
     (_refresh_start_pos p) (_refresh_end_pos p) (_refresh_buffer p)
     (_refresh_lower_bound p) (_frame_buf p) (_in_cmd p) (_expected_len p)
     (_current_cmd p).

Definition set_end_tc v p :=
  mk (state p) (refresh_mode p) (doc p) (_refresh_start_tc p) v
     (_refresh_start_pos p) (_refresh_end_pos p) (_refresh_buffer p)
     (_refresh_lower_bound p) (_frame_buf p) (_in_cmd p) (_expected_len p)
     (_current_cmd p).

Definition set_start_pos v p :=
  mk (state p) (refresh_mode p) (doc p) (_refresh_start_tc p)
     (_refresh_end_tc p) v (_refresh_end_pos p) (_refresh_buffer p)
     (_refresh_lower_bound p) (_frame_buf p) (_in_cmd p) (_expected_len p)
     (_current_cmd p).

Definition set_end_pos v p :=
  mk (state p) (refresh_mode p) (doc p) (_refresh_start_tc p)
     (_refresh_end_tc p) (_refresh_start_pos p) v (_refresh_buffer p)
     (_refresh_lower_bound p) (_frame_buf p) (_in_cmd p) (_expected_len p)
     (_current_cmd p).

Definition set_buffer v p :=
  mk (state p) (refresh_mode p) (doc p) (_refresh_start_tc p)
     (_refresh_end_tc p) (_refresh_start_pos p) (_refresh_end_pos p) v
     (_refresh_lower_bound p) (_frame_buf p) (_in_cmd p) (_expected_len p)
     (_current_cmd p).

Definition set_lower_bound v p :=
  mk (state p) (refresh_mode p) (doc p) (_refresh_start_tc p)
     (_refresh_end_tc p) (_refresh_start_pos p) (_refresh_end_pos p)
     (_refresh_buffer p) v (_frame_buf p) (_in_cmd p) (_expected_len p)
     (_current_cmd p).

(** The four fields of the incremental frame parse, assigned together. *)
Definition set_frame buf inc exp cmd p :=
  mk (state p) (refresh_mode p) (doc p) (_refresh_start_tc p)
     (_refresh_end_tc p) (_refresh_start_pos p) (_refresh_end_pos p)
     (_refresh_buffer p) (_refresh_lower_bound p) buf inc exp cmd.

(** *** Frame helpers *)

Definition _enter_frame (p : t) : t := set_frame [] true None None p.

Definition _exit_frame (p : t) : t := set_frame [] false None None p.

Definition _handle_unknown (cmd : Z) (payload : list Z) (p : t) : outcome :=
  Done p.

(** *** Helpers *)

Definition _refresh_target_doc (p : t) : result docref :=
  match state p with
  | NORMAL => Ret MainDoc
  | REFRESH =>
      match refresh_mode p with
      | BUFFER =>
          match _refresh_buffer p with
          | Some _ => Ret ScratchDoc
          | None => Raise AssertionError
          end
      | STREAM => Ret MainDoc
      end
  end.

(** The document a reference denotes. *)
Definition deref (r : docref) (p : t) : option Document.t :=
  match r with
  | MainDoc => Some (doc p)
  | ScratchDoc => _refresh_buffer p
  end.

(** Run a [Document] method on the referenced document.  A scratch
    reference with no scratch document is the failed
    [assert self._refresh_buffer is not None]. *)
Definition on_target (r : docref) (f : Document.t → result Document.t)
    (p : t) : outcome :=
  match r with
  | MainDoc =>
      match f (doc p) with
      | Ret d => Done (set_doc d p)
      | Raise e => Raised e p
      end
  | ScratchDoc =>
      match _refresh_buffer p with
      | Some b =>
          match f b with
          | Ret d => Done (set_buffer (Some d) p)
          | Raise e => Raised e p
          end
      | None => Raised AssertionError p
      end
  end.

(** [bs.decode('ascii', errors='strict')]: fails on a byte above 127. *)
Definition decode_strict (bs : list Z) : option (list Z) :=
  if forallb (fun b => b <? 128) bs then Some bs else None.

(** [bs.decode('ascii', errors='replace')]: U+FFFD for each bad byte. *)
Definition decode_replace (bs : list Z) : list Z :=
  map (fun b => if b <? 128 then b else 65533) bs.

Definition _insert_text_bytes (bs : list Z) (p : t) : outcome :=
  let s := match decode_strict bs with
           | Some s => s
           | None => decode_replace bs
           end in
  match state p with
  | NORMAL => on_target MainDoc (fun d => Ret (Document.insert_text s d)) p
  | REFRESH =>
      match refresh_mode p with
      | BUFFER => on_target ScratchDoc (fun d => Ret (Document.insert_text s d)) p
      | STREAM => on_target MainDoc (fun d => Ret (Document.insert_text s d)) p
      end
  end.

Definition _resolve_time_range (start_tc end_tc : Timecode.t) (p : t)
    : result (Z * Z) :=
  let start_frames := Timecode.to_frames start_tc in
  let end_frames := Timecode.to_frames end_tc in
  let sw := end_frames <? start_frames in
  let start_frames' := if sw then end_frames else start_frames in
  let end_frames' := if sw then start_frames else end_frames in
  let ti := Document.time_index (doc p) in
  if decide (ti = ∅) then Ret (0, Document.length (doc p)) else
  let keys := sorted_keys ti in
  s_pos ←r match List.find (fun k => start_frames' <=? k) keys with
           | Some k => getitem ti k
           | None =>
               let before_keys := List.filter (fun k => k <=? start_frames') keys in
               match before_keys with
               | [] => Ret 0
               | _ => getitem ti (py_max before_keys)
               end
           end;
  e_pos ←r (let before_or_at := List.filter (fun k => k <=? end_frames') keys in
            match before_or_at with
            | [] =>
                let after_keys := List.filter (fun k => end_frames' <=? k) keys in
                match after_keys with
                | [] => Ret (Document.length (doc p))
                | _ => getitem ti (py_min after_keys)
                end
            | _ => getitem ti (py_max before_or_at)
            end);
  let s_pos := clamp s_pos (Document.length (doc p)) in
  let e_pos := clamp e_pos (Document.length (doc p)) in
  if e_pos <? s_pos then Ret (e_pos, s_pos) else Ret (s_pos, e_pos).

(** *** Command handlers *)

Definition in_target (f : Document.t → result Document.t) (p : t) : outcome :=
  match state p with
  | NORMAL => on_target MainDoc f p
  | REFRESH =>
      match _refresh_target_doc p with
      | Ret r => on_target r f p
      | Raise e => Raised e p
      end
  end.

Definition _on_page (payload : list Z) (p : t) : outcome :=
  in_target (fun d => Ret (Document.on_page payload d)) p.

Definition _on_line (payload : list Z) (p : t) : outcome :=
  in_target (Document.on_line payload) p.

Definition _on_format (payload : list Z) (p : t) : outcome :=
  in_target (Document.on_format payload) p.

Definition _on_timecode (payload : list Z) (p : t) : outcome :=
  match Timecode.from_bytes payload with
  | Raise e => Raised e p
  | Ret tc => in_target (fun d => Ret (Document.on_timecode tc d)) p
  end.

Definition _on_delete (p : t) : outcome :=
  match state p with
  | NORMAL => on_target MainDoc (Document.delete_backspace 0) p
  | REFRESH =>
      match refresh_mode p with
      | BUFFER => on_target ScratchDoc (Document.delete_backspace 0) p
      | STREAM =>
          on_target MainDoc (Document.delete_backspace (_refresh_lower_bound p)) p
      end
  end.

Definition _on_prevent_save (p : t) : outcome :=
  match state p with
  | NORMAL => on_target MainDoc (fun d => Ret (Document.on_prevent_save d)) p
  | REFRESH =>
      match _refresh_target_doc p with
      | Raise e => Raised e p
      | Ret r =>
          andthen (on_target r (fun d => Ret (Document.on_prevent_save d)) p)
            (fun p1 =>
               match deref r p1 with
               | Some target =>
                   Done (set_doc (Document.with_prevent_save
                                    (Document.prevent_save target) (doc p1)) p1)
               | None => Raised AssertionError p1
               end)
      end
  end.

Definition _on_refresh_begin (payload : list Z) (p : t) : outcome :=
  if negb (len payload =? 8) then Raised ValueError p else
  if is_refresh (state p) then Raised RuntimeError p else
  match Timecode.from_bytes (take 4 payload) with
  | Raise e => Raised e p
  | Ret stc =>
      let p1 := set_start_tc (Some stc) p in
      match Timecode.from_bytes (drop 4 payload) with
      | Raise e => Raised e p1
      | Ret etc =>
          let p2 := set_end_tc (Some etc) p1 in
          match _resolve_time_range stc etc p2 with
          | Raise e => Raised e p2
          | Ret (s_pos, e_pos) =>
              let p3 := set_end_pos (Some e_pos) (set_start_pos (Some s_pos) p2) in
              let p4 :=
                match refresh_mode p3 with
                | BUFFER =>
                    set_buffer (Some (Document.set_insertion 0 Document.new)) p3
                | STREAM =>
                    set_lower_bound s_pos
                      (set_doc (Document.set_insertion s_pos
                                  (Document.delete_range s_pos e_pos (doc p3))) p3)
                end in
              Done (set_state REFRESH p4)
          end
      end
  end.

(** The tail of [_on_refresh_end]: reset the refresh bookkeeping. *)
Definition reset_refresh (p : t) : t :=
  set_lower_bound 0
    (set_buffer None
       (set_end_pos None
          (set_start_pos None
             (set_end_tc None (set_start_tc None (set_state NORMAL p)))))).

Definition _on_refresh_end (p : t) : outcome :=
  match state p with
  | NORMAL => Done p
  | REFRESH =>
      match refresh_mode p with
      | BUFFER =>
          match _refresh_start_pos p, _refresh_end_pos p, _refresh_buffer p with
          | Some s_pos, Some e_pos, Some buf =>
              let buf_text := Document.text buf in
              let d1 := Document.delete_range s_pos e_pos (doc p) in
              let d2 := Document.set_insertion s_pos d1 in
              let d3 := Document.insert_text buf_text d2 in
              let d4 := Document.with_prevent_save (Document.prevent_save buf) d3 in
              Done (reset_refresh (set_doc d4 p))
          | _, _, _ => Raised AssertionError p
          end
      | STREAM =>
          Done (reset_refresh
                  (set_doc (Document.set_insertion (Document.length (doc p)) (doc p)) p))
      end
  end.

(** *** Command dispatch *)

Definition _dispatch_cmd (cmd : Z) (payload : list Z) (p : t) : outcome :=
  if cmd =? cmd_P then _on_page payload p
  else if cmd =? cmd_N then _on_line payload p
  else if cmd =? cmd_F then _on_format payload p
  else if cmd =? cmd_T then _on_timecode payload p
  else if cmd =? cmd_D then _on_delete p
  else if cmd =? cmd_K then _on_prevent_save p
  else if cmd =? cmd_R then _on_refresh_begin payload p
  else if cmd =? cmd_E then _on_refresh_end p
  else _handle_unknown cmd payload p.

(** *** The public API *)

(** One iteration of the loop of [feed]. *)
Definition feed_byte (p : t) (b : Z) : outcome :=
  if negb (_in_cmd p) then
    if b =? STX then Done (_enter_frame p)
    else _insert_text_bytes [b] p
  else
    match _current_cmd p with
    | None =>
        Done (set_frame (_frame_buf p) (_in_cmd p) (cmd_len b) (Some b) p)
    | Some cmd =>
        match _expected_len p with
        | None =>
            if b =? ETX
            then andthen (_handle_unknown cmd (_frame_buf p) p)
                   (fun p1 => Done (_exit_frame p1))
            else Done (set_frame (_frame_buf p ++ [b]) (_in_cmd p)
                         (_expected_len p) (_current_cmd p) p)
        | Some n =>
            if len (_frame_buf p) <? n
            then Done (set_frame (_frame_buf p ++ [b]) (_in_cmd p)
                         (_expected_len p) (_current_cmd p) p)
            else if negb (b =? ETX) then Raised ValueError p
            else andthen (_dispatch_cmd cmd (_frame_buf p) p)
                   (fun p1 => Done (_exit_frame p1))
        end
    end.

(** [feed(data)]: the loop stops at the first exception. *)
Fixpoint feed (p : t) (data : list Z) : outcome :=
  match data with
  | [] => Done p
  | b :: rest => andthen (feed_byte p b) (fun p1 => feed p1 rest)
  end.

Definition document_text (p : t) : list Z := Document.text (doc p).

End LawBridgeParser.

(** ** Frame builder *)

(** [frame(cmd, payload)] *)
Definition frame (cmd : Z) (payload : list Z) : result (list Z) :=
  match cmd_len cmd with
  | None => Raise ValueError
  | Some expected =>
      if negb (len payload =? expected) then Raise ValueError
      else Ret ([STX] ++ [cmd] ++ payload ++ [ETX])
  end.

(** [tc_bytes(hh, mm, ss, ff)] *)
Definition tc_bytes (hh mm ss ff : Z) : list Z :=
  [Z.land hh 255; Z.land mm 255; Z.land ss 255; Z.land ff 255].

(** [le_word(n)]: [int(n).to_bytes(2, 'little', signed=False)].  The
    conversion raises [OverflowError] for a negative [n] and for one that
    does not fit two bytes; [None] stands for that exception. *)
Definition le_word (n : Z) : option (list Z) :=
  if (0 <=? n) && (n <? 65536)
  then Some [n mod 256; (n / 256) mod 256]
  else None.

Import LawBridgeParser.

(** ** Predicates used to state the properties *)

(** Range resolution as the specification words it.  The start anchor
    is the stored offset of the smallest key at or after [start_frames];
    failing that, of the largest key at or before it; and [0] on an
    empty index. *)
Inductive start_anchor (ti : gmap Z Z) (start_frames : Z) : Z → Prop :=
  | start_at_or_after k v :
      ti !! k = Some v → start_frames <= k →
      (∀ k', is_Some (ti !! k') → start_frames <= k' → k <= k') →
      start_anchor ti start_frames v
  | start_nearest_before k v :
      (∀ k', is_Some (ti !! k') → ¬ start_frames <= k') →
      ti !! k = Some v → k <= start_frames →
      (∀ k', is_Some (ti !! k') → k' <= start_frames → k' <= k) →
      start_anchor ti start_frames v
  | start_index_empty :
      ti = ∅ → start_anchor ti start_frames 0.

(** The end anchor is the stored offset of the largest key at or before
    [end_frames]; failing that, of the smallest key at or after it; and
    the document length [L] on an empty index. *)
Inductive end_anchor (ti : gmap Z Z) (L : Z) (end_frames : Z) : Z → Prop :=
  | end_before_or_at k v :
      ti !! k = Some v → k <= end_frames →
      (∀ k', is_Some (ti !! k') → k' <= end_frames → k' <= k) →
      end_anchor ti L end_frames v
  | end_nearest_after k v :
      (∀ k', is_Some (ti !! k') → ¬ k' <= end_frames) →
      ti !! k = Some v → end_frames <= k →
      (∀ k', is_Some (ti !! k') → end_frames <= k' → k <= k') →
      end_anchor ti L end_frames v
  | end_index_empty :
      ti = ∅ → end_anchor ti L end_frames L.

(** The whole resolution: swap the frame counts if they come in the
    wrong order, take the two anchors, clamp both into [0, L], and swap
    the positions if the end comes before the start. *)
Definition resolves_to (ti : gmap Z Z) (L : Z) (start_frames end_frames : Z)
    (res : Z * Z) : Prop :=
  let sf := if end_frames <? start_frames then end_frames else start_frames in
  let ef := if end_frames <? start_frames then start_frames else end_frames in
  ∃ a b,
    start_anchor ti sf a ∧ end_anchor ti L ef b ∧
    res = (let s := clamp a L in
           let e := clamp b L in
           if e <? s then (e, s) else (s, e)).

(** The cursor invariant of a parser: it holds of the main document and
    of the scratch document when there is one. *)
Definition cursor_ok (p : LawBridgeParser.t) : Prop :=
  Document.wf (doc p) ∧
  ∀ b, _refresh_buffer p = Some b → Document.wf b.

(** The two searches of [_resolve_time_range] on a non-empty index, named
    so that lemmas can talk about each on its own: the start position ... *)
Definition code_start (ti : gmap Z Z) (sf : Z) : result Z :=
  match List.find (fun k => sf <=? k) (sorted_keys ti) with
  | Some k => getitem ti k
  | None =>
      let before_keys := List.filter (fun k => k <=? sf) (sorted_keys ti) in
      match before_keys with
      | [] => Ret 0
      | _ => getitem ti (py_max before_keys)
      end
  end.

(** ... and the end position. *)
Definition code_end (ti : gmap Z Z) (L ef : Z) : result Z :=
  let before_or_at := List.filter (fun k => k <=? ef) (sorted_keys ti) in
  match before_or_at with
  | [] =>
      let after_keys := List.filter (fun k => ef <=? k) (sorted_keys ti) in
      match after_keys with
      | [] => Ret L
      | _ => getitem ti (py_min after_keys)
      end
  | _ => getitem ti (py_max before_or_at)
  end.

(** The bytes [b] that complete a frame of command [cmd]: the parser is
    inside a frame of that command, its payload is complete, and [b] is
    the closing ETX.  These are the conditions under which [feed] calls
    [_dispatch_cmd]. *)
Definition dispatches (cmd : Z) (p : LawBridgeParser.t) (b : Z) : bool :=
  _in_cmd p &&
  match _current_cmd p, _expected_len p with
  | Some c, Some n => (c =? cmd) && negb (len (_frame_buf p) <? n) && (b =? ETX)
  | _, _ => false
  end.

(** Feeding [data] raises nothing and the parser is in REFRESH after
    every byte of it. *)
Fixpoint stays_in_refresh (p : LawBridgeParser.t) (data : list Z) : bool :=
  match data with
  | [] => true
  | b :: rest =>
      match feed_byte p b with
      | Done q => is_refresh (state q) && stays_in_refresh q rest
      | Raised _ _ => false
      end
  end.

(** No byte of [data] completes a frame of command [cmd]. *)
Fixpoint no_dispatch_of (cmd : Z) (p : LawBridgeParser.t) (data : list Z) : bool :=
  match data with
  | [] => true
  | b :: rest =>
      negb (dispatches cmd p b) &&
      match feed_byte p b with
      | Done q => no_dispatch_of cmd q rest
      | Raised _ _ => true
      end
  end.

(** Two states of a document that differ at most in [prevent_save]. *)
Definition same_but_prevent_save (d d' : Document.t) : Prop :=
  Document._chars d' = Document._chars d
  ∧ Document._insertion d' = Document._insertion d
  ∧ Document.time_index d' = Document.time_index d
  ∧ Document.current_page d' = Document.current_page d
  ∧ Document.current_line d' = Document.current_line d
  ∧ Document.current_format d' = Document.current_format d.

(** What one byte may change while a BUFFER-mode refresh goes on: the
    mode and the resolved range stay, the main document changes at most
    in [prevent_save], the scratch document stays in place, and, unless
    the byte is allowed to set it ([keep = false]), the scratch
    document's [prevent_save] stays too. *)
Definition buffered_step (keep : bool) (p q : LawBridgeParser.t) : Prop :=
  refresh_mode q = BUFFER
  ∧ _refresh_start_pos q = _refresh_start_pos p
  ∧ _refresh_end_pos q = _refresh_end_pos p
  ∧ same_but_prevent_save (doc p) (doc q)
  ∧ ∀ buf, _refresh_buffer p = Some buf →
      ∃ buf', _refresh_buffer q = Some buf'
              ∧ (keep = true →
                 Document.prevent_save buf' = Document.prevent_save buf).

(** Frames used in the scenarios of the protocol description: T at 0 s
    and at 1 s, R over that second, E and D. *)
Definition T_0s : list Z := [2; 84; 0; 0; 0; 0; 3].
Definition T_1s : list Z := [2; 84; 0; 0; 1; 0; 3].
Definition R_0s_1s : list Z := [2; 82; 0; 0; 0; 0; 0; 0; 1; 0; 3].
Definition E_ : list Z := [2; 69; 3].
Definition D_ : list Z := [2; 68; 3].

(** The frame-parse fields of the parser of an outcome, replaced. *)
Definition with_frame buf inc exp cmd (o : outcome) : outcome :=
  match o with
  | Done q => Done (set_frame buf inc exp cmd q)
  | Raised e q => Raised e (set_frame buf inc exp cmd q)
  end.

(** The parser [p] with another refresh mode. *)
Definition with_refresh_mode (m : RefreshMode) (p : LawBridgeParser.t)
    : LawBridgeParser.t :=
  mk (state p) m (doc p) (_refresh_start_tc p) (_refresh_end_tc p)
     (_refresh_start_pos p) (_refresh_end_pos p) (_refresh_buffer p)
     (_refresh_lower_bound p) (_frame_buf p) (_in_cmd p) (_expected_len p)
     (_current_cmd p).

(** What [feed] keeps true of the incremental frame parse: before the
    command letter is read the frame buffer is empty and no length is
    expected; afterwards the parser is inside a frame, the expected
    length is the one [CMD_LEN] gives for the letter, and the buffer of
    a known command never outgrows it. *)
Definition frame_ok (p : LawBridgeParser.t) : Prop :=
  match _current_cmd p with
  | None => _frame_buf p = [] ∧ _expected_len p = None
  | Some c =>
      _in_cmd p = true ∧ _expected_len p = cmd_len c
      ∧ ∀ n, cmd_len c = Some n → len (_frame_buf p) <= n
  end.

(** What [feed] keeps true of the refresh bookkeeping: in NORMAL it is
    all reset; in REFRESH the resolved range is there and in order, a
    BUFFER-mode parser has its scratch document and a range inside the
    main document, a STREAM-mode parser has no scratch document and its
    cursor at or after the lower bound, which is the start of the range. *)
Definition refresh_ok (p : LawBridgeParser.t) : Prop :=
  match state p with
  | NORMAL =>
      _refresh_start_pos p = None ∧ _refresh_end_pos p = None
      ∧ _refresh_buffer p = None ∧ _refresh_lower_bound p = 0
  | REFRESH =>
      ∃ s e, _refresh_start_pos p = Some s ∧ _refresh_end_pos p = Some e
             ∧ 0 <= s <= e
             ∧ match refresh_mode p with
               | BUFFER =>
                   is_Some (_refresh_buffer p) ∧ _refresh_lower_bound p = 0
                   ∧ e <= len (Document._chars (doc p))
               | STREAM =>
                   _refresh_buffer p = None ∧ _refresh_lower_bound p = s
                   ∧ s <= Document._insertion (doc p)
               end
  end.

(** The invariant of the parser: cursors, frame parse and refresh
    bookkeeping. *)
Definition parser_ok (p : LawBridgeParser.t) : Prop :=
  cursor_ok p ∧ frame_ok p ∧ refresh_ok p.

(** The text of a STREAM-mode refresh against that of a BUFFER-mode
    refresh of the same range [s, e): the main document of the
    STREAM-mode parser reads as the BUFFER-mode main document with the
    range replaced by the scratch text, and its cursor is the scratch
    cursor moved by [s]. *)
Definition doc_sim (s e : Z) (dB buf dS : Document.t) : Prop :=
  Document.wf buf
  ∧ 0 <= s <= e ∧ e <= len (Document._chars dB)
  ∧ Document._chars dS
    = take (Z.to_nat s) (Document._chars dB) ++ Document._chars buf
      ++ drop (Z.to_nat e) (Document._chars dB)
  ∧ Document._insertion dS = s + Document._insertion buf.

(** A BUFFER-mode and a STREAM-mode parser in the middle of the same
    refresh. *)
Definition refresh_sim (pB pS : LawBridgeParser.t) : Prop :=
  state pB = REFRESH ∧ state pS = REFRESH
  ∧ refresh_mode pB = BUFFER ∧ refresh_mode pS = STREAM
  ∧ _frame_buf pS = _frame_buf pB ∧ _in_cmd pS = _in_cmd pB
  ∧ _expected_len pS = _expected_len pB ∧ _current_cmd pS = _current_cmd pB
  ∧ ∃ s e buf,
      _refresh_start_pos pB = Some s ∧ _refresh_end_pos pB = Some e
      ∧ _refresh_buffer pB = Some buf ∧ _refresh_lower_bound pS = s
      ∧ doc_sim s e (doc pB) buf (doc pS).

(** A BUFFER-mode parser in REFRESH against a parser in NORMAL that was
    fed the same bytes since the refresh began: the frame parse is at the
    same point, and the scratch document of the first is the main
    document of the second. *)
Definition scratch_sim (pB n : LawBridgeParser.t) : Prop :=
  state pB = REFRESH ∧ refresh_mode pB = BUFFER ∧ state n = NORMAL
  ∧ _frame_buf n = _frame_buf pB ∧ _in_cmd n = _in_cmd pB
  ∧ _expected_len n = _expected_len pB ∧ _current_cmd n = _current_cmd pB
  ∧ _refresh_buffer pB = Some (doc n).

(** * Properties *)

(** ** Lists and clamping *)

Lemma len_nonneg {A} (l : list A) : 0 <= len l.
Proof. unfold len. lia. Qed.

Lemma len_app {A} (l1 l2 : list A) : len (l1 ++ l2) = len l1 + len l2.
Proof. unfold len. rewrite length_app. lia. Qed.

Lemma len_take {A} (n : Z) (l : list A) :
  0 <= n <= len l → len (take (Z.to_nat n) l) = n.
Proof. unfold len. intros H. rewrite length_take. lia. Qed.

Lemma len_drop {A} (n : Z) (l : list A) :
  0 <= n <= len l → len (drop (Z.to_nat n) l) = len l - n.
Proof. unfold len. intros H. rewrite length_drop. lia. Qed.

Lemma clamp_range (pos n : Z) : 0 <= n → 0 <= clamp pos n <= n.
Proof. unfold clamp. lia. Qed.

Lemma clamp_id (pos n : Z) : 0 <= pos <= n → clamp pos n = pos.
Proof. unfold clamp. lia. Qed.

Lemma py_insert_in_range {A} (i : Z) (x : A) (l : list A) :
  0 <= i → py_insert i x l = take (Z.to_nat i) l ++ x :: drop (Z.to_nat i) l.
Proof.
  intros Hi. unfold py_insert.
  destruct (Z.ltb_spec i 0) as [Hlt | _]; [lia | reflexivity].
Qed.

Lemma take_snoc_middle {A} (l1 l2 : list A) (x : A) (n : nat) :
  List.length l1 = n → take (S n) (l1 ++ x :: l2) = l1 ++ [x].
Proof.
  intros <-. rewrite (cons_middle x l1 l2), app_assoc.
  apply take_app_length'. rewrite length_app. simpl. lia.
Qed.

Lemma drop_snoc_middle {A} (l1 l2 : list A) (x : A) (n : nat) :
  List.length l1 = n → drop (S n) (l1 ++ x :: l2) = l2.
Proof.
  intros <-. rewrite (cons_middle x l1 l2), app_assoc.
  apply drop_app_length'. rewrite length_app. simpl. lia.
Qed.

(** ** Document *)

Section DocumentFacts.
Import Document.

Lemma insert_loop_spec (s cs : list Z) (pos : Z) :
  0 <= pos <= len cs →
  insert_loop s cs pos
  = (take (Z.to_nat pos) cs ++ s ++ drop (Z.to_nat pos) cs, pos + len s).
Proof.
  unfold insert_loop. revert cs pos.
  induction s as [| ch s IH]; intros cs pos Hpos; simpl.
  - rewrite take_drop. f_equal. unfold len. simpl. lia.
  - rewrite py_insert_in_range by lia.
    rewrite IH.
    + f_equal.
      * assert (Hn : Z.to_nat (pos + 1) = S (Z.to_nat pos)) by lia.
        rewrite Hn.
        assert (Hl : List.length (take (Z.to_nat pos) cs) = Z.to_nat pos).
        { rewrite length_take. unfold len in Hpos. lia. }
        rewrite (take_snoc_middle _ _ _ _ Hl), (drop_snoc_middle _ _ _ _ Hl).
        rewrite <- app_assoc. reflexivity.
      * unfold len. simpl. lia.
    + rewrite len_app, len_take by lia.
      pose proof (len_nonneg (ch :: drop (Z.to_nat pos) cs)).
      assert (1 <= len (ch :: drop (Z.to_nat pos) cs))
        by (unfold len; simpl; lia).
      lia.
Qed.

Lemma insert_text_chars (s : list Z) (d : t) :
  wf d →
  _chars (insert_text s d)
  = take (Z.to_nat (_insertion d)) (_chars d) ++ s
    ++ drop (Z.to_nat (_insertion d)) (_chars d).
Proof.
  intros Hwf. destruct s as [| c s].
  - simpl. symmetry. apply take_drop.
  - unfold insert_text. simpl _chars. rewrite insert_loop_spec by exact Hwf.
    reflexivity.
Qed.

Lemma insert_text_insertion (s : list Z) (d : t) :
  wf d → _insertion (insert_text s d) = _insertion d + len s.
Proof.
  intros Hwf. destruct s as [| c s].
  - simpl. unfold len. simpl. lia.
  - unfold insert_text. simpl _insertion. rewrite insert_loop_spec by exact Hwf.
    reflexivity.
Qed.

Lemma wf_new : wf new.
Proof. unfold wf, new, len. simpl. lia. Qed.

Lemma wf_set_insertion (pos : Z) (d : t) : wf (set_insertion pos d).
Proof. unfold wf, set_insertion. simpl. apply clamp_range, len_nonneg. Qed.

Lemma wf_insert_text (s : list Z) (d : t) : wf d → wf (insert_text s d).
Proof.
  intros Hwf. unfold wf.
  rewrite insert_text_insertion, insert_text_chars by exact Hwf.
  unfold wf in Hwf.
  rewrite !len_app, len_take, len_drop by lia.
  pose proof (len_nonneg s). lia.
Qed.

Lemma delete_backspace_removes (lb : Z) (d : t) :
  wf d → lb < _insertion d → 0 < _insertion d →
  delete_backspace lb d
  = Ret (with_insertion (_insertion d - 1)
           (with_chars (take (Z.to_nat (_insertion d - 1)) (_chars d)
                        ++ drop (Z.to_nat (_insertion d)) (_chars d)) d)).
Proof.
  intros Hwf Hlb Hpos. unfold delete_backspace, wf in *.
  destruct (Z.ltb_spec lb (_insertion d)); [| lia].
  destruct (Z.ltb_spec 0 (_insertion d)); [| lia].
  simpl. unfold py_del_item.
  destruct (Z.leb_spec 0 (_insertion d - 1)); [| lia].
  destruct (Z.ltb_spec (_insertion d - 1) (len (_chars d))); [| lia].
  simpl. replace (S (Z.to_nat (_insertion d - 1))) with (Z.to_nat (_insertion d)) by lia.
  reflexivity.
Qed.

Lemma delete_backspace_noop (lb : Z) (d : t) :
  ¬ (lb < _insertion d ∧ 0 < _insertion d) → delete_backspace lb d = Ret d.
Proof.
  intros Hn. unfold delete_backspace.
  destruct (Z.ltb_spec lb (_insertion d)); [| reflexivity].
  destruct (Z.ltb_spec 0 (_insertion d)); [lia | reflexivity].
Qed.

Lemma wf_delete_backspace (lb : Z) (d d' : t) :
  wf d → delete_backspace lb d = Ret d' → wf d'.
Proof.
  intros Hwf Hd.
  destruct (decide (lb < _insertion d ∧ 0 < _insertion d)) as [[H1 H2] | Hn].
  - rewrite delete_backspace_removes in Hd by assumption.
    injection Hd as <-. unfold wf in *. simpl.
    rewrite len_app, len_take, len_drop by lia. lia.
  - rewrite delete_backspace_noop in Hd by assumption. congruence.
Qed.

Lemma delete_backspace_total (lb : Z) (d : t) :
  wf d → ∃ d', delete_backspace lb d = Ret d'.
Proof.
  intros Hwf.
  destruct (decide (lb < _insertion d ∧ 0 < _insertion d)) as [[H1 H2] | Hn].
  - eexists. apply delete_backspace_removes; assumption.
  - eexists. apply delete_backspace_noop; assumption.
Qed.

Lemma delete_range_chars (a b : Z) (d : t) :
  0 <= a <= b → b <= len (_chars d) →
  _chars (delete_range a b d)
  = take (Z.to_nat a) (_chars d) ++ drop (Z.to_nat b) (_chars d).
Proof.
  intros Hab Hb. unfold delete_range.
  rewrite !clamp_id by lia.
  destruct (Z.ltb_spec a b) as [Hlt | Hge].
  - simpl. unfold py_del_slice. destruct (Z.ltb_spec a b); [reflexivity | lia].
  - assert (a = b) as -> by lia. symmetry. apply take_drop.
Qed.

Lemma wf_delete_range (a b : Z) (d : t) : wf d → wf (delete_range a b d).
Proof.
  intros Hwf. unfold delete_range.
  pose proof (clamp_range a (len (_chars d)) (len_nonneg _)) as Ha.
  pose proof (clamp_range b (len (_chars d)) (len_nonneg _)) as Hb.
  destruct (Z.ltb_spec (clamp a (len (_chars d))) (clamp b (len (_chars d))))
    as [Hlt | Hge]; [| exact Hwf].
  unfold wf. simpl. unfold py_del_slice.
  destruct (Z.ltb_spec (clamp a (len (_chars d))) (clamp b (len (_chars d))));
    [| lia].
  rewrite len_app, len_take, len_drop by lia. lia.
Qed.

End DocumentFacts.

(** C7. [delete_backspace] respects its lower bound.  On a document that
    satisfies the class invariant, [delete_backspace(lower_bound)] removes
    a character only when [insertion > lower_bound] and [insertion > 0];
    it then removes exactly the character at offset [insertion - 1], an
    offset that is at least [lower_bound], and moves the cursor back by
    one; in every other case it leaves the document as it is.  So every
    character at an offset below [lower_bound] stays where it was. *)
Theorem delete_backspace_respects_lower_bound (d : Document.t) (lower_bound : Z) :
  Document.wf d →
  let i := Document._insertion d in
  let cs := Document._chars d in
  (lower_bound < i ∧ 0 < i →
     lower_bound <= i - 1 ∧
     ∃ ch, cs = take (Z.to_nat (i - 1)) cs ++ ch :: drop (Z.to_nat i) cs ∧
       Document.delete_backspace lower_bound d
       = Ret (Document.with_insertion (i - 1)
                (Document.with_chars
                   (take (Z.to_nat (i - 1)) cs ++ drop (Z.to_nat i) cs) d)))
  ∧ (¬ (lower_bound < i ∧ 0 < i) →
     Document.delete_backspace lower_bound d = Ret d)
  ∧ (∃ d', Document.delete_backspace lower_bound d = Ret d' ∧
       take (Z.to_nat lower_bound) (Document._chars d')
       = take (Z.to_nat lower_bound) cs).
Proof.
  intros Hwf i cs. unfold Document.wf in Hwf. fold i cs in Hwf.
  split; [| split].
  - intros [Hlb Hpos]. split; [lia |].
    destruct (cs !! Z.to_nat (i - 1)) as [ch |] eqn:Hch.
    + exists ch. split.
      * rewrite <- (take_drop_middle cs (Z.to_nat (i - 1)) ch Hch) at 1.
        replace (S (Z.to_nat (i - 1))) with (Z.to_nat i) by lia. reflexivity.
      * apply delete_backspace_removes; [exact Hwf | exact Hlb | exact Hpos].
    + apply lookup_ge_None in Hch. unfold len in Hwf. lia.
  - apply delete_backspace_noop.
  - destruct (decide (lower_bound < i ∧ 0 < i)) as [[Hlb Hpos] | Hn].
    + eexists. split; [apply delete_backspace_removes; assumption |].
      simpl. fold i cs.
      rewrite take_app_le by (rewrite length_take; unfold len in Hwf; lia).
      rewrite take_take. f_equal. lia.
    + exists d. split; [apply delete_backspace_noop; exact Hn | reflexivity].
Qed.

(** The invariant holds of a document with text "AB" and the cursor at
    its end; a backspace with lower bound 1 is allowed there. *)
Lemma delete_backspace_respects_lower_bound_witness :
  Document.delete_backspace 1 (Document.mk [65; 66] 2 ∅ None None None false)
  = Ret (Document.mk [65] 1 ∅ None None None false).
Proof.
  pose (d := Document.mk [65; 66] 2 ∅ None None None false).
  assert (Hwf : Document.wf d) by (unfold Document.wf, len; simpl; lia).
  destruct (delete_backspace_respects_lower_bound d 1 Hwf) as [H _].
  destruct H as [_ [ch [_ H]]]; [simpl; lia | exact H].
Defined.

(** ** The feed loop *)

Lemma feed_app (p : LawBridgeParser.t) (a b : list Z) :
  feed p (a ++ b) = andthen (feed p a) (fun q => feed q b).
Proof.
  revert p. induction a as [| x a IH]; intros p; simpl.
  - reflexivity.
  - destruct (feed_byte p x) as [q | e q]; simpl.
    + apply IH.
    + reflexivity.
Qed.

(** C4. Chunking equivalence.  For every parser state and every split
    [s = a ++ b], the statement sequence [feed(a); feed(b)] leaves the
    parser in exactly the state of the single call [feed(a ++ b)], with
    the same exception if one is raised: the whole parser record is
    compared, so the document, the cursor, the time index, the latched
    fields, the frame-parse state and the refresh state all agree.  In
    particular, when [feed(a)] returns, [feed(b)] on the parser it leaves
    does what [feed(a ++ b)] does; and when [feed(a)] raises, the
    exception propagates ([feed(b)] is not run) and [feed(a ++ b)] raises
    the same exception at the same byte, in the same state. *)
Theorem feed_chunking_equivalence (p : LawBridgeParser.t) (a b : list Z) :
  andthen (feed p a) (fun q => feed q b) = feed p (a ++ b)
  ∧ (∀ q, feed p a = Done q → feed q b = feed p (a ++ b))
  ∧ (∀ e q, feed p a = Raised e q → feed p (a ++ b) = Raised e q).
Proof.
  assert (H : andthen (feed p a) (fun q => feed q b) = feed p (a ++ b)).
  { revert p. induction a as [| x a IH]; intros p.
    - reflexivity.
    - change (feed p ((x :: a) ++ b))
        with (andthen (feed_byte p x) (fun p1 => feed p1 (a ++ b))).
      change (feed p (x :: a))
        with (andthen (feed_byte p x) (fun p1 => feed p1 a)).
      destruct (feed_byte p x) as [q | e q]; simpl.
      + apply IH.
      + reflexivity. }
  split; [exact H |]. split.
  - intros q Hq. rewrite <- H, Hq. reflexivity.
  - intros e q Hq. rewrite <- H, Hq. reflexivity.
Qed.

(** ** The cursor invariant *)

Section CursorInvariant.

Lemma cursor_ok_new (mode : RefreshMode) : cursor_ok (new mode).
Proof.
  split; [apply wf_new |]. simpl. intros b Hb. discriminate.
Qed.

Lemma cursor_ok_set_frame buf inc exp cmd p :
  cursor_ok p → cursor_ok (set_frame buf inc exp cmd p).
Proof. intros H. exact H. Qed.

Lemma cursor_ok_on_target r f p :
  (∀ d d', Document.wf d → f d = Ret d' → Document.wf d') →
  cursor_ok p → cursor_ok (final (on_target r f p)).
Proof.
  intros Hf [Hd Hb]. unfold on_target. destruct r.
  - destruct (f (doc p)) as [d' | e] eqn:E; simpl; [| split; assumption].
    split; [eapply Hf; eassumption | exact Hb].
  - destruct (_refresh_buffer p) as [b |] eqn:Eb; simpl;
      [| split; [exact Hd | rewrite Eb; discriminate]].
    destruct (f b) as [d' | e] eqn:E; simpl;
      [| split; [exact Hd | rewrite Eb; intros b' [= <-]; apply Hb; reflexivity]].
    split; [exact Hd |]. simpl. intros b' [= <-].
    eapply Hf; [apply Hb; reflexivity | exact E].
Qed.

Lemma cursor_ok_in_target f p :
  (∀ d d', Document.wf d → f d = Ret d' → Document.wf d') →
  cursor_ok p → cursor_ok (final (in_target f p)).
Proof.
  intros Hf Hp. unfold in_target. destruct (state p).
  - apply cursor_ok_on_target; assumption.
  - destruct (_refresh_target_doc p); simpl; [| exact Hp].
    apply cursor_ok_on_target; assumption.
Qed.

Lemma cursor_ok_insert_text_bytes bs p :
  cursor_ok p → cursor_ok (final (_insert_text_bytes bs p)).
Proof.
  intros Hp. unfold _insert_text_bytes.
  destruct (state p); [| destruct (refresh_mode p)];
    apply cursor_ok_on_target; try exact Hp;
    intros d d' Hd [= <-]; apply wf_insert_text; exact Hd.
Qed.

Lemma cursor_ok_on_delete p :
  cursor_ok p → cursor_ok (final (_on_delete p)).
Proof.
  intros Hp. unfold _on_delete.
  destruct (state p); [| destruct (refresh_mode p)];
    apply cursor_ok_on_target; try exact Hp;
    intros d d' Hd E; eapply wf_delete_backspace; eassumption.
Qed.

Lemma cursor_ok_on_prevent_save p :
  cursor_ok p → cursor_ok (final (_on_prevent_save p)).
Proof.
  intros Hp. unfold _on_prevent_save.
  assert (Hps : ∀ d d' : Document.t, Document.wf d →
            Ret (Document.on_prevent_save d) = Ret d' → Document.wf d').
  { intros d d' Hd [= <-]. exact Hd. }
  destruct (state p).
  - apply cursor_ok_on_target; assumption.
  - destruct (_refresh_target_doc p) as [r | e]; simpl; [| exact Hp].
    pose proof (cursor_ok_on_target r _ p Hps Hp) as H1.
    destruct (on_target r _ p) as [p1 | e p1]; simpl in *; [| exact H1].
    destruct (deref r p1); simpl; [| exact H1].
    destruct H1 as [Hd Hb]. split; [exact Hd | exact Hb].
Qed.

Lemma cursor_ok_on_refresh_begin payload p :
  cursor_ok p → cursor_ok (final (_on_refresh_begin payload p)).
Proof.
  intros Hp. unfold _on_refresh_begin.
  destruct (negb (len payload =? 8)); [exact Hp |].
  destruct (is_refresh (state p)); [exact Hp |].
  destruct (Timecode.from_bytes (take 4 payload)) as [stc | e]; [| exact Hp].
  destruct (Timecode.from_bytes (drop 4 payload)) as [etc | e]; [| exact Hp].
  destruct (_resolve_time_range stc etc _) as [[s_pos e_pos] | e]; [| exact Hp].
  simpl. destruct Hp as [Hd Hb].
  destruct (refresh_mode p); split; simpl.
  - exact Hd.
  - intros b [= <-]. apply wf_set_insertion.
  - apply wf_set_insertion.
  - exact Hb.
Qed.

Lemma cursor_ok_on_refresh_end p :
  cursor_ok p → cursor_ok (final (_on_refresh_end p)).
Proof.
  intros Hp. unfold _on_refresh_end.
  destruct (state p); [exact Hp |].
  destruct (refresh_mode p).
  - destruct (_refresh_start_pos p); [| exact Hp].
    destruct (_refresh_end_pos p); [| exact Hp].
    destruct (_refresh_buffer p); [| exact Hp].
    split; simpl; [| discriminate].
    apply (wf_insert_text _ (Document.set_insertion _ _)), wf_set_insertion.
  - split; simpl; [apply wf_set_insertion | discriminate].
Qed.

Lemma wf_on_line payload d d' :
  Document.wf d → Document.on_line payload d = Ret d' → Document.wf d'.
Proof. destruct payload; simpl; [discriminate |]. intros Hd [= <-]. exact Hd. Qed.

Lemma wf_on_format payload d d' :
  Document.wf d → Document.on_format payload d = Ret d' → Document.wf d'.
Proof. destruct payload; simpl; [discriminate |]. intros Hd [= <-]. exact Hd. Qed.

Lemma cursor_ok_dispatch_cmd cmd payload p :
  cursor_ok p → cursor_ok (final (_dispatch_cmd cmd payload p)).
Proof.
  intros Hp. unfold _dispatch_cmd.
  repeat match goal with |- context [if ?c then _ else _] => destruct c end.
  - apply cursor_ok_in_target; [| exact Hp]. intros d d' Hd [= <-]. exact Hd.
  - apply cursor_ok_in_target; [apply wf_on_line | exact Hp].
  - apply cursor_ok_in_target; [apply wf_on_format | exact Hp].
  - unfold _on_timecode. destruct (Timecode.from_bytes payload); [| exact Hp].
    apply cursor_ok_in_target; [| exact Hp]. intros d d' Hd [= <-]. exact Hd.
  - apply cursor_ok_on_delete; exact Hp.
  - apply cursor_ok_on_prevent_save; exact Hp.
  - apply cursor_ok_on_refresh_begin; exact Hp.
  - apply cursor_ok_on_refresh_end; exact Hp.
  - exact Hp.
Qed.

Lemma cursor_ok_feed_byte p b :
  cursor_ok p → cursor_ok (final (feed_byte p b)).
Proof.
  intros Hp. unfold feed_byte.
  destruct (negb (_in_cmd p)).
  - destruct (b =? STX); [exact Hp |].
    apply cursor_ok_insert_text_bytes; exact Hp.
  - destruct (_current_cmd p) as [cmd |]; [| exact Hp].
    destruct (_expected_len p) as [n |].
    + destruct (len (_frame_buf p) <? n); [exact Hp |].
      destruct (negb (b =? ETX)); [exact Hp |].
      pose proof (cursor_ok_dispatch_cmd cmd (_frame_buf p) p Hp) as H.
      destruct (_dispatch_cmd cmd (_frame_buf p) p); exact H.
    + destruct (b =? ETX); exact Hp.
Qed.

Lemma cursor_ok_feed p data :
  cursor_ok p → cursor_ok (final (feed p data)).
Proof.
  revert p. induction data as [| b rest IH]; intros p Hp; simpl; [exact Hp |].
  pose proof (cursor_ok_feed_byte p b Hp) as H.
  destruct (feed_byte p b) as [q | e q]; simpl in *; [apply IH |]; exact H.
Qed.

End CursorInvariant.

(** C6. Cursor invariant.  For a parser constructed in either refresh
    mode and every byte sequence fed to it, after each byte processed
    (that is, after every prefix of the input, and also in the state an
    exception leaves behind) the insertion cursor of the main document
    lies in [0, len(chars)], and so does the cursor of the scratch
    document whenever one exists. *)
Theorem cursor_invariant (mode : RefreshMode) (data : list Z) (n : nat) :
  let p := final (feed (new mode) (take n data)) in
  0 <= Document._insertion (doc p) <= len (Document._chars (doc p))
  ∧ ∀ b, _refresh_buffer p = Some b →
         0 <= Document._insertion b <= len (Document._chars b).
Proof.
  apply (cursor_ok_feed (new mode) (take n data)), cursor_ok_new.
Qed.

(** ** Range resolution *)

Section RangeResolution.

Lemma sorted_keys_In (ti : gmap Z Z) (k : Z) :
  In k (sorted_keys ti) ↔ is_Some (ti !! k).
Proof.
  unfold sorted_keys. rewrite <- list_elem_of_In.
  rewrite (merge_sort_Permutation Z.le (elements (dom ti))).
  rewrite elem_of_elements. apply elem_of_dom.
Qed.

Lemma sorted_keys_sorted (ti : gmap Z Z) :
  StronglySorted Z.le (sorted_keys ti).
Proof. apply StronglySorted_merge_sort; apply _. Qed.

Lemma sorted_keys_nonempty (ti : gmap Z Z) :
  ti ≠ ∅ → ∃ k, In k (sorted_keys ti).
Proof.
  intros Hne. destruct (map_choose ti Hne) as (k & v & Hkv).
  exists k. apply sorted_keys_In. eauto.
Qed.

Lemma getitem_Some (ti : gmap Z Z) (k : Z) :
  is_Some (ti !! k) → ∃ v, ti !! k = Some v ∧ getitem ti k = Ret v.
Proof. intros [v Hv]. exists v. unfold getitem. rewrite Hv. auto. Qed.

(** The first element of a sorted list that passes a lower-bound test is
    the least such element. *)
Lemma find_at_or_after (l : list Z) (s k : Z) :
  StronglySorted Z.le l →
  List.find (fun k => s <=? k) l = Some k →
  In k l ∧ s <= k ∧ ∀ k', In k' l → s <= k' → k <= k'.
Proof.
  induction 1 as [| x l Hs IH Hx]; simpl; [discriminate |].
  destruct (Z.leb_spec s x) as [Hle | Hgt].
  - intros [= <-]. split; [auto | split; [exact Hle |]].
    intros k' [<- | Hin] _; [lia |].
    rewrite Forall_forall in Hx. apply Hx, list_elem_of_In, Hin.
  - intros Hf. destruct (IH Hf) as (Hin & Hsk & Hmin).
    split; [auto | split; [exact Hsk |]].
    intros k' [<- | Hin'] Hk'; [lia | auto].
Qed.

Lemma find_at_or_after_None (l : list Z) (s : Z) :
  List.find (fun k => s <=? k) l = None → ∀ k, In k l → ¬ s <= k.
Proof.
  intros Hf k Hin Hle.
  pose proof (List.find_none _ _ Hf k Hin) as H. simpl in H.
  apply Z.leb_gt in H. lia.
Qed.

Lemma foldl_max_spec (l : list Z) (x : Z) :
  (foldl Z.max x l = x ∨ In (foldl Z.max x l) l)
  ∧ x <= foldl Z.max x l ∧ ∀ y, In y l → y <= foldl Z.max x l.
Proof.
  revert x. induction l as [| a l IH]; intros x; simpl.
  - split; [auto | split; [lia | tauto]].
  - destruct (IH (Z.max x a)) as (Hmem & Hge & Hall).
    split; [| split].
    + destruct Hmem as [-> | Hin]; [| auto].
      destruct (Z.max_spec x a) as [[_ ->] | [_ ->]]; auto.
    + lia.
    + intros y [<- | Hin]; [lia | auto].
Qed.

Lemma foldl_min_spec (l : list Z) (x : Z) :
  (foldl Z.min x l = x ∨ In (foldl Z.min x l) l)
  ∧ foldl Z.min x l <= x ∧ ∀ y, In y l → foldl Z.min x l <= y.
Proof.
  revert x. induction l as [| a l IH]; intros x; simpl.
  - split; [auto | split; [lia | tauto]].
  - destruct (IH (Z.min x a)) as (Hmem & Hge & Hall).
    split; [| split].
    + destruct Hmem as [-> | Hin]; [| auto].
      destruct (Z.min_spec x a) as [[_ ->] | [_ ->]]; auto.
    + lia.
    + intros y [<- | Hin]; [lia | auto].
Qed.

Lemma py_max_spec (l : list Z) :
  l ≠ [] → In (py_max l) l ∧ ∀ y, In y l → y <= py_max l.
Proof.
  destruct l as [| x l]; [congruence |]. intros _. unfold py_max.
  destruct (foldl_max_spec l x) as (Hmem & Hge & Hall). split.
  - destruct Hmem as [-> | Hin]; simpl; auto.
  - intros y [<- | Hin]; [exact Hge | auto].
Qed.

Lemma py_min_spec (l : list Z) :
  l ≠ [] → In (py_min l) l ∧ ∀ y, In y l → py_min l <= y.
Proof.
  destruct l as [| x l]; [congruence |]. intros _. unfold py_min.
  destruct (foldl_min_spec l x) as (Hmem & Hge & Hall). split.
  - destruct Hmem as [-> | Hin]; simpl; auto.
  - intros y [<- | Hin]; [exact Hge | auto].
Qed.

Lemma filter_nonempty (f : Z → bool) (l : list Z) (k : Z) :
  In k l → f k = true → List.filter f l ≠ [].
Proof.
  intros Hin Hf Hnil.
  assert (In k (List.filter f l)) as H by (apply List.filter_In; auto).
  rewrite Hnil in H. destruct H.
Qed.

Lemma filter_empty (f : Z → bool) (l : list Z) :
  List.filter f l = [] → ∀ k, In k l → f k = false.
Proof.
  intros Hnil k Hin. destruct (f k) eqn:Hf; [| reflexivity].
  exfalso. eapply filter_nonempty; eassumption.
Qed.

Lemma code_start_anchor (ti : gmap Z Z) (sf : Z) :
  ti ≠ ∅ → ∃ a, code_start ti sf = Ret a ∧ start_anchor ti sf a.
Proof.
  intros Hne. unfold code_start.
  destruct (List.find _ (sorted_keys ti)) as [k |] eqn:Hfind.
  - destruct (find_at_or_after _ _ _ (sorted_keys_sorted ti) Hfind)
      as (Hin & Hle & Hmin).
    apply sorted_keys_In in Hin.
    destruct (getitem_Some ti k Hin) as (v & Hv & ->).
    exists v. split; [reflexivity |].
    eapply start_at_or_after; [exact Hv | exact Hle |].
    intros k' Hk'. apply Hmin, sorted_keys_In, Hk'.
  - pose proof (find_at_or_after_None _ _ Hfind) as Hnone.
    destruct (sorted_keys_nonempty ti Hne) as [k0 Hk0].
    assert (Hbefore : List.filter (fun k => k <=? sf) (sorted_keys ti) ≠ []).
    { apply (filter_nonempty _ _ k0 Hk0). apply Z.leb_le.
      specialize (Hnone k0 Hk0). lia. }
    destruct (py_max_spec _ Hbefore) as (Hin & Hmax).
    apply List.filter_In in Hin. destruct Hin as [Hin Hle].
    apply Z.leb_le in Hle. apply sorted_keys_In in Hin.
    destruct (getitem_Some ti _ Hin) as (v & Hv & Hget).
    exists v. split.
    + destruct (List.filter (fun k => k <=? sf) (sorted_keys ti)) eqn:E;
        [congruence | exact Hget].
    + eapply start_nearest_before; [| exact Hv | exact Hle |].
      * intros k' Hk'. apply Hnone, sorted_keys_In, Hk'.
      * intros k' Hk' Hle'. apply Hmax, List.filter_In.
        split; [apply sorted_keys_In, Hk' | apply Z.leb_le, Hle'].
Qed.

Lemma code_end_anchor (ti : gmap Z Z) (L ef : Z) :
  ti ≠ ∅ → ∃ b, code_end ti L ef = Ret b ∧ end_anchor ti L ef b.
Proof.
  intros Hne. unfold code_end.
  destruct (List.filter (fun k => k <=? ef) (sorted_keys ti))
    as [| x before] eqn:Hbefore.
  - pose proof (filter_empty _ _ Hbefore) as Hnone.
    destruct (sorted_keys_nonempty ti Hne) as [k0 Hk0].
    assert (Hafter : List.filter (fun k => ef <=? k) (sorted_keys ti) ≠ []).
    { apply (filter_nonempty _ _ k0 Hk0). apply Z.leb_le.
      specialize (Hnone k0 Hk0). simpl in Hnone. apply Z.leb_gt in Hnone. lia. }
    destruct (py_min_spec _ Hafter) as (Hin & Hmin).
    apply List.filter_In in Hin. destruct Hin as [Hin Hle].
    apply Z.leb_le in Hle. apply sorted_keys_In in Hin.
    destruct (getitem_Some ti _ Hin) as (v & Hv & Hget).
    exists v. split.
    + destruct (List.filter (fun k => ef <=? k) (sorted_keys ti)) eqn:E;
        [congruence | exact Hget].
    + eapply end_nearest_after; [| exact Hv | exact Hle |].
      * intros k' Hk' Hle'. apply sorted_keys_In in Hk'.
        specialize (Hnone k' Hk'). simpl in Hnone. apply Z.leb_gt in Hnone. lia.
      * intros k' Hk' Hle'. apply Hmin, List.filter_In.
        split; [apply sorted_keys_In, Hk' | apply Z.leb_le, Hle'].
  - assert (Hne' : x :: before ≠ []) by congruence.
    rewrite <- Hbefore in *.
    destruct (py_max_spec _ Hne') as (Hin & Hmax).
    apply List.filter_In in Hin. destruct Hin as [Hin Hle].
    apply Z.leb_le in Hle. apply sorted_keys_In in Hin.
    destruct (getitem_Some ti _ Hin) as (v & Hv & Hget).
    exists v. split; [exact Hget |].
    eapply end_before_or_at; [exact Hv | exact Hle |].
    intros k' Hk' Hle'. apply Hmax, List.filter_In.
    split; [apply sorted_keys_In, Hk' | apply Z.leb_le, Hle'].
Qed.

Lemma _resolve_time_range_unfold (stc etc : Timecode.t) (p : LawBridgeParser.t) :
  let sw := Timecode.to_frames etc <? Timecode.to_frames stc in
  let sf := if sw then Timecode.to_frames etc else Timecode.to_frames stc in
  let ef := if sw then Timecode.to_frames stc else Timecode.to_frames etc in
  let ti := Document.time_index (doc p) in
  let L := Document.length (doc p) in
  _resolve_time_range stc etc p
  = if decide (ti = ∅) then Ret (0, L) else
      rbind (code_start ti sf) (fun s_pos =>
      rbind (code_end ti L ef) (fun e_pos =>
        if clamp e_pos L <? clamp s_pos L
        then Ret (clamp e_pos L, clamp s_pos L)
        else Ret (clamp s_pos L, clamp e_pos L))).
Proof. reflexivity. Qed.

Lemma start_anchor_unique (ti : gmap Z Z) (sf a a' : Z) :
  start_anchor ti sf a → start_anchor ti sf a' → a = a'.
Proof.
  intros [k v Hv Hle Hmin | k v Hnone Hv Hle Hmax | He]
         [k' v' Hv' Hle' Hmin' | k' v' Hnone' Hv' Hle' Hmax' | He'].
  - assert (k = k') as ->.
    { apply Z.le_antisymm; [apply Hmin | apply Hmin']; eauto. }
    congruence.
  - exfalso. apply (Hnone' k); eauto.
  - subst ti. rewrite lookup_empty in Hv. discriminate.
  - exfalso. apply (Hnone k'); eauto.
  - assert (k = k') as ->.
    { apply Z.le_antisymm; [apply Hmax' | apply Hmax]; eauto. }
    congruence.
  - subst ti. rewrite lookup_empty in Hv. discriminate.
  - subst ti. rewrite lookup_empty in Hv'. discriminate.
  - subst ti. rewrite lookup_empty in Hv'. discriminate.
  - reflexivity.
Qed.

Lemma end_anchor_unique (ti : gmap Z Z) (L ef b b' : Z) :
  end_anchor ti L ef b → end_anchor ti L ef b' → b = b'.
Proof.
  intros [k v Hv Hle Hmax | k v Hnone Hv Hle Hmin | He]
         [k' v' Hv' Hle' Hmax' | k' v' Hnone' Hv' Hle' Hmin' | He'].
  - assert (k = k') as ->.
    { apply Z.le_antisymm; [apply Hmax' | apply Hmax]; eauto. }
    congruence.
  - exfalso. apply (Hnone' k); eauto.
  - subst ti. rewrite lookup_empty in Hv. discriminate.
  - exfalso. apply (Hnone k'); eauto.
  - assert (k = k') as ->.
    { apply Z.le_antisymm; [apply Hmin | apply Hmin']; eauto. }
    congruence.
  - subst ti. rewrite lookup_empty in Hv. discriminate.
  - subst ti. rewrite lookup_empty in Hv'. discriminate.
  - subst ti. rewrite lookup_empty in Hv'. discriminate.
  - reflexivity.
Qed.

(** The resolved range always lies inside the document, in order. *)
Lemma _resolve_time_range_bounds (stc etc : Timecode.t) (p : LawBridgeParser.t) :
  ∃ s e, _resolve_time_range stc etc p = Ret (s, e)
         ∧ 0 <= s <= e ∧ e <= len (Document._chars (doc p)).
Proof.
  rewrite _resolve_time_range_unfold. cbv zeta.
  pose proof (len_nonneg (Document._chars (doc p))) as HL.
  unfold Document.length.
  destruct (decide (Document.time_index (doc p) = ∅)) as [He | Hne].
  - exists 0, (len (Document._chars (doc p))). split; [reflexivity | lia].
  - match goal with |- context [code_start ?ti ?sf] =>
      destruct (code_start_anchor ti sf Hne) as (a & -> & _) end.
    match goal with |- context [code_end ?ti ?L ?ef] =>
      destruct (code_end_anchor ti L ef Hne) as (b & -> & _) end.
    simpl.
    pose proof (clamp_range a _ HL). pose proof (clamp_range b _ HL).
    destruct (Z.ltb_spec (clamp b (len (Document._chars (doc p))))
                         (clamp a (len (Document._chars (doc p)))));
      eexists _, _; (split; [reflexivity | lia]).
Qed.

Lemma _resolve_time_range_doc (stc etc : Timecode.t) (p q : LawBridgeParser.t) :
  doc p = doc q → _resolve_time_range stc etc p = _resolve_time_range stc etc q.
Proof. intros H. unfold _resolve_time_range. rewrite H. reflexivity. Qed.

End RangeResolution.

(** C1. Range resolution for the R command.  On the main document's time
    index and length [L], with the two frame counts swapped first when
    [start_frames > end_frames], [_resolve_time_range] returns (it never
    raises) the pair obtained from the start anchor (the offset stored
    for the smallest key at or after [start_frames], else for the largest
    key at or before it, else [0] on an empty index) and the end anchor
    (the offset stored for the largest key at or before [end_frames],
    else for the smallest key at or after it, else [L] on an empty
    index), both clamped into [0, L] and swapped if the end comes out
    before the start.  That description determines the pair, so the code
    and the description agree everywhere. *)
Theorem resolve_time_range_spec (stc etc : Timecode.t) (p : LawBridgeParser.t) :
  let ti := Document.time_index (doc p) in
  let L := Document.length (doc p) in
  ∃ res,
    _resolve_time_range stc etc p = Ret res
    ∧ resolves_to ti L (Timecode.to_frames stc) (Timecode.to_frames etc) res
    ∧ ∀ res', resolves_to ti L (Timecode.to_frames stc) (Timecode.to_frames etc) res'
              → res' = res.
Proof.
  intros ti L.
  assert (Hcode : ∃ a b,
    start_anchor ti (if Timecode.to_frames etc <? Timecode.to_frames stc
                     then Timecode.to_frames etc else Timecode.to_frames stc) a
    ∧ end_anchor ti L (if Timecode.to_frames etc <? Timecode.to_frames stc
                       then Timecode.to_frames stc else Timecode.to_frames etc) b
    ∧ _resolve_time_range stc etc p
      = Ret (if clamp b L <? clamp a L then (clamp b L, clamp a L)
             else (clamp a L, clamp b L))).
  { rewrite _resolve_time_range_unfold. cbv zeta. fold ti L.
    destruct (decide (ti = ∅)) as [He | Hne].
    - exists 0, L. split; [apply start_index_empty, He |].
      split; [apply end_index_empty, He |].
      pose proof (len_nonneg (Document._chars (doc p))) as HL.
      unfold L, Document.length. rewrite !clamp_id by lia.
      destruct (Z.ltb_spec (len (Document._chars (doc p))) 0); [lia | reflexivity].
    - match goal with |- context [code_start ti ?sf] =>
        destruct (code_start_anchor ti sf Hne) as (a & Ha & Hsa) end.
      match goal with |- context [code_end ti L ?ef] =>
        destruct (code_end_anchor ti L ef Hne) as (b & Hb & Heb) end.
      exists a, b. split; [exact Hsa | split; [exact Heb |]].
      rewrite Ha, Hb. simpl.
      destruct (clamp b L <? clamp a L); reflexivity. }
  destruct Hcode as (a & b & Hsa & Heb & Hres).
  eexists. split; [exact Hres | split].
  - exists a, b. split; [exact Hsa | split; [exact Heb |]].
    cbv zeta. destruct (clamp b L <? clamp a L); reflexivity.
  - intros res' (a' & b' & Hsa' & Heb' & ->).
    rewrite (start_anchor_unique _ _ _ _ Hsa' Hsa).
    rewrite (end_anchor_unique _ _ _ _ _ Heb' Heb).
    cbv zeta. destruct (clamp b L <? clamp a L); reflexivity.
Qed.

(** ** Frames *)

Section Frames.

Lemma frame_inv (cmd : Z) (payload bs : list Z) :
  frame cmd payload = Ret bs →
  ∃ n, cmd_len cmd = Some n ∧ len payload = n
       ∧ bs = STX :: cmd :: payload ++ [ETX].
Proof.
  unfold frame. destruct (cmd_len cmd) as [n |]; [| discriminate].
  destruct (Z.eqb_spec (len payload) n) as [Hn | Hn]; simpl; [| discriminate].
  intros [= <-]. exists n. auto.
Qed.

(** Payload bytes of a recognised command are accumulated, whatever
    their values. *)
Lemma feed_payload (bs rest : list Z) (p : LawBridgeParser.t) (c n : Z) :
  _in_cmd p = true → _current_cmd p = Some c → _expected_len p = Some n →
  len (_frame_buf p) + len bs <= n →
  feed p (bs ++ rest)
  = feed (set_frame (_frame_buf p ++ bs) true (Some n) (Some c) p) rest.
Proof.
  revert p. induction bs as [| b bs IH]; intros p Hin Hc Hn Hlen.
  - simpl. rewrite app_nil_r. destruct p; simpl in *. subst. reflexivity.
  - change (feed p ((b :: bs) ++ rest))
      with (andthen (feed_byte p b) (fun p1 => feed p1 (bs ++ rest))).
    assert (Hb : feed_byte p b
                 = Done (set_frame (_frame_buf p ++ [b]) true (Some n) (Some c) p)).
    { unfold feed_byte. rewrite Hin, Hc, Hn. simpl negb. cbv iota.
      assert (1 <= len (b :: bs)) by (unfold len; simpl; lia).
      destruct (Z.ltb_spec (len (_frame_buf p)) n); [reflexivity | lia]. }
    rewrite Hb. simpl andthen.
    rewrite IH; try reflexivity.
    + simpl. rewrite <- app_assoc. reflexivity.
    + simpl. rewrite len_app. unfold len in *. simpl in *. lia.
Qed.

(** Feeding a well-formed frame outside a frame dispatches its command,
    with the frame-parse fields holding the frame, then leaves the frame. *)
Lemma feed_frame (p : LawBridgeParser.t) (cmd : Z) (payload bs : list Z) :
  _in_cmd p = false → frame cmd payload = Ret bs →
  feed p bs
  = andthen (_dispatch_cmd cmd payload
               (set_frame payload true (cmd_len cmd) (Some cmd) p))
      (fun p1 => Done (_exit_frame p1)).
Proof.
  intros Hin Hf. destruct (frame_inv _ _ _ Hf) as (n & Hn & Hlen & ->).
  change (feed p (STX :: cmd :: payload ++ [ETX]))
    with (andthen (feed_byte p STX) (fun p1 => feed p1 (cmd :: payload ++ [ETX]))).
  assert (H1 : feed_byte p STX = Done (_enter_frame p)).
  { unfold feed_byte. rewrite Hin. reflexivity. }
  rewrite H1. simpl andthen.
  change (feed (_enter_frame p) (cmd :: payload ++ [ETX]))
    with (andthen (feed_byte (_enter_frame p) cmd)
            (fun p1 => feed p1 (payload ++ [ETX]))).
  change (feed_byte (_enter_frame p) cmd)
    with (Done (set_frame [] true (cmd_len cmd) (Some cmd) p)).
  simpl andthen. rewrite Hn.
  rewrite (feed_payload payload [ETX] _ cmd n); try reflexivity.
  - simpl app. simpl feed. unfold feed_byte. simpl.
    destruct (Z.ltb_spec (len payload) n); [lia |].
    destruct (_dispatch_cmd cmd payload _); reflexivity.
  - simpl. unfold len in *. simpl. lia.
Qed.

Lemma len_8_inv (payload : list Z) :
  len payload = 8 →
  ∃ a0 a1 a2 a3 b0 b1 b2 b3, payload = [a0; a1; a2; a3; b0; b1; b2; b3].
Proof.
  unfold len. intros H.
  do 8 (destruct payload as [| ? payload]; [simpl in H; lia |]).
  destruct payload; [| simpl in H; lia].
  eauto 10.
Qed.

End Frames.

(** C5. Nested refresh is rejected atomically.  For every parser already
    in REFRESH (in either mode) with no frame open, feeding a complete R
    frame makes [feed] raise the nested-refresh [RuntimeError]; the parser
    the exception leaves behind has the same main document (characters,
    cursor, time index, latched fields), the same scratch document and
    the same refresh bookkeeping as before: only the frame-parse fields
    differ. *)
Theorem nested_refresh_rejected (p : LawBridgeParser.t) (payload bs : list Z) :
  state p = REFRESH → _in_cmd p = false →
  frame cmd_R payload = Ret bs →
  ∃ q, feed p bs = Raised RuntimeError q
       ∧ doc q = doc p
       ∧ _refresh_buffer q = _refresh_buffer p
       ∧ state q = REFRESH
       ∧ q = set_frame (_frame_buf q) (_in_cmd q) (_expected_len q) (_current_cmd q) p.
Proof.
  intros Hst Hin Hf.
  rewrite (feed_frame p cmd_R payload bs Hin Hf).
  destruct (frame_inv _ _ _ Hf) as (n & Hn & Hlen & _).
  change (cmd_len cmd_R) with (Some 8) in *. injection Hn as <-.
  change (_dispatch_cmd cmd_R payload ?q) with (_on_refresh_begin payload q).
  unfold _on_refresh_begin. rewrite Hlen. simpl negb. cbv iota.
  simpl state. rewrite Hst. simpl.
  eexists. split; [reflexivity |]. simpl. rewrite Hst. auto.
Qed.

(** A parser in REFRESH reached by feeding an R frame to a new parser. *)
Lemma nested_refresh_rejected_witness :
  ∃ q, feed (final (feed (new BUFFER) [2; 82; 0; 0; 0; 0; 0; 0; 1; 0; 3]))
            [2; 82; 0; 0; 0; 0; 0; 0; 1; 0; 3]
       = Raised RuntimeError q
       ∧ doc q = doc (final (feed (new BUFFER) [2; 82; 0; 0; 0; 0; 0; 0; 1; 0; 3])).
Proof.
  destruct (nested_refresh_rejected
              (final (feed (new BUFFER) [2; 82; 0; 0; 0; 0; 0; 0; 1; 0; 3]))
              [0; 0; 0; 0; 0; 0; 1; 0]
              [2; 82; 0; 0; 0; 0; 0; 0; 1; 0; 3])
    as (q & Hq & Hdoc & _); [reflexivity | reflexivity | reflexivity |].
  exists q. split; [exact Hq | exact Hdoc].
Defined.

(** ** Refresh begin and end *)

Section RefreshFrames.

(** What a valid R frame does to a parser in NORMAL, in either mode. *)
Lemma feed_R_frame (p : LawBridgeParser.t) (payload bs : list Z)
    (stc etc : Timecode.t) (s e : Z) :
  state p = NORMAL → _in_cmd p = false →
  frame cmd_R payload = Ret bs →
  Timecode.from_bytes (take 4 payload) = Ret stc →
  Timecode.from_bytes (drop 4 payload) = Ret etc →
  _resolve_time_range stc etc p = Ret (s, e) →
  ∃ q, feed p bs = Done q
       ∧ state q = REFRESH ∧ refresh_mode q = refresh_mode p
       ∧ _in_cmd q = false
       ∧ _refresh_start_pos q = Some s ∧ _refresh_end_pos q = Some e
       ∧ (refresh_mode p = BUFFER →
          doc q = doc p
          ∧ _refresh_buffer q = Some (Document.set_insertion 0 Document.new))
       ∧ (refresh_mode p = STREAM →
          doc q = Document.set_insertion s (Document.delete_range s e (doc p))
          ∧ _refresh_lower_bound q = s).
Proof.
  intros Hst Hin Hf Hstc Hetc Hres.
  rewrite (feed_frame p cmd_R payload bs Hin Hf).
  destruct (frame_inv _ _ _ Hf) as (n & Hn & Hlen & _).
  change (cmd_len cmd_R) with (Some 8) in *. injection Hn as <-.
  change (_dispatch_cmd cmd_R payload ?q) with (_on_refresh_begin payload q).
  unfold _on_refresh_begin. rewrite Hlen. simpl negb. cbv iota.
  simpl state. rewrite Hst. simpl is_refresh. cbv iota.
  rewrite Hstc, Hetc. cbv zeta.
  rewrite (_resolve_time_range_doc stc etc _ p) by reflexivity.
  rewrite Hres. simpl refresh_mode.
  destruct (refresh_mode p) eqn:Hmode; simpl andthen;
    (eexists; split; [reflexivity |]); simpl;
    repeat split; try reflexivity; try exact Hmode; intros; try discriminate.
Qed.

(** What an E frame does to a parser in REFRESH and STREAM mode. *)
Lemma feed_E_frame_stream (p : LawBridgeParser.t) (bs : list Z) :
  state p = REFRESH → refresh_mode p = STREAM → _in_cmd p = false →
  frame cmd_E [] = Ret bs →
  feed p bs
  = Done (_exit_frame
            (reset_refresh
               (set_doc (Document.set_insertion (Document.length (doc p)) (doc p)) p))).
Proof.
  intros Hst Hmode Hin Hf.
  rewrite (feed_frame p cmd_E [] bs Hin Hf).
  change (_dispatch_cmd cmd_E [] ?q) with (_on_refresh_end q).
  unfold _on_refresh_end. simpl state. simpl refresh_mode.
  rewrite Hst, Hmode. reflexivity.
Qed.

(** What an E frame does to a parser in REFRESH and BUFFER mode. *)
Lemma feed_E_frame_buffer (p : LawBridgeParser.t) (bs : list Z)
    (s e : Z) (buf : Document.t) :
  state p = REFRESH → refresh_mode p = BUFFER → _in_cmd p = false →
  _refresh_start_pos p = Some s → _refresh_end_pos p = Some e →
  _refresh_buffer p = Some buf →
  frame cmd_E [] = Ret bs →
  feed p bs
  = Done (_exit_frame
            (reset_refresh
               (set_doc
                  (Document.with_prevent_save (Document.prevent_save buf)
                     (Document.insert_text (Document.text buf)
                        (Document.set_insertion s
                           (Document.delete_range s e (doc p))))) p))).
Proof.
  intros Hst Hmode Hin Hs He Hbuf Hf.
  rewrite (feed_frame p cmd_E [] bs Hin Hf).
  change (_dispatch_cmd cmd_E [] ?q) with (_on_refresh_end q).
  unfold _on_refresh_end.
  simpl state. simpl refresh_mode. simpl _refresh_start_pos.
  simpl _refresh_end_pos. simpl _refresh_buffer.
  rewrite Hst, Hmode, Hs, He, Hbuf. reflexivity.
Qed.

(** Deleting a resolved range and parking the cursor at its start. *)
Lemma delete_range_set_insertion (s e : Z) (d : Document.t) :
  0 <= s <= e → e <= len (Document._chars d) →
  let d' := Document.set_insertion s (Document.delete_range s e d) in
  Document._chars d'
  = take (Z.to_nat s) (Document._chars d) ++ drop (Z.to_nat e) (Document._chars d)
  ∧ Document._insertion d' = s
  ∧ Document.time_index d' = Document.time_index d
  ∧ Document.prevent_save d' = Document.prevent_save d.
Proof.
  intros Hse He d'.
  assert (Hc : Document._chars d'
               = take (Z.to_nat s) (Document._chars d)
                 ++ drop (Z.to_nat e) (Document._chars d)).
  { unfold d', Document.set_insertion. simpl.
    apply delete_range_chars; assumption. }
  split; [exact Hc |]. split; [| split].
  - unfold d', Document.set_insertion. simpl.
    apply clamp_id.
    rewrite delete_range_chars by assumption.
    rewrite len_app, len_take, len_drop by lia. lia.
  - unfold d', Document.set_insertion, Document.delete_range. simpl.
    destruct (_ <? _); reflexivity.
  - unfold d', Document.set_insertion, Document.delete_range. simpl.
    destruct (_ <? _); reflexivity.
Qed.

End RefreshFrames.

(** C3. STREAM-mode refresh.  For a parser in NORMAL and STREAM mode with
    no frame open, a valid R frame whose timecodes resolve to
    [(start_pos, end_pos)] deletes the range [start_pos, end_pos) of the
    main document at once, sets the cursor to [start_pos] and sets the
    lower bound for destructive edits to [start_pos], and the parser is
    then in REFRESH.  For a parser in REFRESH and STREAM mode with no
    frame open, the E frame sets the cursor to the main document's
    current length, leaves its characters alone, and returns the parser
    to NORMAL. *)
Theorem stream_refresh
    (p : LawBridgeParser.t) (payload bs : list Z) (stc etc : Timecode.t)
    (start_pos end_pos : Z) (p' : LawBridgeParser.t) (bs' : list Z) :
  state p = NORMAL → refresh_mode p = STREAM → _in_cmd p = false →
  frame cmd_R payload = Ret bs →
  Timecode.from_bytes (take 4 payload) = Ret stc →
  Timecode.from_bytes (drop 4 payload) = Ret etc →
  _resolve_time_range stc etc p = Ret (start_pos, end_pos) →
  state p' = REFRESH → refresh_mode p' = STREAM → _in_cmd p' = false →
  frame cmd_E [] = Ret bs' →
  (∃ q, feed p bs = Done q
        ∧ Document._chars (doc q)
          = take (Z.to_nat start_pos) (Document._chars (doc p))
            ++ drop (Z.to_nat end_pos) (Document._chars (doc p))
        ∧ Document._insertion (doc q) = start_pos
        ∧ _refresh_lower_bound q = start_pos
        ∧ state q = REFRESH)
  ∧ (∃ q', feed p' bs' = Done q'
        ∧ Document._chars (doc q') = Document._chars (doc p')
        ∧ Document._insertion (doc q') = len (Document._chars (doc p'))
        ∧ state q' = NORMAL).
Proof.
  intros Hst Hmode Hin Hf Hstc Hetc Hres Hst' Hmode' Hin' Hf'. split.
  - destruct (feed_R_frame p payload bs stc etc start_pos end_pos
                Hst Hin Hf Hstc Hetc Hres)
      as (q & Hq & Hstq & _ & _ & _ & _ & _ & Hstream).
    destruct (Hstream Hmode) as [Hdoc Hlb].
    destruct (_resolve_time_range_bounds stc etc p) as (s & e & Hres' & Hse & He).
    rewrite Hres in Hres'. injection Hres' as <- <-.
    destruct (delete_range_set_insertion start_pos end_pos (doc p) Hse He)
      as (Hc & Hi & _).
    exists q. rewrite Hdoc. auto.
  - rewrite (feed_E_frame_stream p' bs' Hst' Hmode' Hin' Hf').
    eexists. split; [reflexivity |]. simpl.
    split; [reflexivity |]. split; [| reflexivity].
    unfold Document.length. apply clamp_id.
    pose proof (len_nonneg (Document._chars (doc p'))). lia.
Qed.

(** The fourth scenario of the protocol description: "AA", T at 0, "BB",
    T at one second, "CC", then R over that second; the document becomes
    "AACC" with the cursor and the lower bound at 2. *)
Lemma stream_refresh_witness :
  let p := final (feed (new STREAM)
             [65; 65; 2; 84; 0; 0; 0; 0; 3; 66; 66; 2; 84; 0; 0; 1; 0; 3; 67; 67]) in
  let p' := final (feed p [2; 82; 0; 0; 0; 0; 0; 0; 1; 0; 3]) in
  (∃ q, feed p [2; 82; 0; 0; 0; 0; 0; 0; 1; 0; 3] = Done q
        ∧ Document._chars (doc q) = [65; 65; 67; 67]
        ∧ Document._insertion (doc q) = 2
        ∧ _refresh_lower_bound q = 2
        ∧ state q = REFRESH)
  ∧ (∃ q', feed p' [2; 69; 3] = Done q'
        ∧ Document._chars (doc q') = [65; 65; 67; 67]
        ∧ Document._insertion (doc q') = 4
        ∧ state q' = NORMAL).
Proof.
  intros p p'.
  apply (stream_refresh p [0; 0; 0; 0; 0; 0; 1; 0] [2; 82; 0; 0; 0; 0; 0; 0; 1; 0; 3]
           (Timecode.mk 0 0 0 0) (Timecode.mk 0 0 1 0) 2 4 p' [2; 69; 3]);
    vm_compute; reflexivity.
Defined.

(** ** Text bytes *)

(** Outside a frame every byte but STX goes to [_insert_text_bytes]. *)
Lemma feed_byte_text (p : LawBridgeParser.t) (b : Z) :
  _in_cmd p = false → b ≠ STX →
  feed_byte p b = _insert_text_bytes [b] p.
Proof.
  intros Hin Hb. unfold feed_byte. rewrite Hin. simpl negb. cbv iota.
  destruct (Z.eqb_spec b STX); [contradiction | reflexivity].
Qed.

(** An ASCII byte is decoded to the character with the same code. *)
Lemma insert_ascii_byte (p : LawBridgeParser.t) (b : Z) (r : docref) (t : Document.t) :
  b < 128 →
  _refresh_target_doc p = Ret r → deref r p = Some t → Document.wf t →
  ∃ q t', _insert_text_bytes [b] p = Done q
          ∧ deref r q = Some t'
          ∧ Document._chars t'
            = take (Z.to_nat (Document._insertion t)) (Document._chars t)
              ++ b :: drop (Z.to_nat (Document._insertion t)) (Document._chars t)
          ∧ Document._insertion t' = Document._insertion t + 1.
Proof.
  intros Hb Hr Ht Hwf. unfold _insert_text_bytes, decode_strict. simpl forallb.
  destruct (Z.ltb_spec b 128) as [_ | Hge]; [| lia]. simpl.
  unfold _refresh_target_doc in Hr.
  assert (Hres : ∀ d, d = Document.insert_text [b] t →
            Document._chars d
            = take (Z.to_nat (Document._insertion t)) (Document._chars t)
              ++ b :: drop (Z.to_nat (Document._insertion t)) (Document._chars t)
            ∧ Document._insertion d = Document._insertion t + 1).
  { intros d ->. rewrite insert_text_chars, insert_text_insertion by exact Hwf.
    split; reflexivity. }
  destruct (state p); [| destruct (refresh_mode p)].
  - injection Hr as <-. simpl in Ht. injection Ht as <-.
    eexists _, _. split; [reflexivity |]. split; [reflexivity |].
    apply Hres. reflexivity.
  - destruct (_refresh_buffer p) as [buf |] eqn:Hbuf; [| discriminate].
    injection Hr as <-. simpl in Ht. rewrite Hbuf in Ht. injection Ht as <-.
    unfold on_target; try rewrite Hbuf.
    eexists _, _. split; [reflexivity |]. split; [reflexivity |].
    apply Hres. reflexivity.
  - injection Hr as <-. simpl in Ht. injection Ht as <-.
    eexists _, _. split; [reflexivity |]. split; [reflexivity |].
    apply Hres. reflexivity.
Qed.

(** C8, as the claim states it, fails: on a new parser, where no frame is
    open, the byte 0x03 is inserted into the document as a character. *)
Lemma etx_outside_frame_counterexample :
  ¬ (∀ p q : LawBridgeParser.t,
       _in_cmd p = false → feed_byte p ETX = Done q →
       document_text q = document_text p).
Proof.
  intros H.
  specialize (H (new BUFFER) (final (feed_byte (new BUFFER) ETX))
                eq_refl eq_refl).
  vm_compute in H. discriminate H.
Qed.

(** C8, amended.  Outside a frame only STX is structural.  For every
    parser with no frame open whose active edit target satisfies the
    cursor invariant, feeding the byte 0x03 (ETX) is handled as a text
    byte: the character with code 3 is inserted at the cursor of the
    active edit target and that cursor advances by one. *)
Theorem etx_outside_frame_is_text
    (p : LawBridgeParser.t) (r : docref) (t : Document.t) :
  _in_cmd p = false →
  _refresh_target_doc p = Ret r → deref r p = Some t → Document.wf t →
  ∃ q t', feed_byte p ETX = Done q
          ∧ deref r q = Some t'
          ∧ Document._chars t'
            = take (Z.to_nat (Document._insertion t)) (Document._chars t)
              ++ ETX :: drop (Z.to_nat (Document._insertion t)) (Document._chars t)
          ∧ Document._insertion t' = Document._insertion t + 1.
Proof.
  intros Hin Hr Ht Hwf.
  rewrite feed_byte_text by (exact Hin || discriminate).
  apply (insert_ascii_byte p ETX r t); [reflexivity | exact Hr | exact Ht | exact Hwf].
Qed.

(** "AB" followed by a stray ETX: the document reads "AB\x03". *)
Lemma etx_outside_frame_is_text_witness :
  ∃ q t', feed_byte (final (feed (new BUFFER) [65; 66])) ETX = Done q
          ∧ deref MainDoc q = Some t'
          ∧ Document._chars t' = [65; 66; 3]
          ∧ Document._insertion t' = 3.
Proof.
  apply (etx_outside_frame_is_text (final (feed (new BUFFER) [65; 66])) MainDoc
           (doc (final (feed (new BUFFER) [65; 66])))).
  - reflexivity.
  - reflexivity.
  - reflexivity.
  - unfold Document.wf. vm_compute. split; discriminate.
Defined.

(** ** Bytes fed during a BUFFER-mode refresh *)

Section BufferedRefresh.

Lemma same_but_prevent_save_refl (d : Document.t) : same_but_prevent_save d d.
Proof. repeat split. Qed.

Lemma buffered_step_refl (keep : bool) (p : LawBridgeParser.t) :
  refresh_mode p = BUFFER → buffered_step keep p p.
Proof.
  intros Hm. repeat split; try assumption.
  intros buf Hbuf. exists buf. auto.
Qed.

Lemma buffered_step_set_buffer (keep : bool) (p : LawBridgeParser.t)
    (buf d : Document.t) :
  refresh_mode p = BUFFER → _refresh_buffer p = Some buf →
  (keep = true → Document.prevent_save d = Document.prevent_save buf) →
  buffered_step keep p (set_buffer (Some d) p).
Proof.
  intros Hm Hbuf Hps. repeat split; try assumption.
  intros buf0 Hbuf0. exists d. split; [reflexivity |].
  rewrite Hbuf in Hbuf0. injection Hbuf0 as <-. exact Hps.
Qed.

Lemma on_target_scratch f (p q : LawBridgeParser.t) :
  on_target ScratchDoc f p = Done q →
  ∃ buf d, _refresh_buffer p = Some buf ∧ f buf = Ret d
           ∧ q = set_buffer (Some d) p.
Proof.
  unfold on_target. destruct (_refresh_buffer p) as [buf |]; [| discriminate].
  destruct (f buf) as [d | e] eqn:Hf; [| discriminate].
  intros [= <-]. eauto.
Qed.

Lemma in_target_buffer f (p q : LawBridgeParser.t) :
  state p = REFRESH → refresh_mode p = BUFFER →
  in_target f p = Done q →
  ∃ buf d, _refresh_buffer p = Some buf ∧ f buf = Ret d
           ∧ q = set_buffer (Some d) p.
Proof.
  intros Hst Hm. unfold in_target, _refresh_target_doc. rewrite Hst, Hm.
  destruct (_refresh_buffer p) as [buf |] eqn:Hbuf; [| discriminate].
  intros H. destruct (on_target_scratch f p q H) as (buf' & d & Hb' & Hf & ->).
  rewrite Hbuf in Hb'. injection Hb' as <-. eauto.
Qed.

Lemma insert_text_prevent_save (s : list Z) (d : Document.t) :
  Document.prevent_save (Document.insert_text s d) = Document.prevent_save d.
Proof. destruct s; reflexivity. Qed.

Lemma delete_backspace_prevent_save (lb : Z) (d d' : Document.t) :
  Document.delete_backspace lb d = Ret d' →
  Document.prevent_save d' = Document.prevent_save d.
Proof.
  unfold Document.delete_backspace.
  destruct (_ && _); [| intros [= <-]; reflexivity].
  destruct (py_del_item _ _); simpl; [| discriminate].
  intros [= <-]. reflexivity.
Qed.

Lemma on_line_prevent_save (payload : list Z) (d d' : Document.t) :
  Document.on_line payload d = Ret d' →
  Document.prevent_save d' = Document.prevent_save d.
Proof. destruct payload; simpl; [discriminate |]. intros [= <-]. reflexivity. Qed.

Lemma on_format_prevent_save (payload : list Z) (d d' : Document.t) :
  Document.on_format payload d = Ret d' →
  Document.prevent_save d' = Document.prevent_save d.
Proof. destruct payload; simpl; [discriminate |]. intros [= <-]. reflexivity. Qed.

(** A handler that writes to the scratch document only. *)
Lemma buffered_step_in_target (keep : bool) f (p q : LawBridgeParser.t) :
  state p = REFRESH → refresh_mode p = BUFFER →
  (∀ d d', f d = Ret d' → Document.prevent_save d' = Document.prevent_save d) →
  in_target f p = Done q → buffered_step keep p q.
Proof.
  intros Hst Hm Hf H.
  destruct (in_target_buffer f p q Hst Hm H) as (buf & d & Hbuf & Hfd & ->).
  apply (buffered_step_set_buffer keep p buf d Hm Hbuf).
  intros _. apply Hf, Hfd.
Qed.

Lemma buffered_step_dispatch (cmd : Z) (payload : list Z) (p q : LawBridgeParser.t) :
  state p = REFRESH → refresh_mode p = BUFFER →
  _dispatch_cmd cmd payload p = Done q → state q = REFRESH →
  buffered_step (negb (cmd =? cmd_K)) p q.
Proof.
  intros Hst Hm. unfold _dispatch_cmd.
  destruct (Z.eqb_spec cmd cmd_P) as [-> | _].
  { intros H _. revert H. apply buffered_step_in_target; try assumption.
    intros d d' [= <-]. reflexivity. }
  destruct (Z.eqb_spec cmd cmd_N) as [-> | _].
  { intros H _. revert H. apply buffered_step_in_target; try assumption.
    apply on_line_prevent_save. }
  destruct (Z.eqb_spec cmd cmd_F) as [-> | _].
  { intros H _. revert H. apply buffered_step_in_target; try assumption.
    apply on_format_prevent_save. }
  destruct (Z.eqb_spec cmd cmd_T) as [-> | _].
  { unfold _on_timecode. destruct (Timecode.from_bytes payload); [| discriminate].
    intros H _. revert H. apply buffered_step_in_target; try assumption.
    intros d d' [= <-]. reflexivity. }
  destruct (Z.eqb_spec cmd cmd_D) as [-> | _].
  { unfold _on_delete. rewrite Hst, Hm. intros H _.
    destruct (on_target_scratch _ p q H) as (buf & d & Hbuf & Hfd & ->).
    apply (buffered_step_set_buffer _ p buf d Hm Hbuf).
    intros _. eapply delete_backspace_prevent_save, Hfd. }
  destruct (Z.eqb_spec cmd cmd_K) as [-> | _].
  { unfold _on_prevent_save, _refresh_target_doc. rewrite Hst, Hm.
    destruct (_refresh_buffer p) as [buf |] eqn:Hbuf; [| discriminate].
    unfold on_target. rewrite Hbuf. simpl.
    intros [= <-] _. repeat split; try assumption.
    simpl. intros buf0 _. eexists. split; [reflexivity | discriminate]. }
  destruct (Z.eqb_spec cmd cmd_R) as [-> | _].
  { unfold _on_refresh_begin. destruct (negb _); [discriminate |].
    rewrite Hst. discriminate. }
  destruct (Z.eqb_spec cmd cmd_E) as [-> | _].
  { unfold _on_refresh_end. rewrite Hst, Hm.
    destruct (_refresh_start_pos p); [| discriminate].
    destruct (_refresh_end_pos p); [| discriminate].
    destruct (_refresh_buffer p); [| discriminate].
    intros [= <-]. simpl. discriminate. }
  unfold _handle_unknown. intros [= <-] _. apply buffered_step_refl, Hm.
Qed.

(** One byte of a BUFFER-mode refresh that leaves the parser in REFRESH. *)
Lemma buffered_step_feed_byte (p q : LawBridgeParser.t) (b : Z) :
  state p = REFRESH → refresh_mode p = BUFFER →
  feed_byte p b = Done q → state q = REFRESH →
  buffered_step (negb (dispatches cmd_K p b)) p q.
Proof.
  intros Hst Hm. unfold feed_byte, dispatches.
  destruct (_in_cmd p) eqn:Hin; simpl negb at 1; cbv iota.
  - destruct (_current_cmd p) as [cmd |] eqn:Hcmd.
    + destruct (_expected_len p) as [n |] eqn:Hn.
      * destruct (len (_frame_buf p) <? n) eqn:Hlt.
        { intros [= <-] _. rewrite andb_false_r. simpl.
          apply (buffered_step_refl true p Hm). }
        destruct (Z.eqb_spec b ETX) as [-> | Hb]; simpl negb at 1; cbv iota;
          [| discriminate].
        destruct (_dispatch_cmd cmd (_frame_buf p) p) as [q0 | e q0] eqn:Hd;
          simpl andthen; [| discriminate].
        intros [= <-] Hq.
        pose proof (buffered_step_dispatch cmd (_frame_buf p) p q0 Hst Hm Hd Hq) as H.
        simpl. destruct (cmd =? cmd_K); exact H.
      * destruct (b =? ETX); intros [= <-] _;
          apply (buffered_step_refl true p Hm).
    + intros [= <-] _. apply (buffered_step_refl true p Hm).
  - destruct (b =? STX).
    + intros [= <-] _. apply (buffered_step_refl true p Hm).
    + unfold _insert_text_bytes. rewrite Hst, Hm. intros H _.
      destruct (on_target_scratch _ p q H) as (buf & d & Hbuf & [= <-] & ->).
      apply (buffered_step_set_buffer _ p buf _ Hm Hbuf).
      intros _. apply insert_text_prevent_save.
Qed.

End BufferedRefresh.

Section BufferedRun.

Lemma same_but_prevent_save_trans (d1 d2 d3 : Document.t) :
  same_but_prevent_save d1 d2 → same_but_prevent_save d2 d3 →
  same_but_prevent_save d1 d3.
Proof.
  unfold same_but_prevent_save.
  intros (A1 & A2 & A3 & A4 & A5 & A6) (B1 & B2 & B3 & B4 & B5 & B6).
  repeat split; congruence.
Qed.

Lemma buffered_step_trans (k1 k2 : bool) (p q r : LawBridgeParser.t) :
  buffered_step k1 p q → buffered_step k2 q r → buffered_step (k1 && k2) p r.
Proof.
  intros (A1 & A2 & A3 & A4 & A5) (B1 & B2 & B3 & B4 & B5).
  split; [exact B1 |]. split; [congruence |]. split; [congruence |].
  split; [eapply same_but_prevent_save_trans; eassumption |].
  intros buf Hbuf. destruct (A5 buf Hbuf) as (buf1 & Hbuf1 & Hk1).
  destruct (B5 buf1 Hbuf1) as (buf2 & Hbuf2 & Hk2).
  exists buf2. split; [exact Hbuf2 |].
  intros Hk. apply andb_true_iff in Hk. destruct Hk as [Hk1' Hk2'].
  rewrite (Hk2 Hk2'). apply Hk1, Hk1'.
Qed.

(** A run of bytes that stays in REFRESH, in BUFFER mode. *)
Lemma buffered_run (data : list Z) (p : LawBridgeParser.t) :
  state p = REFRESH → refresh_mode p = BUFFER →
  stays_in_refresh p data = true →
  ∃ q, feed p data = Done q ∧ state q = REFRESH
       ∧ buffered_step (no_dispatch_of cmd_K p data) p q.
Proof.
  revert p. induction data as [| b rest IH]; intros p Hst Hm Hstay.
  - exists p. split; [reflexivity |]. split; [exact Hst |].
    apply buffered_step_refl, Hm.
  - simpl in Hstay. simpl feed. simpl no_dispatch_of.
    destruct (feed_byte p b) as [q1 | e q1] eqn:Hb; [| discriminate].
    apply andb_true_iff in Hstay. destruct Hstay as [Hq1 Hrest].
    assert (Hst1 : state q1 = REFRESH) by (destruct (state q1); [discriminate | reflexivity]).
    pose proof (buffered_step_feed_byte p q1 b Hst Hm Hb Hst1) as Hstep.
    destruct Hstep as (Hm1 & Hstep').
    destruct (IH q1 Hst1 Hm1 Hrest) as (q & Hq & Hstq & Hrun).
    exists q. simpl andthen. split; [exact Hq |]. split; [exact Hstq |].
    eapply buffered_step_trans; [| exact Hrun].
    split; [exact Hm1 | exact Hstep'].
Qed.

(** A whole BUFFER-mode refresh: R, bytes that stay in REFRESH, E. *)
Lemma buffered_refresh (p : LawBridgeParser.t) (payload bs : list Z)
    (stc etc : Timecode.t) (s e : Z) (data ebs : list Z) :
  state p = NORMAL → refresh_mode p = BUFFER → _in_cmd p = false →
  frame cmd_R payload = Ret bs →
  Timecode.from_bytes (take 4 payload) = Ret stc →
  Timecode.from_bytes (drop 4 payload) = Ret etc →
  _resolve_time_range stc etc p = Ret (s, e) →
  frame cmd_E [] = Ret ebs →
  stays_in_refresh (final (feed p bs)) data = true →
  _in_cmd (final (feed (final (feed p bs)) data)) = false →
  ∃ p1 p2 buf q,
    feed p bs = Done p1 ∧ feed p1 data = Done p2
    ∧ _refresh_buffer p2 = Some buf
    ∧ (no_dispatch_of cmd_K p1 data = true → Document.prevent_save buf = false)
    ∧ feed p2 ebs = Done q
    ∧ state q = NORMAL
    ∧ Document._chars (doc q)
      = take (Z.to_nat s) (Document._chars (doc p)) ++ Document.text buf
        ++ drop (Z.to_nat e) (Document._chars (doc p))
    ∧ Document.prevent_save (doc q) = Document.prevent_save buf.
Proof.
  intros Hst Hm Hin Hf Hstc Hetc Hres Hfe Hstay Hin2.
  destruct (feed_R_frame p payload bs stc etc s e Hst Hin Hf Hstc Hetc Hres)
    as (p1 & Hp1 & Hst1 & Hm1 & Hin1 & Hs1 & He1 & Hbuffer & _).
  rewrite Hm in Hm1. destruct (Hbuffer Hm) as [Hdoc1 Hbuf1].
  rewrite Hp1 in Hstay, Hin2. simpl final in Hstay, Hin2.
  destruct (buffered_run data p1 Hst1 Hm1 Hstay)
    as (p2 & Hp2 & Hst2 & Hm2 & Hs2 & He2 & Hsame & Hbuf2).
  rewrite Hp2 in Hin2. simpl final in Hin2.
  destruct (Hbuf2 _ Hbuf1) as (buf & Hbuf & Hkeep).
  rewrite Hs1 in Hs2. rewrite He1 in He2.
  exists p1, p2, buf. eexists.
  split; [exact Hp1 |]. split; [exact Hp2 |]. split; [exact Hbuf |].
  split; [intros Hk; rewrite (Hkeep Hk); reflexivity |].
  split; [apply (feed_E_frame_buffer p2 ebs s e buf); assumption |].
  split; [reflexivity |].
  destruct Hsame as (Hchars & _).
  rewrite Hdoc1 in Hchars.
  destruct (_resolve_time_range_bounds stc etc p) as (s' & e' & Hres' & Hse & Hel).
  rewrite Hres in Hres'. injection Hres' as <- <-.
  rewrite <- Hchars in Hel.
  destruct (delete_range_set_insertion s e (doc p2) Hse Hel) as (Hc & Hi & _).
  split; [| reflexivity].
  simpl. rewrite insert_text_chars.
  - rewrite Hc, Hi, Hchars.
    assert (Hlen : List.length (take (Z.to_nat s) (Document._chars (doc p)))
                   = Z.to_nat s).
    { rewrite length_take. rewrite Hchars in Hel. unfold len in Hel. lia. }
    rewrite take_app_length', drop_app_length' by (symmetry; exact Hlen).
    reflexivity.
  - apply wf_set_insertion.
Qed.

End BufferedRun.

Section BufferedMainDocument.

(** A handler that returns during a BUFFER-mode refresh and leaves the
    parser in REFRESH: the K handler sets the main document's flag, no
    other handler touches the main document. *)
Lemma buffered_doc_dispatch (cmd : Z) (payload : list Z) (p q : LawBridgeParser.t) :
  state p = REFRESH → refresh_mode p = BUFFER →
  _dispatch_cmd cmd payload p = Done q → state q = REFRESH →
  doc q = if cmd =? cmd_K then Document.with_prevent_save true (doc p) else doc p.
Proof.
  intros Hst Hm. unfold _dispatch_cmd.
  destruct (Z.eqb_spec cmd cmd_P) as [-> | _].
  { intros H _. destruct (in_target_buffer _ p q Hst Hm H) as (buf & d & _ & _ & ->).
    reflexivity. }
  destruct (Z.eqb_spec cmd cmd_N) as [-> | _].
  { intros H _. destruct (in_target_buffer _ p q Hst Hm H) as (buf & d & _ & _ & ->).
    reflexivity. }
  destruct (Z.eqb_spec cmd cmd_F) as [-> | _].
  { intros H _. destruct (in_target_buffer _ p q Hst Hm H) as (buf & d & _ & _ & ->).
    reflexivity. }
  destruct (Z.eqb_spec cmd cmd_T) as [-> | _].
  { unfold _on_timecode. destruct (Timecode.from_bytes payload); [| discriminate].
    intros H _. destruct (in_target_buffer _ p q Hst Hm H) as (buf & d & _ & _ & ->).
    reflexivity. }
  destruct (Z.eqb_spec cmd cmd_D) as [-> | _].
  { unfold _on_delete. rewrite Hst, Hm. intros H _.
    destruct (on_target_scratch _ p q H) as (buf & d & _ & _ & ->). reflexivity. }
  destruct (Z.eqb_spec cmd cmd_K) as [-> | _].
  { unfold _on_prevent_save, _refresh_target_doc. rewrite Hst, Hm.
    destruct (_refresh_buffer p) as [buf |] eqn:Hbuf; [| discriminate].
    unfold on_target. rewrite Hbuf. simpl. intros [= <-] _. reflexivity. }
  destruct (Z.eqb_spec cmd cmd_R) as [-> | _].
  { unfold _on_refresh_begin. destruct (negb _); [discriminate |].
    rewrite Hst. discriminate. }
  destruct (Z.eqb_spec cmd cmd_E) as [-> | _].
  { unfold _on_refresh_end. rewrite Hst, Hm.
    destruct (_refresh_start_pos p); [| discriminate].
    destruct (_refresh_end_pos p); [| discriminate].
    destruct (_refresh_buffer p); [| discriminate].
    intros [= <-]. simpl. discriminate. }
  unfold _handle_unknown. intros [= <-] _. reflexivity.
Qed.

(** One byte of a BUFFER-mode refresh, seen from the main document. *)
Lemma buffered_doc_feed_byte (p q : LawBridgeParser.t) (b : Z) :
  state p = REFRESH → refresh_mode p = BUFFER →
  feed_byte p b = Done q → state q = REFRESH →
  doc q = if dispatches cmd_K p b
          then Document.with_prevent_save true (doc p) else doc p.
Proof.
  intros Hst Hm. unfold feed_byte, dispatches.
  destruct (_in_cmd p) eqn:Hin; simpl negb at 1; cbv iota.
  - destruct (_current_cmd p) as [cmd |] eqn:Hcmd.
    + destruct (_expected_len p) as [n |] eqn:Hn.
      * destruct (len (_frame_buf p) <? n) eqn:Hlt.
        { intros [= <-] _. rewrite andb_false_r. reflexivity. }
        destruct (Z.eqb_spec b ETX) as [-> | Hb]; simpl negb at 1; cbv iota;
          [| discriminate].
        destruct (_dispatch_cmd cmd (_frame_buf p) p) as [q0 | e q0] eqn:Hd;
          simpl andthen; [| discriminate].
        intros [= <-] Hq.
        change (doc (_exit_frame q0)) with (doc q0).
        rewrite (buffered_doc_dispatch cmd (_frame_buf p) p q0 Hst Hm Hd Hq).
        simpl. destruct (cmd =? cmd_K); reflexivity.
      * destruct (b =? ETX); intros [= <-] _; reflexivity.
    + intros [= <-] _. reflexivity.
  - destruct (b =? STX).
    + intros [= <-] _. reflexivity.
    + unfold _insert_text_bytes. rewrite Hst, Hm. intros H _.
      destruct (on_target_scratch _ p q H) as (buf & d & _ & _ & ->). reflexivity.
Qed.

End BufferedMainDocument.

(** C10. The frame property of a BUFFER-mode refresh.  For every byte fed
    to a parser in REFRESH and BUFFER mode that raises nothing and leaves
    the parser in REFRESH (every byte after the R and before the byte
    that completes the matching E), the main document keeps its
    characters, its cursor, its time index and its latched page, line and
    format.  Of the main document only [prevent_save] can change, and
    only through the K mirror: the flag after the byte is [true] when
    the byte closes a K frame and is the flag before the byte otherwise,
    so a byte that closes no K frame leaves the whole main document as
    it was.  The change does occur: the ETX of a K frame turns a
    [false] flag into [true]. *)
Theorem buffer_refresh_leaves_main_document
    (p q : LawBridgeParser.t) (b : Z) :
  state p = REFRESH → refresh_mode p = BUFFER →
  feed_byte p b = Done q → state q = REFRESH →
  (Document._chars (doc q) = Document._chars (doc p)
   ∧ Document._insertion (doc q) = Document._insertion (doc p)
   ∧ Document.time_index (doc q) = Document.time_index (doc p)
   ∧ Document.current_page (doc q) = Document.current_page (doc p)
   ∧ Document.current_line (doc q) = Document.current_line (doc p)
   ∧ Document.current_format (doc q) = Document.current_format (doc p))
  ∧ Document.prevent_save (doc q)
    = dispatches cmd_K p b || Document.prevent_save (doc p)
  ∧ (dispatches cmd_K p b = false → doc q = doc p)
  ∧ (∃ p0 q0 b0,
       state p0 = REFRESH ∧ refresh_mode p0 = BUFFER
       ∧ feed_byte p0 b0 = Done q0 ∧ state q0 = REFRESH
       ∧ dispatches cmd_K p0 b0 = true
       ∧ Document.prevent_save (doc p0) = false
       ∧ Document.prevent_save (doc q0) = true).
Proof.
  intros Hst Hm Hb Hq.
  pose proof (buffered_doc_feed_byte p q b Hst Hm Hb Hq) as Hdoc.
  split; [| split; [| split]].
  - rewrite Hdoc. destruct (dispatches cmd_K p b); repeat split.
  - rewrite Hdoc. destruct (dispatches cmd_K p b); reflexivity.
  - intros Hk. rewrite Hdoc, Hk. reflexivity.
  - exists (final (feed (new BUFFER) [2; 82; 0; 0; 0; 0; 0; 0; 1; 0; 3; 2; 75])).
    eexists. exists ETX.
    split; [reflexivity |]. split; [reflexivity |].
    split; [vm_compute; reflexivity |].
    repeat split.
Qed.

(** The letter "X" typed during a refresh of "AB": no K frame is closed,
    and the main document stays as it is. *)
Lemma buffer_refresh_leaves_main_document_witness :
  let p := final (feed (new BUFFER) [65; 66; 2; 82; 0; 0; 0; 0; 0; 0; 1; 0; 3]) in
  let q := final (feed_byte p 88) in
  (Document._chars (doc q) = Document._chars (doc p)
   ∧ Document._insertion (doc q) = Document._insertion (doc p)
   ∧ Document.time_index (doc q) = Document.time_index (doc p)
   ∧ Document.current_page (doc q) = Document.current_page (doc p)
   ∧ Document.current_line (doc q) = Document.current_line (doc p)
   ∧ Document.current_format (doc q) = Document.current_format (doc p))
  ∧ Document.prevent_save (doc q)
    = dispatches cmd_K p 88 || Document.prevent_save (doc p)
  ∧ (dispatches cmd_K p 88 = false → doc q = doc p)
  ∧ (∃ p0 q0 b0,
       state p0 = REFRESH ∧ refresh_mode p0 = BUFFER
       ∧ feed_byte p0 b0 = Done q0 ∧ state q0 = REFRESH
       ∧ dispatches cmd_K p0 b0 = true
       ∧ Document.prevent_save (doc p0) = false
       ∧ Document.prevent_save (doc q0) = true).
Proof.
  intros p q.
  apply (buffer_refresh_leaves_main_document p q 88); vm_compute; reflexivity.
Defined.

(** ** Prevent-save *)

Section PreventSave.

(** What a K frame does to a parser in REFRESH. *)
Lemma feed_K_frame_refresh (p : LawBridgeParser.t) (bs : list Z)
    (r : docref) (t : Document.t) :
  state p = REFRESH → _in_cmd p = false →
  _refresh_target_doc p = Ret r → deref r p = Some t →
  frame cmd_K [] = Ret bs →
  ∃ q, feed p bs = Done q
       ∧ deref r q = Some (Document.with_prevent_save true t)
       ∧ doc q = Document.with_prevent_save true (doc p).
Proof.
  intros Hst Hin Hr Ht Hf.
  rewrite (feed_frame p cmd_K [] bs Hin Hf).
  change (_dispatch_cmd cmd_K [] ?q) with (_on_prevent_save q).
  unfold _on_prevent_save. simpl state. rewrite Hst.
  change (_refresh_target_doc (set_frame ?a ?b ?c ?d p))
    with (_refresh_target_doc p).
  rewrite Hr. destruct r; simpl in Ht.
  - injection Ht as <-. simpl. eexists. split; [reflexivity |].
    split; reflexivity.
  - unfold on_target. simpl _refresh_buffer. rewrite Ht. simpl.
    eexists. split; [reflexivity |]. split; reflexivity.
Qed.

End PreventSave.

(** C9. Prevent-save semantics.  (a) A K frame received in REFRESH sets
    [prevent_save] on the active edit target and at once mirrors the
    value, [true], onto the main document.  (b) At the E of a
    BUFFER-mode refresh the main document's flag becomes the scratch
    document's flag, whatever the main flag was: an assignment, not a
    logical or.  (c) Hence, after a whole BUFFER-mode refresh during
    which no K frame was completed, the main document's flag is [false],
    also when it was [true] before the R. *)
Theorem prevent_save_semantics
    (pa : LawBridgeParser.t) (kbs : list Z) (r : docref) (t : Document.t)
    (pb : LawBridgeParser.t) (sb eb : Z) (buf : Document.t)
    (pc : LawBridgeParser.t) (payload bs data ebs : list Z) :
  (* (a) *)
  state pa = REFRESH → _in_cmd pa = false →
  _refresh_target_doc pa = Ret r → deref r pa = Some t →
  frame cmd_K [] = Ret kbs →
  (* (b) *)
  state pb = REFRESH → refresh_mode pb = BUFFER → _in_cmd pb = false →
  _refresh_start_pos pb = Some sb → _refresh_end_pos pb = Some eb →
  _refresh_buffer pb = Some buf →
  (* (c) *)
  state pc = NORMAL → refresh_mode pc = BUFFER → _in_cmd pc = false →
  frame cmd_R payload = Ret bs → frame cmd_E [] = Ret ebs →
  stays_in_refresh (final (feed pc bs)) data = true →
  no_dispatch_of cmd_K (final (feed pc bs)) data = true →
  _in_cmd (final (feed (final (feed pc bs)) data)) = false →
  (∃ q t', feed pa kbs = Done q
           ∧ deref r q = Some t'
           ∧ Document.prevent_save t' = true
           ∧ Document.prevent_save (doc q) = true)
  ∧ (∃ q, feed pb ebs = Done q
          ∧ Document.prevent_save (doc q) = Document.prevent_save buf)
  ∧ (∃ q, feed pc (bs ++ data ++ ebs) = Done q
          ∧ Document.prevent_save (doc q) = false).
Proof.
  intros Hsta Hina Hr Ht Hfk Hstb Hmb Hinb Hsb Heb Hbuf
         Hstc Hmc Hinc Hfr Hfe Hstay Hnok Hin2.
  split; [| split].
  - destruct (feed_K_frame_refresh pa kbs r t Hsta Hina Hr Ht Hfk)
      as (q & Hq & Hdr & Hdoc).
    exists q, (Document.with_prevent_save true t).
    rewrite Hdoc. auto.
  - rewrite (feed_E_frame_buffer pb ebs sb eb buf Hstb Hmb Hinb Hsb Heb Hbuf Hfe).
    eexists. split; reflexivity.
  - destruct (frame_inv _ _ _ Hfr) as (n & Hn & Hlen & _).
    change (cmd_len cmd_R) with (Some 8) in Hn. injection Hn as <-.
    destruct (len_8_inv payload Hlen)
      as (a0 & a1 & a2 & a3 & b0 & b1 & b2 & b3 & ->).
    destruct (_resolve_time_range_bounds
                (Timecode.mk a0 a1 a2 a3) (Timecode.mk b0 b1 b2 b3) pc)
      as (s & e & Hres & _).
    destruct (buffered_refresh pc _ bs _ _ s e data ebs
                Hstc Hmc Hinc Hfr eq_refl eq_refl Hres Hfe Hstay Hin2)
      as (p1 & p2 & scratch & q & Hp1 & Hp2 & _ & Hkeep & Hq & _ & _ & Hps).
    exists q. split.
    + rewrite feed_app, Hp1. simpl andthen. rewrite feed_app, Hp2. exact Hq.
    + rewrite Hps. apply Hkeep. rewrite Hp1 in Hnok. exact Hnok.
Qed.

(** (a) and (b): a parser inside a BUFFER-mode refresh; (c): a parser
    whose flag was set by a K before the refresh, refreshed with "X". *)
Lemma prevent_save_semantics_witness :
  let pa := final (feed (new BUFFER) [2; 82; 0; 0; 0; 0; 0; 0; 1; 0; 3]) in
  let pc := final (feed (new BUFFER) [65; 2; 75; 3]) in
  Document.prevent_save (doc pc) = true
  ∧ (∃ q t', feed pa [2; 75; 3] = Done q
             ∧ deref ScratchDoc q = Some t'
             ∧ Document.prevent_save t' = true
             ∧ Document.prevent_save (doc q) = true)
  ∧ (∃ q, feed pa [2; 69; 3] = Done q
          ∧ Document.prevent_save (doc q) = false)
  ∧ (∃ q, feed pc ([2; 82; 0; 0; 0; 0; 0; 0; 1; 0; 3] ++ [88] ++ [2; 69; 3]) = Done q
          ∧ Document.prevent_save (doc q) = false).
Proof.
  intros pa pc. split; [vm_compute; reflexivity |].
  apply (prevent_save_semantics
           pa [2; 75; 3] ScratchDoc (Document.set_insertion 0 Document.new)
           pa 0 0 (Document.set_insertion 0 Document.new)
           pc [0; 0; 0; 0; 0; 0; 1; 0] [2; 82; 0; 0; 0; 0; 0; 0; 1; 0; 3]
           [88] [2; 69; 3]);
    vm_compute; reflexivity.
Defined.

(** ** The scenarios of the protocol description *)

Section Scenarios.

Example frame_T_1s : frame cmd_T (tc_bytes 0 0 1 0) = Ret T_1s.
Proof. reflexivity. Qed.

Example frame_R_0s_1s :
  frame cmd_R (tc_bytes 0 0 0 0 ++ tc_bytes 0 0 1 0) = Ret R_0s_1s.
Proof. reflexivity. Qed.

Example scenario_plain_text :
  let p := final (feed (new BUFFER) [72; 69; 76; 76; 79]) in
  document_text p = [72; 69; 76; 76; 79]
  ∧ Document.get_insertion (doc p) = 5.
Proof. vm_compute. split; reflexivity. Qed.

Example scenario_timecode_indexing :
  let p := final (feed (new BUFFER) ([65; 66] ++ T_1s ++ [67; 68])) in
  document_text p = [65; 66; 67; 68]
  ∧ Document.time_index (doc p) !! 30 = Some 2.
Proof. vm_compute. split; reflexivity. Qed.

Example scenario_buffered_refresh :
  feed (new BUFFER)
    ([65; 65] ++ T_0s ++ [66; 66] ++ T_1s ++ [67; 67] ++ R_0s_1s
     ++ [88; 89; 90] ++ E_)
  = Done (final (feed (new BUFFER)
            ([65; 65] ++ T_0s ++ [66; 66] ++ T_1s ++ [67; 67] ++ R_0s_1s
             ++ [88; 89; 90] ++ E_)))
  ∧ document_text
      (final (feed (new BUFFER)
         ([65; 65] ++ T_0s ++ [66; 66] ++ T_1s ++ [67; 67] ++ R_0s_1s
          ++ [88; 89; 90] ++ E_)))
    = [65; 65; 88; 89; 90; 67; 67].
Proof. vm_compute. split; reflexivity. Qed.

Example scenario_streaming_refresh :
  let p := final (feed (new STREAM)
             ([65; 65] ++ T_0s ++ [66; 66] ++ T_1s ++ [67; 67] ++ R_0s_1s)) in
  let p1 := final (feed p D_) in
  let p2 := final (feed p1 [88]) in
  let p3 := final (feed p2 E_) in
  (document_text p = [65; 65; 67; 67]
   ∧ Document.get_insertion (doc p) = 2 ∧ _refresh_lower_bound p = 2)
  ∧ document_text p1 = [65; 65; 67; 67]
  ∧ document_text p2 = [65; 65; 88; 67; 67]
  ∧ Document.get_insertion (doc p3) = 5.
Proof. vm_compute. repeat split; reflexivity. Qed.

Example scenario_unknown_command :
  document_text (final (feed (new BUFFER) [2; 90; 16; 16; 3; 72; 73])) = [72; 73].
Proof. vm_compute. reflexivity. Qed.

Example scenario_non_ascii_byte :
  document_text (final (feed (new BUFFER) [72; 200; 73])) = [72; 65533; 73].
Proof. vm_compute. reflexivity. Qed.

Example scenario_malformed_frame :
  ∃ q, feed (new BUFFER) [65; 2; 68; 66] = Raised ValueError q
       ∧ document_text q = [65] ∧ _in_cmd q = true.
Proof. eexists. vm_compute. repeat split; reflexivity. Qed.

End Scenarios.

(** * Further properties of the code *)

(** ** Timecodes and the byte builders *)

Section TimecodeFacts.

(** X1. On timecodes whose minutes, seconds and frames lie in their
    wall-clock ranges, [to_frames] is strictly monotone for the generated
    ordering of the dataclass and it is injective: two such timecodes
    are ordered as their frame counts are, and equal frame counts mean
    equal timecodes. *)
Theorem to_frames_order (a b : Timecode.t) :
  Timecode.in_range a → Timecode.in_range b →
  (Timecode.lt a b = true ↔ Timecode.to_frames a < Timecode.to_frames b)
  ∧ (Timecode.to_frames a = Timecode.to_frames b → a = b).
Proof.
  destruct a as [h1 m1 s1 f1], b as [h2 m2 s2 f2].
  unfold Timecode.in_range, Timecode.lt, Timecode.to_frames. simpl.
  intros (Hm1 & Hs1 & Hf1) (Hm2 & Hs2 & Hf2). split.
  - destruct (Z.eqb_spec h1 h2) as [-> | Hh]; simpl.
    + destruct (Z.eqb_spec m1 m2) as [-> | Hm]; simpl.
      * destruct (Z.eqb_spec s1 s2) as [-> | Hs]; simpl.
        -- rewrite Z.ltb_lt. lia.
        -- rewrite Z.ltb_lt. lia.
      * rewrite Z.ltb_lt. lia.
    + rewrite Z.ltb_lt. lia.
  - intros H.
    assert (h1 = h2) as -> by lia.
    assert (m1 = m2) as -> by lia.
    assert (s1 = s2) as -> by lia.
    assert (f1 = f2) as -> by lia.
    reflexivity.
Qed.

(** 00:59:59:29 comes right before 01:00:00:00. *)
Lemma to_frames_order_witness :
  (Timecode.lt (Timecode.mk 0 59 59 29) (Timecode.mk 1 0 0 0) = true
   ↔ Timecode.to_frames (Timecode.mk 0 59 59 29)
     < Timecode.to_frames (Timecode.mk 1 0 0 0))
  ∧ (Timecode.to_frames (Timecode.mk 0 59 59 29)
     = Timecode.to_frames (Timecode.mk 1 0 0 0)
     → Timecode.mk 0 59 59 29 = Timecode.mk 1 0 0 0).
Proof.
  apply (to_frames_order (Timecode.mk 0 59 59 29) (Timecode.mk 1 0 0 0));
    unfold Timecode.in_range; simpl; lia.
Defined.

Lemma land_255 (x : Z) : Z.land x 255 = x mod 256.
Proof. apply (Z.land_ones x 8). lia. Qed.

(** X2. [tc_bytes] always builds a payload that [Timecode.from_bytes]
    and [frame] accept: the decoded timecode has each field reduced
    modulo 256, so fields already in 0..255 come back unchanged, and the
    T frame is STX, 'T', the four bytes, ETX. *)
Theorem tc_bytes_round_trip (hh mm ss ff : Z) :
  Timecode.from_bytes (tc_bytes hh mm ss ff)
  = Ret (Timecode.mk (hh mod 256) (mm mod 256) (ss mod 256) (ff mod 256))
  ∧ frame cmd_T (tc_bytes hh mm ss ff)
    = Ret [STX; cmd_T; hh mod 256; mm mod 256; ss mod 256; ff mod 256; ETX]
  ∧ (0 <= hh < 256 ∧ 0 <= mm < 256 ∧ 0 <= ss < 256 ∧ 0 <= ff < 256 →
     Timecode.from_bytes (tc_bytes hh mm ss ff) = Ret (Timecode.mk hh mm ss ff)).
Proof.
  unfold tc_bytes. rewrite !land_255. split; [reflexivity |].
  split; [reflexivity |].
  intros (Hh & Hm & Hs & Hf). simpl.
  rewrite !Z.mod_small by lia. reflexivity.
Qed.

(** X3. [le_word] and [Document.on_page] are inverse to each other on
    0..65535: [le_word(n)] is a two-byte payload that [frame] accepts for
    the P command and from which [on_page] latches the page [n] again.
    Outside that range [le_word] raises. *)
Theorem le_word_round_trip (n : Z) (d : Document.t) :
  (0 <= n < 65536 →
   ∃ bs, le_word n = Some bs
         ∧ frame cmd_P bs = Ret ([STX; cmd_P] ++ bs ++ [ETX])
         ∧ Document.current_page (Document.on_page bs d) = Some n)
  ∧ (n < 0 ∨ 65536 <= n → le_word n = None).
Proof.
  unfold le_word. split.
  - intros Hn.
    destruct (Z.leb_spec 0 n); [| lia]. destruct (Z.ltb_spec n 65536); [| lia].
    simpl. eexists. split; [reflexivity |]. split; [reflexivity |].
    simpl. f_equal.
    rewrite (Z.mod_small (n / 256)) by (split; [apply Z.div_pos; lia | apply Z.div_lt_upper_bound; lia]).
    pose proof (Z.div_mod n 256). lia.
  - intros Hn.
    destruct (Z.leb_spec 0 n); [| reflexivity].
    destruct (Z.ltb_spec n 65536); [lia | reflexivity].
Qed.

End TimecodeFacts.

(** ** Frames, fed as bytes *)

Section FramesFed.

Lemma _resolve_time_range_set_frame buf inc exp cmd stc etc p :
  _resolve_time_range stc etc (set_frame buf inc exp cmd p)
  = _resolve_time_range stc etc p.
Proof. apply _resolve_time_range_doc. reflexivity. Qed.

(** The handlers neither read nor write the frame-parse fields. *)
Lemma _dispatch_cmd_set_frame buf inc exp c (cmd : Z) (payload : list Z)
    (p : LawBridgeParser.t) :
  _dispatch_cmd cmd payload (set_frame buf inc exp c p)
  = with_frame buf inc exp c (_dispatch_cmd cmd payload p).
Proof.
  unfold _dispatch_cmd.
  repeat match goal with |- context [if ?b then _ else _] => destruct b end.
  - unfold _on_page, in_target, _refresh_target_doc, on_target. simpl.
    destruct (state p); [reflexivity |].
    destruct (refresh_mode p); [| reflexivity].
    destruct (_refresh_buffer p); reflexivity.
  - unfold _on_line, in_target, _refresh_target_doc, on_target. simpl.
    destruct (state p).
    + destruct (Document.on_line payload (doc p)); reflexivity.
    + destruct (refresh_mode p).
      * destruct (_refresh_buffer p) as [b |]; [| reflexivity]. simpl.
        destruct (Document.on_line payload b); reflexivity.
      * destruct (Document.on_line payload (doc p)); reflexivity.
  - unfold _on_format, in_target, _refresh_target_doc, on_target. simpl.
    destruct (state p).
    + destruct (Document.on_format payload (doc p)); reflexivity.
    + destruct (refresh_mode p).
      * destruct (_refresh_buffer p) as [b |]; [| reflexivity]. simpl.
        destruct (Document.on_format payload b); reflexivity.
      * destruct (Document.on_format payload (doc p)); reflexivity.
  - unfold _on_timecode. destruct (Timecode.from_bytes payload); [| reflexivity].
    unfold in_target, _refresh_target_doc, on_target. simpl.
    destruct (state p); [reflexivity |].
    destruct (refresh_mode p); [| reflexivity].
    destruct (_refresh_buffer p); reflexivity.
  - unfold _on_delete, on_target. simpl.
    destruct (state p).
    + destruct (Document.delete_backspace 0 (doc p)); reflexivity.
    + destruct (refresh_mode p).
      * destruct (_refresh_buffer p) as [b |]; [| reflexivity].
        destruct (Document.delete_backspace 0 b); reflexivity.
      * destruct (Document.delete_backspace _ (doc p)); reflexivity.
  - unfold _on_prevent_save, _refresh_target_doc, on_target. simpl.
    destruct (state p); [reflexivity |].
    destruct (refresh_mode p); [| reflexivity].
    destruct (_refresh_buffer p); reflexivity.
  - unfold _on_refresh_begin.
    destruct (negb (len payload =? 8)); [reflexivity |]. simpl state.
    destruct (is_refresh (state p)); [reflexivity |].
    destruct (Timecode.from_bytes (take 4 payload)) as [stc | e]; [| reflexivity].
    destruct (Timecode.from_bytes (drop 4 payload)) as [etc | e]; [| reflexivity].
    cbv zeta.
    rewrite (_resolve_time_range_doc stc etc
               (set_end_tc (Some etc) (set_start_tc (Some stc) (set_frame buf inc exp c p)))
               p) by reflexivity.
    rewrite (_resolve_time_range_doc stc etc
               (set_end_tc (Some etc) (set_start_tc (Some stc) p)) p) by reflexivity.
    destruct (_resolve_time_range stc etc p) as [[s_pos e_pos] | e]; [| reflexivity].
    simpl refresh_mode. destruct (refresh_mode p); reflexivity.
  - unfold _on_refresh_end. simpl.
    destruct (state p); [reflexivity |].
    destruct (refresh_mode p); [| reflexivity].
    destruct (_refresh_start_pos p); [| reflexivity].
    destruct (_refresh_end_pos p); [| reflexivity].
    destruct (_refresh_buffer p); reflexivity.
  - reflexivity.
Qed.

(** X4. [feed] undoes [frame].  For every command of [CMD_LEN] and every
    payload of its length, whatever bytes the payload holds (STX and ETX
    included), feeding the bytes of [frame(cmd, payload)] to a parser with
    no frame open runs the handler of [cmd] on exactly that payload and
    closes the frame.  If the handler raises, the exception leaves the
    parser inside the frame, with the payload still in the frame buffer. *)
Theorem feed_frame_dispatches (p : LawBridgeParser.t) (cmd : Z) (payload bs : list Z) :
  _in_cmd p = false → frame cmd payload = Ret bs →
  feed p bs
  = match _dispatch_cmd cmd payload p with
    | Done q => Done (_exit_frame q)
    | Raised e q => Raised e (set_frame payload true (cmd_len cmd) (Some cmd) q)
    end.
Proof.
  intros Hin Hf. rewrite (feed_frame p cmd payload bs Hin Hf).
  rewrite _dispatch_cmd_set_frame.
  destruct (_dispatch_cmd cmd payload p); reflexivity.
Qed.

(** A T frame whose payload is STX, ETX, STX, ETX. *)
Lemma feed_frame_dispatches_witness :
  feed (new BUFFER) [2; 84; 2; 3; 2; 3; 3]
  = match _dispatch_cmd cmd_T [2; 3; 2; 3] (new BUFFER) with
    | Done q => Done (_exit_frame q)
    | Raised e q => Raised e (set_frame [2; 3; 2; 3] true (cmd_len cmd_T) (Some cmd_T) q)
    end.
Proof.
  apply (feed_frame_dispatches (new BUFFER) cmd_T [2; 3; 2; 3] [2; 84; 2; 3; 2; 3; 3]);
    reflexivity.
Defined.

(** Inside the frame of an unknown command every byte but ETX is put
    aside. *)
Lemma feed_unknown_body (body rest : list Z) (p : LawBridgeParser.t) (c : Z) :
  _in_cmd p = true → _current_cmd p = Some c → _expected_len p = None →
  Forall (fun b => b ≠ ETX) body →
  feed p (body ++ rest)
  = feed (set_frame (_frame_buf p ++ body) true None (Some c) p) rest.
Proof.
  revert p. induction body as [| b body IH]; intros p Hin Hc Hn Hbody.
  - simpl. rewrite app_nil_r. destruct p; simpl in *. subst. reflexivity.
  - apply Forall_cons in Hbody. destruct Hbody as [Hb Hbody].
    change (feed p ((b :: body) ++ rest))
      with (andthen (feed_byte p b) (fun p1 => feed p1 (body ++ rest))).
    assert (Hstep : feed_byte p b
                    = Done (set_frame (_frame_buf p ++ [b]) true None (Some c) p)).
    { unfold feed_byte. rewrite Hin, Hc, Hn. simpl negb. cbv iota.
      destruct (Z.eqb_spec b ETX); [contradiction | reflexivity]. }
    rewrite Hstep. simpl andthen.
    rewrite IH; try reflexivity; [| exact Hbody].
    simpl. rewrite <- app_assoc. reflexivity.
Qed.

(** X5. A frame with an unknown command letter is skipped.  For a letter
    that is not in [CMD_LEN] and a body of any length without ETX (STX
    may occur in it), feeding STX, the letter, the body and ETX to a
    parser with no frame open changes nothing but the frame-parse
    fields, which are reset: documents, state and refresh bookkeeping
    stay as they were. *)
Theorem unknown_frame_skipped (p : LawBridgeParser.t) (c : Z) (body : list Z) :
  _in_cmd p = false → cmd_len c = None → Forall (fun b => b ≠ ETX) body →
  feed p ([STX; c] ++ body ++ [ETX]) = Done (_exit_frame p).
Proof.
  intros Hin Hc Hbody.
  change (feed p ([STX; c] ++ body ++ [ETX]))
    with (andthen (feed_byte p STX)
            (fun p1 => andthen (feed_byte p1 c)
                         (fun p2 => feed p2 (body ++ [ETX])))).
  assert (H1 : feed_byte p STX = Done (_enter_frame p)).
  { unfold feed_byte. rewrite Hin. reflexivity. }
  rewrite H1. simpl andthen.
  change (feed_byte (_enter_frame p) c)
    with (Done (set_frame [] true (cmd_len c) (Some c) p)).
  simpl andthen. rewrite Hc.
  rewrite (feed_unknown_body body [ETX] _ c) by (reflexivity || exact Hbody).
  reflexivity.
Qed.

(** The frame of the letter 'Z' with the body STX, 0x10. *)
Lemma unknown_frame_skipped_witness :
  feed (new STREAM) ([STX; 90] ++ [2; 16] ++ [ETX]) = Done (_exit_frame (new STREAM)).
Proof.
  apply (unknown_frame_skipped (new STREAM) 90 [2; 16]).
  - reflexivity.
  - reflexivity.
  - repeat constructor; discriminate.
Defined.

(** X6. A frame whose closing byte is not ETX.  When the byte that
    follows the complete payload of a known command is not ETX, [feed]
    raises [ValueError] at that byte: the command is not run, the rest of
    the input is not read, and the parser is left inside the frame with
    the payload complete.  Feeding ETX to that parser then does what the
    intact frame would have done. *)
Theorem malformed_frame_recoverable
    (p : LawBridgeParser.t) (cmd : Z) (payload bs : list Z) (b : Z) (rest : list Z) :
  _in_cmd p = false → frame cmd payload = Ret bs → b ≠ ETX →
  let q := set_frame payload true (cmd_len cmd) (Some cmd) p in
  feed p ([STX; cmd] ++ payload ++ b :: rest) = Raised ValueError q
  ∧ feed q [ETX] = feed p bs.
Proof.
  intros Hin Hf Hb q.
  destruct (frame_inv _ _ _ Hf) as (n & Hn & Hlen & ->).
  assert (Hq : ∀ tail, feed p ([STX; cmd] ++ payload ++ tail) = feed q tail).
  { intros tail.
    change (feed p ([STX; cmd] ++ payload ++ tail))
      with (andthen (feed_byte p STX)
              (fun p1 => andthen (feed_byte p1 cmd)
                           (fun p2 => feed p2 (payload ++ tail)))).
    assert (H1 : feed_byte p STX = Done (_enter_frame p)).
    { unfold feed_byte. rewrite Hin. reflexivity. }
    rewrite H1. simpl andthen.
    change (feed_byte (_enter_frame p) cmd)
      with (Done (set_frame [] true (cmd_len cmd) (Some cmd) p)).
    simpl andthen. rewrite Hn.
    rewrite (feed_payload payload tail _ cmd n); try reflexivity.
    - unfold q. rewrite Hn. reflexivity.
    - simpl. unfold len in *. simpl. lia. }
  split.
  - rewrite Hq. simpl feed. unfold feed_byte, q. simpl. rewrite Hn.
    destruct (Z.ltb_spec (len payload) n); [lia |].
    destruct (Z.eqb_spec b ETX); [contradiction | reflexivity].
  - rewrite <- Hq. reflexivity.
Qed.

(** A D frame closed by "B" instead of ETX, on a new parser. *)
Lemma malformed_frame_recoverable_witness :
  feed (new BUFFER) ([STX; cmd_D] ++ [] ++ 66 :: [67])
  = Raised ValueError (set_frame [] true (cmd_len cmd_D) (Some cmd_D) (new BUFFER))
  ∧ feed (set_frame [] true (cmd_len cmd_D) (Some cmd_D) (new BUFFER)) [ETX]
    = feed (new BUFFER) [2; 68; 3].
Proof.
  apply (malformed_frame_recoverable (new BUFFER) cmd_D [] [2; 68; 3] 66 [67]);
    [reflexivity | reflexivity | discriminate].
Defined.

(** X7. An E frame outside a refresh is ignored: fed to a parser in
    NORMAL with no frame open it changes nothing but the frame-parse
    fields, which are reset. *)
Theorem refresh_end_outside_refresh_ignored (p : LawBridgeParser.t) (bs : list Z) :
  state p = NORMAL → _in_cmd p = false → frame cmd_E [] = Ret bs →
  feed p bs = Done (_exit_frame p).
Proof.
  intros Hst Hin Hf.
  rewrite (feed_frame p cmd_E [] bs Hin Hf).
  rewrite _dispatch_cmd_set_frame.
  change (_dispatch_cmd cmd_E [] p) with (_on_refresh_end p).
  unfold _on_refresh_end. rewrite Hst. reflexivity.
Qed.

Lemma refresh_end_outside_refresh_ignored_witness :
  feed (final (feed (new BUFFER) [72; 73])) [2; 69; 3]
  = Done (_exit_frame (final (feed (new BUFFER) [72; 73]))).
Proof.
  apply (refresh_end_outside_refresh_ignored (final (feed (new BUFFER) [72; 73]))
           [2; 69; 3]); reflexivity.
Defined.

End FramesFed.

(** ** Text bytes and backspaces *)

Section TextAndBackspace.

Lemma insert_loop_app (s1 s2 cs : list Z) (pos : Z) :
  Document.insert_loop (s1 ++ s2) cs pos
  = Document.insert_loop s2 (fst (Document.insert_loop s1 cs pos))
      (snd (Document.insert_loop s1 cs pos)).
Proof.
  unfold Document.insert_loop. rewrite foldl_app.
  destruct (foldl _ (cs, pos) s1). reflexivity.
Qed.

Lemma insert_text_concat (s1 s2 : list Z) (d : Document.t) :
  Document.insert_text (s1 ++ s2) d
  = Document.insert_text s2 (Document.insert_text s1 d).
Proof.
  destruct s1 as [| c1 s1]; [reflexivity |].
  destruct s2 as [| c2 s2]; [rewrite app_nil_r; reflexivity |].
  unfold Document.insert_text at 1 2.
  change ((c1 :: s1) ++ c2 :: s2) with (c1 :: (s1 ++ c2 :: s2)). cbv iota.
  change (c1 :: (s1 ++ c2 :: s2)) with ((c1 :: s1) ++ c2 :: s2).
  rewrite insert_loop_app.
  unfold Document.insert_text. reflexivity.
Qed.

(** X8. [insert_text] composes.  Inserting a string piece by piece, in
    any number of pieces and with empty pieces among them, gives the
    document that inserting the whole string at once gives; this holds
    of every document, with no assumption on its cursor. *)
Theorem insert_text_app (pieces : list (list Z)) (d : Document.t) :
  foldl (fun d' s => Document.insert_text s d') d pieces
  = Document.insert_text (concat pieces) d.
Proof.
  revert d. induction pieces as [| s pieces IH]; intros d; [reflexivity |].
  simpl. rewrite IH. symmetry. apply insert_text_concat.
Qed.

Lemma decode_single (b : Z) :
  match decode_strict [b] with
  | Some s => s
  | None => decode_replace [b]
  end = decode_replace [b].
Proof.
  unfold decode_strict, decode_replace. simpl.
  destruct (b <? 128); reflexivity.
Qed.

(** A text byte for the main document. *)
Lemma feed_byte_main_text (p : LawBridgeParser.t) (b : Z) :
  state p = NORMAL ∨ refresh_mode p = STREAM → _in_cmd p = false → b ≠ STX →
  feed_byte p b
  = Done (set_doc (Document.insert_text (decode_replace [b]) (doc p)) p).
Proof.
  intros Hmain Hin Hb. rewrite feed_byte_text by assumption.
  unfold _insert_text_bytes. rewrite decode_single.
  destruct (state p); [reflexivity |].
  destruct Hmain as [H | ->]; [discriminate | reflexivity].
Qed.

(** X9. Plain text.  Fed to a parser whose text goes to the main document
    (state NORMAL, or STREAM mode) and that has no frame open, a run of
    bytes without STX is one [insert_text] of its decoding, in which each
    byte below 128 is the character of that code and each other byte is
    U+FFFD; nothing else of the parser changes.  With the cursor inside
    the text, the decoded run lands at the cursor and the cursor ends
    right after it. *)
Theorem feed_plain_text (p : LawBridgeParser.t) (s : list Z) :
  state p = NORMAL ∨ refresh_mode p = STREAM → _in_cmd p = false →
  Forall (fun b => b ≠ STX) s →
  feed p s = Done (set_doc (Document.insert_text (decode_replace s) (doc p)) p)
  ∧ (Document.wf (doc p) →
     let i := Z.to_nat (Document._insertion (doc p)) in
     Document._chars (Document.insert_text (decode_replace s) (doc p))
     = take i (Document._chars (doc p)) ++ decode_replace s
       ++ drop i (Document._chars (doc p))
     ∧ Document._insertion (Document.insert_text (decode_replace s) (doc p))
       = Document._insertion (doc p) + len s).
Proof.
  intros Hmain Hin Hs. split.
  - revert p Hmain Hin. induction Hs as [| b s Hb Hs IH]; intros p Hmain Hin.
    + destruct p; reflexivity.
    + change (feed p (b :: s)) with (andthen (feed_byte p b) (fun p1 => feed p1 s)).
      rewrite feed_byte_main_text by assumption. simpl andthen.
      rewrite IH by assumption.
      change (decode_replace (b :: s)) with (decode_replace [b] ++ decode_replace s).
      rewrite insert_text_concat. reflexivity.
  - intros Hwf i.
    rewrite insert_text_chars, insert_text_insertion by exact Hwf.
    split; [reflexivity |].
    unfold decode_replace, len. rewrite length_map. reflexivity.
Qed.

(** "H", the byte 0xC8, "I", as in the sixth scenario. *)
Lemma feed_plain_text_witness :
  feed (new BUFFER) [72; 200; 73]
  = Done (set_doc (Document.insert_text [72; 65533; 73] (doc (new BUFFER))) (new BUFFER))
  ∧ (Document.wf (doc (new BUFFER)) →
     Document._chars (Document.insert_text [72; 65533; 73] (doc (new BUFFER)))
     = [] ++ [72; 65533; 73] ++ []
     ∧ Document._insertion (Document.insert_text [72; 65533; 73] (doc (new BUFFER)))
       = 0 + 3).
Proof.
  apply (feed_plain_text (new BUFFER) [72; 200; 73]).
  - left. reflexivity.
  - reflexivity.
  - repeat constructor; discriminate.
Defined.

(** A backspace right after a one-character insert gives the document
    back, provided the lower bound allows it. *)
Lemma delete_backspace_insert_text (lb c : Z) (d : Document.t) :
  Document.wf d → lb <= Document._insertion d →
  Document.delete_backspace lb (Document.insert_text [c] d) = Ret d.
Proof.
  intros Hwf Hlb. unfold Document.wf in Hwf.
  destruct d as [cs i ti pg ln fm ps]. simpl in *.
  unfold Document.delete_backspace, Document.insert_text, Document.insert_loop.
  simpl.
  destruct (Z.ltb_spec lb (i + 1)); [| lia].
  destruct (Z.ltb_spec 0 (i + 1)); [| lia].
  simpl. rewrite py_insert_in_range by lia.
  unfold py_del_item. rewrite Z.add_simpl_r.
  assert (Hl : List.length (take (Z.to_nat i) cs) = Z.to_nat i).
  { rewrite length_take. unfold len in Hwf. lia. }
  destruct (Z.leb_spec 0 i); [| lia].
  destruct (Z.ltb_spec i (len (take (Z.to_nat i) cs ++ c :: drop (Z.to_nat i) cs)))
    as [_ | Hge].
  - simpl. unfold Document.with_insertion, Document.with_chars. simpl.
    rewrite take_app_length' by (symmetry; exact Hl).
    rewrite (drop_snoc_middle _ _ _ _ Hl).
    rewrite take_drop. reflexivity.
  - exfalso. revert Hge. rewrite len_app. unfold len. rewrite Hl. simpl. lia.
Qed.

Lemma concat_replicate_S {A} (n : nat) (x : list A) :
  concat (replicate (S n) x) = concat (replicate n x) ++ x.
Proof.
  induction n as [| n IH]; simpl in *.
  - rewrite app_nil_r. reflexivity.
  - rewrite IH at 1. rewrite app_assoc. reflexivity.
Qed.

(** What a D frame does to a parser in NORMAL. *)
Lemma feed_D_frame_normal (p : LawBridgeParser.t) (d : Document.t) :
  state p = NORMAL → _in_cmd p = false →
  Document.delete_backspace 0 (doc p) = Ret d →
  feed p D_ = Done (_exit_frame (set_doc d p)).
Proof.
  intros Hst Hin Hd.
  rewrite (feed_frame p cmd_D [] D_ Hin eq_refl).
  rewrite _dispatch_cmd_set_frame.
  change (_dispatch_cmd cmd_D [] p) with (_on_delete p).
  unfold _on_delete. rewrite Hst. unfold on_target. rewrite Hd. reflexivity.
Qed.

(** X10. Backspaces undo typed text.  In NORMAL, with no frame open and
    the cursor inside the text, a run of [n] bytes without STX followed
    by [n] D frames leaves the main document exactly as it was:
    characters, cursor, time index and latched fields. *)
Theorem text_then_backspaces (s : list Z) (p : LawBridgeParser.t) :
  state p = NORMAL → _in_cmd p = false → Document.wf (doc p) →
  Forall (fun b => b ≠ STX) s →
  ∃ q, feed p (s ++ concat (replicate (List.length s) D_)) = Done q
       ∧ doc q = doc p ∧ state q = NORMAL ∧ _in_cmd q = false.
Proof.
  intros Hst Hin Hwf Hs. revert p Hst Hin Hwf.
  induction Hs as [| b s Hb Hs IH]; intros p Hst Hin Hwf.
  - exists p. simpl. auto.
  - change (List.length (b :: s)) with (S (List.length s)).
    rewrite concat_replicate_S.
    change ((b :: s) ++ concat (replicate (List.length s) D_) ++ D_)
      with (b :: (s ++ concat (replicate (List.length s) D_) ++ D_)).
    change (feed p (b :: ?l)) with (andthen (feed_byte p b) (fun p1 => feed p1 l)).
    rewrite feed_byte_main_text by (auto || assumption). cbn [andthen].
    rewrite app_assoc, feed_app.
    set (p1 := set_doc (Document.insert_text (decode_replace [b]) (doc p)) p).
    destruct (IH p1) as (q1 & Hq1 & Hdoc1 & Hst1 & Hin1);
      [exact Hst | exact Hin | apply wf_insert_text; exact Hwf |].
    rewrite Hq1. cbn [andthen].
    assert (Hd : Document.delete_backspace 0 (doc q1) = Ret (doc p)).
    { rewrite Hdoc1. unfold p1. simpl doc.
      apply delete_backspace_insert_text; [exact Hwf |].
      unfold Document.wf in Hwf. lia. }
    rewrite (feed_D_frame_normal q1 (doc p) Hst1 Hin1 Hd).
    eexists. split; [reflexivity |]. simpl. auto.
Qed.

(** "AB" in place, then "XY" typed and two D frames. *)
Lemma text_then_backspaces_witness :
  ∃ q, feed (final (feed (new BUFFER) [65; 66]))
         ([88; 89] ++ concat (replicate 2 D_)) = Done q
       ∧ doc q = doc (final (feed (new BUFFER) [65; 66]))
       ∧ state q = NORMAL ∧ _in_cmd q = false.
Proof.
  apply (text_then_backspaces [88; 89] (final (feed (new BUFFER) [65; 66]))).
  - reflexivity.
  - reflexivity.
  - unfold Document.wf. vm_compute. split; discriminate.
  - repeat constructor; discriminate.
Defined.

End TextAndBackspace.

(** ** The parser invariant and the exceptions of [feed] *)

Section ParserInvariant.

Lemma cmd_len_bounds (c n : Z) : cmd_len c = Some n → 0 <= n <= 8.
Proof.
  unfold cmd_len, CMD_LEN, List.find. cbn [fst].
  repeat (match goal with |- context [if ?b then _ else _] => destruct b end;
          [cbn; intros [= <-]; lia |]).
  cbn. discriminate.
Qed.

Lemma refresh_ok_set_frame buf inc exp cmd p :
  refresh_ok p → refresh_ok (set_frame buf inc exp cmd p).
Proof. intros H. exact H. Qed.

Lemma refresh_ok_new (mode : RefreshMode) : refresh_ok (new mode).
Proof. repeat split. Qed.

Lemma frame_ok_new (mode : RefreshMode) : frame_ok (new mode).
Proof. split; reflexivity. Qed.

(** A method of [Document] that returns and leaves text and cursor
    alone, run on the active edit target. *)
Lemma in_target_ok f (p : LawBridgeParser.t) :
  refresh_ok p →
  (∀ d, ∃ d', f d = Ret d'
              ∧ Document._chars d' = Document._chars d
              ∧ Document._insertion d' = Document._insertion d) →
  ∃ q, in_target f p = Done q ∧ refresh_ok q.
Proof.
  intros Hr Hf. unfold in_target, _refresh_target_doc, on_target.
  unfold refresh_ok in *.
  destruct (state p) eqn:Hst.
  - destruct (Hf (doc p)) as (d' & -> & _).
    eexists. split; [reflexivity |]. simpl. rewrite Hst. exact Hr.
  - destruct Hr as (s & e & Hs & He & Hse & Hmode).
    destruct (refresh_mode p) eqn:Hm.
    + destruct Hmode as ([b Hb] & Hlb & Hel). rewrite Hb.
      destruct (Hf b) as (d' & -> & _).
      eexists. split; [reflexivity |]. simpl. rewrite Hst, Hm.
      exists s, e. eauto 10.
    + destruct Hmode as (Hb & Hlb & Hsi).
      destruct (Hf (doc p)) as (d' & -> & _ & Hi).
      eexists. split; [reflexivity |]. simpl. rewrite Hst, Hm.
      exists s, e. rewrite Hi. auto 10.
Qed.

Lemma _insert_text_bytes_ok (bs : list Z) (p : LawBridgeParser.t) :
  cursor_ok p → refresh_ok p →
  ∃ q, _insert_text_bytes bs p = Done q ∧ refresh_ok q.
Proof.
  intros [Hwf _] Hr. unfold _insert_text_bytes, on_target.
  unfold refresh_ok in *.
  destruct (state p) eqn:Hst.
  - eexists. split; [reflexivity |]. simpl. rewrite Hst. exact Hr.
  - destruct Hr as (s & e & Hs & He & Hse & Hmode).
    destruct (refresh_mode p) eqn:Hm.
    + destruct Hmode as ([b Hb] & Hlb & Hel). rewrite Hb.
      eexists. split; [reflexivity |]. simpl. rewrite Hst, Hm.
      exists s, e. eauto 10.
    + destruct Hmode as (Hb & Hlb & Hsi).
      eexists. split; [reflexivity |]. simpl. rewrite Hst, Hm.
      exists s, e. rewrite insert_text_insertion by exact Hwf.
      match goal with |- context [len ?l] => pose proof (len_nonneg l) end.
      repeat split; try assumption; lia.
Qed.

Lemma delete_backspace_insertion (lb : Z) (d : Document.t) :
  Document.wf d → lb <= Document._insertion d →
  ∃ d', Document.delete_backspace lb d = Ret d'
        ∧ lb <= Document._insertion d'.
Proof.
  intros Hwf Hlb.
  destruct (decide (lb < Document._insertion d ∧ 0 < Document._insertion d))
    as [[H1 H2] | Hn].
  - eexists. split; [apply delete_backspace_removes; assumption |]. simpl. lia.
  - exists d. split; [apply delete_backspace_noop; exact Hn | exact Hlb].
Qed.

Lemma delete_backspace_keeps_length_bound (lb : Z) (d d' : Document.t) :
  Document.delete_backspace lb d = Ret d' →
  len (Document._chars d') <= len (Document._chars d).
Proof.
  unfold Document.delete_backspace.
  destruct (_ && _); [| intros [= <-]; lia].
  unfold py_del_item. destruct (_ && _) eqn:Hr; simpl; [| discriminate].
  intros [= <-]. simpl. unfold len.
  rewrite length_app, length_take, length_drop. lia.
Qed.

Lemma _on_delete_ok (p : LawBridgeParser.t) :
  cursor_ok p → refresh_ok p →
  ∃ q, _on_delete p = Done q ∧ refresh_ok q.
Proof.
  intros [Hwf Hwfb] Hr. unfold _on_delete, on_target.
  unfold refresh_ok in *.
  destruct (state p) eqn:Hst.
  - destruct (delete_backspace_total 0 (doc p) Hwf) as (d' & ->).
    eexists. split; [reflexivity |]. simpl. rewrite Hst. exact Hr.
  - destruct Hr as (s & e & Hs & He & Hse & Hmode).
    destruct (refresh_mode p) eqn:Hm.
    + destruct Hmode as ([b Hb] & Hlb & Hel). rewrite Hb.
      destruct (delete_backspace_total 0 b (Hwfb b Hb)) as (d' & ->).
      eexists. split; [reflexivity |]. simpl. rewrite Hst, Hm.
      exists s, e. eauto 10.
    + destruct Hmode as (Hb & Hlb & Hsi). rewrite Hlb.
      destruct (delete_backspace_insertion s (doc p) Hwf Hsi) as (d' & -> & Hi).
      eexists. split; [reflexivity |]. simpl. rewrite Hst, Hm.
      exists s, e. auto 10.
Qed.

Lemma _on_prevent_save_ok (p : LawBridgeParser.t) :
  refresh_ok p → ∃ q, _on_prevent_save p = Done q ∧ refresh_ok q.
Proof.
  intros Hr. unfold _on_prevent_save, _refresh_target_doc, on_target.
  unfold refresh_ok in *.
  destruct (state p) eqn:Hst.
  - eexists. split; [reflexivity |]. simpl. rewrite Hst. exact Hr.
  - destruct Hr as (s & e & Hs & He & Hse & Hmode).
    destruct (refresh_mode p) eqn:Hm.
    + destruct Hmode as ([b Hb] & Hlb & Hel). rewrite Hb. simpl.
      eexists. split; [reflexivity |]. simpl. rewrite Hst, Hm.
      exists s, e. eauto 10.
    + destruct Hmode as (Hb & Hlb & Hsi). simpl.
      eexists. split; [reflexivity |]. simpl. rewrite Hst, Hm.
      exists s, e. auto 10.
Qed.

Lemma _on_refresh_begin_ok (payload : list Z) (p : LawBridgeParser.t) :
  len payload = 8 → refresh_ok p →
  match _on_refresh_begin payload p with
  | Done q => refresh_ok q ∧ state p = NORMAL
  | Raised e q => q = p ∧ e = RuntimeError ∧ state p = REFRESH
  end.
Proof.
  intros Hlen Hr. unfold _on_refresh_begin. rewrite Hlen. simpl negb. cbv iota.
  destruct (state p) eqn:Hst; simpl is_refresh; cbv iota; [| auto].
  destruct (len_8_inv payload Hlen)
    as (a0 & a1 & a2 & a3 & b0 & b1 & b2 & b3 & ->).
  change (take 4 [a0; a1; a2; a3; b0; b1; b2; b3]) with [a0; a1; a2; a3].
  change (drop 4 [a0; a1; a2; a3; b0; b1; b2; b3]) with [b0; b1; b2; b3].
  change (Timecode.from_bytes [a0; a1; a2; a3]) with (Ret (Timecode.mk a0 a1 a2 a3)).
  change (Timecode.from_bytes [b0; b1; b2; b3]) with (Ret (Timecode.mk b0 b1 b2 b3)).
  cbv iota zeta.
  set (stc := Timecode.mk a0 a1 a2 a3). set (etc := Timecode.mk b0 b1 b2 b3).
  rewrite (_resolve_time_range_doc stc etc
             (set_end_tc (Some etc) (set_start_tc (Some stc) p)) p) by reflexivity.
  destruct (_resolve_time_range_bounds stc etc p) as (s & e & -> & Hse & Hel).
  split; [| reflexivity].
  destruct (delete_range_set_insertion s e (doc p) Hse Hel) as (_ & Hi & _).
  cbv zeta in Hi.
  unfold refresh_ok in Hr. rewrite Hst in Hr.
  destruct Hr as (_ & _ & Hb & Hlb).
  simpl refresh_mode.
  destruct (refresh_mode p) eqn:Hm; cbv iota.
  - unfold refresh_ok.
    change (state (set_state REFRESH ?x)) with REFRESH. cbv iota.
    change (refresh_mode (set_state REFRESH ?x)) with (refresh_mode p).
    rewrite Hm. exists s, e.
    split; [reflexivity |]. split; [reflexivity |]. split; [exact Hse |].
    split; [eexists; reflexivity |]. split; [exact Hlb | exact Hel].
  - unfold refresh_ok.
    change (state (set_state REFRESH ?x)) with REFRESH. cbv iota.
    change (refresh_mode (set_state REFRESH ?x)) with (refresh_mode p).
    rewrite Hm. exists s, e.
    split; [reflexivity |]. split; [reflexivity |]. split; [exact Hse |].
    split; [exact Hb |]. split; [reflexivity |].
    change (s <= Document._insertion
                   (Document.set_insertion s (Document.delete_range s e (doc p)))).
    rewrite Hi. lia.
Qed.

Lemma refresh_ok_reset (p : LawBridgeParser.t) : refresh_ok (reset_refresh p).
Proof. unfold refresh_ok. simpl. auto. Qed.

Lemma _on_refresh_end_ok (p : LawBridgeParser.t) :
  refresh_ok p → ∃ q, _on_refresh_end p = Done q ∧ refresh_ok q.
Proof.
  intros Hr. unfold _on_refresh_end. unfold refresh_ok in Hr.
  destruct (state p) eqn:Hst.
  - exists p. split; [reflexivity |]. unfold refresh_ok. rewrite Hst. exact Hr.
  - destruct Hr as (s & e & Hs & He & Hse & Hmode). rewrite Hs, He.
    destruct (refresh_mode p) eqn:Hm.
    + destruct Hmode as ([b Hb] & _). rewrite Hb.
      eexists. split; [reflexivity | apply refresh_ok_reset].
    + eexists. split; [reflexivity | apply refresh_ok_reset].
Qed.

Lemma len_1_inv (payload : list Z) :
  len payload = 1 → ∃ x, payload = [x].
Proof.
  unfold len. destruct payload as [| x [| y l]]; simpl; intros H; try lia.
  eauto.
Qed.

(** A handler run on a payload of the length [CMD_LEN] gives: the only
    exception is the one for a nested refresh, raised before anything
    is changed. *)
Lemma _dispatch_cmd_ok (cmd : Z) (payload : list Z) (p : LawBridgeParser.t) :
  cursor_ok p → refresh_ok p → cmd_len cmd = Some (len payload) →
  match _dispatch_cmd cmd payload p with
  | Done q => refresh_ok q
  | Raised e q => q = p ∧ e = RuntimeError ∧ cmd = cmd_R ∧ state p = REFRESH
  end.
Proof.
  intros Hc Hr Hlen. unfold _dispatch_cmd.
  destruct (Z.eqb_spec cmd cmd_P) as [-> | _].
  { destruct (in_target_ok (fun d => Ret (Document.on_page payload d)) p Hr)
      as (q & Hq & Hrq); [intros d; eexists; split; [reflexivity | split; reflexivity] |].
    unfold _on_page. rewrite Hq. exact Hrq. }
  destruct (Z.eqb_spec cmd cmd_N) as [-> | _].
  { injection Hlen as Hlen. symmetry in Hlen.
    destruct (len_1_inv payload Hlen) as [x ->].
    destruct (in_target_ok (Document.on_line [x]) p Hr)
      as (q & Hq & Hrq); [intros d; eexists; split; [reflexivity | split; reflexivity] |].
    unfold _on_line. rewrite Hq. exact Hrq. }
  destruct (Z.eqb_spec cmd cmd_F) as [-> | _].
  { injection Hlen as Hlen. symmetry in Hlen.
    destruct (len_1_inv payload Hlen) as [x ->].
    destruct (in_target_ok (Document.on_format [x]) p Hr)
      as (q & Hq & Hrq); [intros d; eexists; split; [reflexivity | split; reflexivity] |].
    unfold _on_format. rewrite Hq. exact Hrq. }
  destruct (Z.eqb_spec cmd cmd_T) as [-> | _].
  { injection Hlen as Hlen. symmetry in Hlen.
    assert (∃ a b c d, payload = [a; b; c; d]) as (a0 & a1 & a2 & a3 & ->).
    { unfold len in Hlen.
      do 4 (destruct payload as [| ? payload]; [simpl in Hlen; lia |]).
      destruct payload; [eauto | simpl in Hlen; lia]. }
    unfold _on_timecode. simpl Timecode.from_bytes. cbv iota.
    destruct (in_target_ok
                (fun d => Ret (Document.on_timecode (Timecode.mk a0 a1 a2 a3) d)) p Hr)
      as (q & Hq & Hrq); [intros d; eexists; split; [reflexivity | split; reflexivity] |].
    rewrite Hq. exact Hrq. }
  destruct (Z.eqb_spec cmd cmd_D) as [-> | _].
  { destruct (_on_delete_ok p Hc Hr) as (q & -> & Hrq). exact Hrq. }
  destruct (Z.eqb_spec cmd cmd_K) as [-> | _].
  { destruct (_on_prevent_save_ok p Hr) as (q & -> & Hrq). exact Hrq. }
  destruct (Z.eqb_spec cmd cmd_R) as [-> | _].
  { injection Hlen as Hlen. symmetry in Hlen.
    pose proof (_on_refresh_begin_ok payload p Hlen Hr) as H.
    destruct (_on_refresh_begin payload p); intuition. }
  destruct (Z.eqb_spec cmd cmd_E) as [-> | _].
  { destruct (_on_refresh_end_ok p Hr) as (q & -> & Hrq). exact Hrq. }
  exact Hr.
Qed.

(** One byte: the invariant is kept, and a raise changes nothing. *)
Lemma feed_byte_ok (p : LawBridgeParser.t) (b : Z) :
  parser_ok p →
  match feed_byte p b with
  | Done q => parser_ok q
  | Raised e q =>
      q = p ∧ _in_cmd p = true
      ∧ ((e = ValueError ∧ b ≠ ETX)
         ∨ (e = RuntimeError ∧ b = ETX ∧ state p = REFRESH
            ∧ _current_cmd p = Some cmd_R))
  end.
Proof.
  intros (Hc & Hf & Hr).
  pose proof (cursor_ok_feed_byte p b Hc) as Hcq.
  unfold feed_byte in *. unfold frame_ok in Hf.
  destruct (_in_cmd p) eqn:Hin; simpl negb in *; cbv iota in *.
  - destruct (_current_cmd p) as [cmd |] eqn:Hcmd.
    + destruct Hf as (_ & Hexp & Hbuf). rewrite Hexp in *.
      destruct (cmd_len cmd) as [n |] eqn:Hn.
      * specialize (Hbuf n eq_refl).
        destruct (Z.ltb_spec (len (_frame_buf p)) n) as [Hlt | Hge].
        { split; [exact Hc |]. split; [| exact Hr].
          unfold frame_ok. simpl.
          split; [reflexivity |]. split; [congruence |].
          rewrite Hn. intros n' [= <-]. rewrite len_app. unfold len at 2. simpl. lia. }
        destruct (Z.eqb_spec b ETX) as [-> | Hb]; simpl negb in *; cbv iota in *;
          [| auto 10].
        assert (Hlen : cmd_len cmd = Some (len (_frame_buf p)))
          by (rewrite Hn; f_equal; lia).
        pose proof (_dispatch_cmd_ok cmd (_frame_buf p) p Hc Hr Hlen) as Hd.
        destruct (_dispatch_cmd cmd (_frame_buf p) p) as [q | e q];
          simpl andthen in *.
        { split; [exact Hcq |]. split; [split; reflexivity | exact Hd]. }
        destruct Hd as (-> & -> & -> & Hst). auto 10.
      * destruct (b =? ETX); simpl andthen.
        { split; [exact Hc |]. split; [split; reflexivity | exact Hr]. }
        split; [exact Hc |]. split; [| exact Hr].
        unfold frame_ok. simpl.
        split; [reflexivity |]. split; [congruence | rewrite Hn; discriminate].
    + destruct Hf as (Hbuf & Hexp).
      split; [exact Hc |]. split; [| exact Hr].
      unfold frame_ok. simpl. split; [reflexivity |]. split; [reflexivity |].
      intros n Hn. rewrite Hbuf. apply cmd_len_bounds in Hn.
      unfold len. simpl. lia.
  - destruct (b =? STX).
    + split; [exact Hc |]. split; [| exact Hr].
      unfold frame_ok. simpl. auto.
    + destruct (_insert_text_bytes_ok [b] p Hc Hr) as (q & Hq & Hrq).
      rewrite Hq in *. split; [exact Hcq |]. split; [| exact Hrq].
      unfold _insert_text_bytes, on_target in Hq. unfold frame_ok in *.
      destruct (state p); [| destruct (refresh_mode p)];
        try (injection Hq as <-; simpl; rewrite Hin; exact Hf).
      destruct (_refresh_buffer p); simpl in Hq; [| discriminate Hq].
      injection Hq as <-. simpl. rewrite Hin. exact Hf.
Qed.

Lemma parser_ok_new (mode : RefreshMode) : parser_ok (new mode).
Proof.
  split; [apply cursor_ok_new |].
  split; [apply frame_ok_new | apply refresh_ok_new].
Qed.

(** A whole call: the invariant holds of the parser [feed] leaves,
    and an exception leaves the parser the good prefix produced. *)
Lemma feed_ok (data : list Z) (p : LawBridgeParser.t) :
  parser_ok p →
  match feed p data with
  | Done q => parser_ok q
  | Raised e q =>
      parser_ok q
      ∧ ∃ pre b post,
          data = pre ++ b :: post ∧ feed p pre = Done q
          ∧ feed_byte q b = Raised e q ∧ _in_cmd q = true
          ∧ ((e = ValueError ∧ b ≠ ETX)
             ∨ (e = RuntimeError ∧ b = ETX ∧ state q = REFRESH
                ∧ _current_cmd q = Some cmd_R))
  end.
Proof.
  revert p. induction data as [| b rest IH]; intros p Hp; [exact Hp |].
  change (feed p (b :: rest)) with (andthen (feed_byte p b) (fun p1 => feed p1 rest)).
  pose proof (feed_byte_ok p b Hp) as Hb.
  destruct (feed_byte p b) as [p1 | e p1] eqn:Hstep; cbn [andthen].
  - specialize (IH p1 Hb).
    destruct (feed p1 rest) as [q | e q]; [exact IH |].
    destruct IH as (Hq & pre & b' & post & -> & Hpre & Hraise & Hrest).
    split; [exact Hq |].
    exists (b :: pre), b', post. split; [reflexivity |].
    split; [| auto].
    change (feed p (b :: pre)) with (andthen (feed_byte p b) (fun p1 => feed p1 pre)).
    rewrite Hstep. exact Hpre.
  - destruct Hb as (-> & Hin & He). split; [exact Hp |].
    exists [], b, rest. auto 10.
Qed.

End ParserInvariant.

(** X11. The invariant of the frame parse and of the refresh bookkeeping.
    Whatever bytes a newly constructed parser is fed, and also when
    [feed] raised, the parser is left in a state where: outside a frame
    no command is pending and the frame buffer is empty; the buffer of a
    command of [CMD_LEN] holds at most the command's payload, so at most
    8 bytes; in NORMAL the refresh bookkeeping is reset; in REFRESH the
    resolved range [0 <= start <= end] is there, a BUFFER-mode parser has
    its scratch document and the range lies inside the main document, and
    a STREAM-mode parser has its cursor at or after the lower bound. *)
Theorem parser_invariant (mode : RefreshMode) (data : list Z) :
  let q := final (feed (new mode) data) in
  frame_ok q ∧ refresh_ok q
  ∧ (_in_cmd q = false → _current_cmd q = None ∧ _frame_buf q = [])
  ∧ (∀ n, _expected_len q = Some n → len (_frame_buf q) <= n <= 8).
Proof.
  intros q.
  assert (Hq : parser_ok q).
  { unfold q. pose proof (feed_ok data (new mode) (parser_ok_new mode)) as H.
    destruct (feed (new mode) data); [exact H | apply H]. }
  destruct Hq as (_ & Hf & Hr).
  split; [exact Hf |]. split; [exact Hr |].
  unfold frame_ok in Hf. split.
  - intros Hin. destruct (_current_cmd q).
    + destruct Hf as (Hf & _). congruence.
    + split; [reflexivity | apply Hf].
  - intros n Hn. destruct (_current_cmd q) as [c |].
    + destruct Hf as (_ & Hexp & Hbuf). rewrite Hexp in Hn.
      split; [apply Hbuf, Hn | apply (cmd_len_bounds c n Hn)].
    + destruct Hf as (_ & Hexp). congruence.
Qed.

(** X12. The exceptions of [feed].  A newly constructed parser raises
    only in two situations: [ValueError] at a byte other than ETX where
    a frame has to close, and [RuntimeError] at the ETX that closes an R
    frame during a refresh.  The assertions and the length checks of the
    handlers never fail, and no [IndexError] or [KeyError] escapes.  The
    exception leaves the parser exactly as the bytes before the
    offending one made it: nothing of that byte is applied, and the
    parser is still inside the frame. *)
Theorem feed_exceptions (mode : RefreshMode) (data : list Z) (e : exn)
    (q : LawBridgeParser.t) :
  feed (new mode) data = Raised e q →
  ∃ pre b post,
    data = pre ++ b :: post
    ∧ feed (new mode) pre = Done q
    ∧ feed_byte q b = Raised e q
    ∧ _in_cmd q = true
    ∧ ((e = ValueError ∧ b ≠ ETX)
       ∨ (e = RuntimeError ∧ b = ETX ∧ state q = REFRESH
          ∧ _current_cmd q = Some cmd_R)).
Proof.
  intros H. pose proof (feed_ok data (new mode) (parser_ok_new mode)) as Hok.
  rewrite H in Hok. apply Hok.
Qed.

(** "A", then a D frame closed by "B". *)
Lemma feed_exceptions_witness :
  ∃ pre b post,
    [65; 2; 68; 66] = pre ++ b :: post
    ∧ feed (new BUFFER) pre
      = Done (final (feed (new BUFFER) [65; 2; 68]))
    ∧ feed_byte (final (feed (new BUFFER) [65; 2; 68])) b
      = Raised ValueError (final (feed (new BUFFER) [65; 2; 68]))
    ∧ _in_cmd (final (feed (new BUFFER) [65; 2; 68])) = true
    ∧ ((ValueError = ValueError ∧ b ≠ ETX)
       ∨ (ValueError = RuntimeError ∧ b = ETX
          ∧ state (final (feed (new BUFFER) [65; 2; 68])) = REFRESH
          ∧ _current_cmd (final (feed (new BUFFER) [65; 2; 68])) = Some cmd_R)).
Proof.
  apply (feed_exceptions BUFFER [65; 2; 68; 66] ValueError
           (final (feed (new BUFFER) [65; 2; 68]))).
  vm_compute. reflexivity.
Defined.

(** X13. A nested refresh wedges the parser.  After the [RuntimeError]
    that an R frame raises during a refresh, the parser is left inside
    that frame for good: every later non-empty [feed] raises at its first
    byte ([ValueError] for a byte other than ETX, [RuntimeError] again
    for ETX) and leaves the parser as it was, so no input can change the
    documents or end the refresh any more. *)
Theorem nested_refresh_wedges (p : LawBridgeParser.t) (payload bs : list Z) :
  state p = REFRESH → _in_cmd p = false → frame cmd_R payload = Ret bs →
  ∃ q, feed p bs = Raised RuntimeError q
       ∧ doc q = doc p
       ∧ ∀ b rest,
           feed q (b :: rest)
           = Raised (if b =? ETX then RuntimeError else ValueError) q.
Proof.
  intros Hst Hin Hf.
  rewrite (feed_frame p cmd_R payload bs Hin Hf).
  destruct (frame_inv _ _ _ Hf) as (n & Hn & Hlen & _).
  change (cmd_len cmd_R) with (Some 8) in *. injection Hn as <-.
  assert (Hd : ∀ q, state q = REFRESH →
                    _dispatch_cmd cmd_R payload q = Raised RuntimeError q).
  { intros q Hq. change (_dispatch_cmd cmd_R payload q)
      with (_on_refresh_begin payload q).
    unfold _on_refresh_begin. rewrite Hlen, Hq. reflexivity. }
  set (q := set_frame payload true (Some 8) (Some cmd_R) p).
  assert (Hq : state q = REFRESH) by exact Hst.
  rewrite (Hd q Hq). exists q. split; [reflexivity |]. split; [reflexivity |].
  intros b rest.
  change (feed q (b :: rest)) with (andthen (feed_byte q b) (fun p1 => feed p1 rest)).
  unfold feed_byte. simpl _in_cmd. simpl _current_cmd. simpl _expected_len.
  simpl _frame_buf. cbv iota. simpl negb at 1. cbv iota.
  destruct (Z.ltb_spec (len payload) 8); [lia |].
  destruct (b =? ETX); simpl negb; cbv iota.
  - rewrite (Hd q Hq). reflexivity.
  - reflexivity.
Qed.

(** An R frame fed twice, then "X" and an E frame. *)
Lemma nested_refresh_wedges_witness :
  ∃ q, feed (final (feed (new STREAM) R_0s_1s)) R_0s_1s = Raised RuntimeError q
       ∧ doc q = doc (final (feed (new STREAM) R_0s_1s))
       ∧ ∀ b rest,
           feed q (b :: rest)
           = Raised (if b =? ETX then RuntimeError else ValueError) q.
Proof.
  apply (nested_refresh_wedges (final (feed (new STREAM) R_0s_1s))
           [0; 0; 0; 0; 0; 0; 1; 0] R_0s_1s); reflexivity.
Defined.

(** ** What changes the state and the prevent-save flag *)

Section StateAndFlag.

Lemma on_target_state r f (p : LawBridgeParser.t) :
  state (final (on_target r f p)) = state p
  ∧ refresh_mode (final (on_target r f p)) = refresh_mode p.
Proof.
  unfold on_target. destruct r.
  - destruct (f (doc p)); split; reflexivity.
  - destruct (_refresh_buffer p) as [b |]; [| split; reflexivity].
    destruct (f b); split; reflexivity.
Qed.

Lemma in_target_state f (p : LawBridgeParser.t) :
  state (final (in_target f p)) = state p
  ∧ refresh_mode (final (in_target f p)) = refresh_mode p.
Proof.
  unfold in_target. destruct (state p) eqn:Hst.
  - rewrite <- Hst. apply on_target_state.
  - destruct (_refresh_target_doc p); [| auto].
    rewrite <- Hst. apply on_target_state.
Qed.

Lemma _dispatch_cmd_state (cmd : Z) (payload : list Z) (p : LawBridgeParser.t) :
  let q := final (_dispatch_cmd cmd payload p) in
  refresh_mode q = refresh_mode p
  ∧ (state q ≠ state p →
     (state p = NORMAL ∧ cmd = cmd_R) ∨ (state p = REFRESH ∧ cmd = cmd_E)).
Proof.
  unfold _dispatch_cmd.
  destruct (Z.eqb_spec cmd cmd_P) as [-> | _].
  { destruct (in_target_state (fun d => Ret (Document.on_page payload d)) p) as [H1 H2].
    split; [exact H2 | intros H; contradiction]. }
  destruct (Z.eqb_spec cmd cmd_N) as [-> | _].
  { destruct (in_target_state (Document.on_line payload) p) as [H1 H2].
    split; [exact H2 | intros H; contradiction]. }
  destruct (Z.eqb_spec cmd cmd_F) as [-> | _].
  { destruct (in_target_state (Document.on_format payload) p) as [H1 H2].
    split; [exact H2 | intros H; contradiction]. }
  destruct (Z.eqb_spec cmd cmd_T) as [-> | _].
  { unfold _on_timecode. destruct (Timecode.from_bytes payload) as [tc | e].
    - destruct (in_target_state (fun d => Ret (Document.on_timecode tc d)) p) as [H1 H2].
      split; [exact H2 | intros H; contradiction].
    - split; [reflexivity | intros H; contradiction]. }
  destruct (Z.eqb_spec cmd cmd_D) as [-> | _].
  { unfold _on_delete.
    destruct (state p) eqn:Hst; [| destruct (refresh_mode p) eqn:Hm];
      match goal with |- context [on_target ?r ?f p] =>
        destruct (on_target_state r f p) as [H1 H2] end;
      (split; [congruence | intros H; congruence]). }
  destruct (Z.eqb_spec cmd cmd_K) as [-> | _].
  { unfold _on_prevent_save.
    destruct (state p) eqn:Hst.
    - match goal with |- context [on_target ?r ?f p] =>
        destruct (on_target_state r f p) as [H1 H2] end.
      split; [exact H2 | intros H; congruence].
    - destruct (_refresh_target_doc p) as [r | e];
        [| simpl; split; [reflexivity | intros H; congruence]].
      match goal with |- context [on_target ?r ?f p] =>
        destruct (on_target_state r f p) as [H1 H2];
        destruct (on_target r f p) as [p1 | e p1] end; simpl in *.
      + destruct (deref r p1); simpl; (split; [exact H2 | intros H; congruence]).
      + split; [exact H2 | intros H; congruence]. }
  destruct (Z.eqb_spec cmd cmd_R) as [-> | _].
  { unfold _on_refresh_begin.
    destruct (negb (len payload =? 8)); [split; [reflexivity | intros H; contradiction] |].
    destruct (state p) eqn:Hst; simpl is_refresh; cbv iota;
      [| split; [reflexivity | intros H; simpl in H; congruence]].
    split; [| auto].
    destruct (Timecode.from_bytes (take 4 payload)) as [stc | e]; [| reflexivity].
    destruct (Timecode.from_bytes (drop 4 payload)) as [etc | e]; [| reflexivity].
    cbv zeta.
    destruct (_resolve_time_range stc etc _) as [[s_pos e_pos] | e]; [| reflexivity].
    simpl refresh_mode. destruct (refresh_mode p) eqn:Hm; simpl; exact Hm. }
  destruct (Z.eqb_spec cmd cmd_E) as [-> | _].
  { unfold _on_refresh_end.
    destruct (state p) eqn:Hst; [split; [reflexivity | intros H; contradiction] |].
    split; [| auto].
    destruct (refresh_mode p) eqn:Hm; [| simpl; exact Hm].
    destruct (_refresh_start_pos p); [| simpl; exact Hm].
    destruct (_refresh_end_pos p); [| simpl; exact Hm].
    destruct (_refresh_buffer p); simpl; exact Hm. }
  split; [reflexivity | intros H; contradiction].
Qed.

(** X14. The state machine.  No byte changes the refresh mode, and the
    state changes only at the closing ETX of a frame: from NORMAL to
    REFRESH at the end of an R frame, from REFRESH to NORMAL at the end
    of an E frame.  Text bytes, the frames of P, N, F, T, D and K,
    unknown frames and raising bytes leave the state as it is. *)
Theorem state_changes_only_at_R_and_E (p : LawBridgeParser.t) (b : Z) :
  let q := final (feed_byte p b) in
  refresh_mode q = refresh_mode p
  ∧ (state q ≠ state p →
     (state p = NORMAL ∧ state q = REFRESH ∧ dispatches cmd_R p b = true)
     ∨ (state p = REFRESH ∧ state q = NORMAL ∧ dispatches cmd_E p b = true)).
Proof.
  unfold feed_byte, dispatches.
  destruct (_in_cmd p); simpl negb; cbv iota.
  - destruct (_current_cmd p) as [cmd |];
      [| split; [reflexivity | intros H; contradiction]].
    destruct (_expected_len p) as [n |].
    + destruct (len (_frame_buf p) <? n);
        [split; [reflexivity | intros H; contradiction] |].
      destruct (b =? ETX); simpl negb; cbv iota;
        [| split; [reflexivity | intros H; contradiction]].
      pose proof (_dispatch_cmd_state cmd (_frame_buf p) p) as Hd.
      cbv zeta in Hd.
      destruct (_dispatch_cmd cmd (_frame_buf p) p) as [q | e q]; simpl in *.
      * destruct Hd as [Hm Hs]. split; [exact Hm |]. intros H.
        destruct (Hs H) as [[Hp ->] | [Hp ->]]; [left | right];
          (split; [exact Hp |]); (split; [| reflexivity]);
          destruct (state q); congruence.
      * destruct Hd as [Hm Hs]. split; [exact Hm |]. intros H.
        destruct (Hs H) as [[Hp ->] | [Hp ->]]; [left | right];
          (split; [exact Hp |]); (split; [| reflexivity]);
          destruct (state q); congruence.
    + destruct (b =? ETX); split; try reflexivity; intros H; contradiction.
  - destruct (b =? STX); [split; [reflexivity | intros H; contradiction] |].
    unfold _insert_text_bytes.
    destruct (state p) eqn:Hst; [| destruct (refresh_mode p) eqn:Hm];
      match goal with |- context [on_target ?r ?f p] =>
        destruct (on_target_state r f p) as [H1 H2] end;
      (split; [congruence | intros H; congruence]).
Qed.

Lemma on_target_flag r f (p : LawBridgeParser.t) :
  (∀ d d', f d = Ret d' → Document.prevent_save d = true →
           Document.prevent_save d' = true) →
  Document.prevent_save (doc p) = true →
  Document.prevent_save (doc (final (on_target r f p))) = true.
Proof.
  intros Hf Hp. unfold on_target. destruct r.
  - destruct (f (doc p)) as [d' | e] eqn:Hd; simpl; [| exact Hp].
    apply (Hf _ _ Hd Hp).
  - destruct (_refresh_buffer p) as [b |]; [| exact Hp].
    destruct (f b); exact Hp.
Qed.

Lemma in_target_flag f (p : LawBridgeParser.t) :
  (∀ d d', f d = Ret d' → Document.prevent_save d = true →
           Document.prevent_save d' = true) →
  Document.prevent_save (doc p) = true →
  Document.prevent_save (doc (final (in_target f p))) = true.
Proof.
  intros Hf Hp. unfold in_target. destruct (state p).
  - apply on_target_flag; assumption.
  - destruct (_refresh_target_doc p); [| exact Hp].
    apply on_target_flag; assumption.
Qed.

Lemma _insert_text_bytes_flag (bs : list Z) (p : LawBridgeParser.t) :
  Document.prevent_save (doc p) = true →
  Document.prevent_save (doc (final (_insert_text_bytes bs p))) = true.
Proof.
  intros Hp. unfold _insert_text_bytes.
  destruct (state p); [| destruct (refresh_mode p)];
    (apply on_target_flag; [| exact Hp]);
    intros d d' [= <-] H; rewrite insert_text_prevent_save; exact H.
Qed.

Lemma delete_range_prevent_save (a b : Z) (d : Document.t) :
  Document.prevent_save (Document.delete_range a b d) = Document.prevent_save d.
Proof. unfold Document.delete_range. destruct (_ <? _); reflexivity. Qed.

Lemma _dispatch_cmd_flag (cmd : Z) (payload : list Z) (p : LawBridgeParser.t) :
  let q := final (_dispatch_cmd cmd payload p) in
  Document.prevent_save (doc p) = true →
  Document.prevent_save (doc q) = false →
  state p = REFRESH ∧ refresh_mode p = BUFFER ∧ cmd = cmd_E.
Proof.
  intros q Hp. unfold q, _dispatch_cmd.
  assert (Hkeep : ∀ o, Document.prevent_save (doc (final o)) = true →
            Document.prevent_save (doc (final o)) = false →
            state p = REFRESH ∧ refresh_mode p = BUFFER ∧ cmd = cmd_E)
    by (intros o H1 H2; congruence).
  destruct (Z.eqb_spec cmd cmd_P) as [-> | _].
  { apply Hkeep, in_target_flag; [| exact Hp]. intros d d' [= <-] H. exact H. }
  destruct (Z.eqb_spec cmd cmd_N) as [-> | _].
  { apply Hkeep, in_target_flag; [| exact Hp].
    intros d d' H1 H2. rewrite (on_line_prevent_save _ _ _ H1). exact H2. }
  destruct (Z.eqb_spec cmd cmd_F) as [-> | _].
  { apply Hkeep, in_target_flag; [| exact Hp].
    intros d d' H1 H2. rewrite (on_format_prevent_save _ _ _ H1). exact H2. }
  destruct (Z.eqb_spec cmd cmd_T) as [-> | _].
  { apply Hkeep. unfold _on_timecode.
    destruct (Timecode.from_bytes payload); [| exact Hp].
    apply in_target_flag; [| exact Hp]. intros d d' [= <-] H. exact H. }
  destruct (Z.eqb_spec cmd cmd_D) as [-> | _].
  { apply Hkeep. unfold _on_delete.
    destruct (state p); [| destruct (refresh_mode p)];
      (apply on_target_flag; [| exact Hp]);
      intros d d' H1 H2; rewrite (delete_backspace_prevent_save _ _ _ H1); exact H2. }
  destruct (Z.eqb_spec cmd cmd_K) as [-> | _].
  { apply Hkeep. unfold _on_prevent_save.
    destruct (state p).
    - apply on_target_flag; [| exact Hp]. intros d d' [= <-] _. reflexivity.
    - destruct (_refresh_target_doc p) as [r | e]; [| exact Hp].
      unfold on_target. destruct r; simpl; [reflexivity |].
      destruct (_refresh_buffer p); simpl; [reflexivity | exact Hp]. }
  destruct (Z.eqb_spec cmd cmd_R) as [-> | _].
  { apply Hkeep. unfold _on_refresh_begin.
    destruct (negb (len payload =? 8)); [exact Hp |].
    destruct (is_refresh (state p)); [exact Hp |].
    destruct (Timecode.from_bytes (take 4 payload)) as [stc | e]; [| exact Hp].
    destruct (Timecode.from_bytes (drop 4 payload)) as [etc | e]; [| exact Hp].
    cbv zeta.
    destruct (_resolve_time_range stc etc _) as [[s_pos e_pos] | e]; [| exact Hp].
    simpl refresh_mode. destruct (refresh_mode p); simpl; [exact Hp |].
    rewrite delete_range_prevent_save. exact Hp. }
  destruct (Z.eqb_spec cmd cmd_E) as [-> | _].
  { unfold _on_refresh_end.
    destruct (state p); [intros H; simpl in H; congruence |].
    destruct (refresh_mode p); [auto |].
    intros H. simpl in H. congruence. }
  intros H. simpl in H. congruence.
Qed.

(** X15. Clearing the prevent-save flag.  Once the main document's
    [prevent_save] is set, the only byte that can clear it is the ETX
    that closes an E frame during a BUFFER-mode refresh (which assigns
    the scratch document's flag).  In particular a STREAM-mode parser
    never clears the flag. *)
Theorem prevent_save_cleared_only_at_buffer_E (p : LawBridgeParser.t) (b : Z) :
  let q := final (feed_byte p b) in
  Document.prevent_save (doc p) = true →
  Document.prevent_save (doc q) = false →
  state p = REFRESH ∧ refresh_mode p = BUFFER ∧ dispatches cmd_E p b = true.
Proof.
  intros q Hp. unfold q, feed_byte, dispatches.
  destruct (_in_cmd p); simpl negb; cbv iota.
  - destruct (_current_cmd p) as [cmd |]; [| simpl; congruence].
    destruct (_expected_len p) as [n |].
    + destruct (len (_frame_buf p) <? n); [simpl; congruence |].
      destruct (b =? ETX); simpl negb; cbv iota; [| simpl; congruence].
      pose proof (_dispatch_cmd_flag cmd (_frame_buf p) p) as Hd.
      cbv zeta in Hd.
      destruct (_dispatch_cmd cmd (_frame_buf p) p) as [q0 | e q0];
        simpl in *; intros Hq;
        destruct (Hd Hp Hq) as (Hst & Hm & ->); auto.
    + destruct (b =? ETX); simpl; congruence.
  - destruct (b =? STX); [simpl; congruence |].
    intros Hq. rewrite (_insert_text_bytes_flag [b] p Hp) in Hq. discriminate Hq.
Qed.

(** "A" and a K frame, then an R frame and the first two bytes of an E
    frame; the byte fed is the closing ETX. *)
Lemma prevent_save_cleared_only_at_buffer_E_witness :
  let p := final (feed (new BUFFER) ([65; 2; 75; 3] ++ R_0s_1s ++ [2; 69])) in
  state p = REFRESH ∧ refresh_mode p = BUFFER ∧ dispatches cmd_E p ETX = true.
Proof.
  intros p.
  apply (prevent_save_cleared_only_at_buffer_E p ETX); vm_compute; reflexivity.
Defined.

End StateAndFlag.

(** ** The scratch document of a BUFFER-mode refresh *)

Section ScratchDocument.

Lemma scratch_sim_set_frame buf inc exp cmd (pB n : LawBridgeParser.t) :
  scratch_sim pB n →
  scratch_sim (set_frame buf inc exp cmd pB) (set_frame buf inc exp cmd n).
Proof.
  intros (HstB & HmB & Hst & _ & _ & _ & _ & Hbuf).
  repeat (split; [assumption || reflexivity |]). exact Hbuf.
Qed.

Lemma scratch_sim_docs (pB n : LawBridgeParser.t) (dB d : Document.t) :
  scratch_sim pB n →
  scratch_sim (set_doc dB (set_buffer (Some d) pB)) (set_doc d n).
Proof.
  intros (HstB & HmB & Hst & Hfb & Hic & Hel & Hcc & Hbuf).
  repeat (split; [assumption || reflexivity |]). reflexivity.
Qed.

(** A handler that returns during a BUFFER-mode refresh and leaves the
    parser in REFRESH does to the scratch document what it does in
    NORMAL to the main document. *)
Lemma scratch_sim_dispatch (cmd : Z) (payload : list Z)
    (pB n qB : LawBridgeParser.t) :
  scratch_sim pB n →
  _dispatch_cmd cmd payload pB = Done qB → state qB = REFRESH →
  ∃ n', _dispatch_cmd cmd payload n = Done n' ∧ scratch_sim qB n'.
Proof.
  intros Hsim. pose proof Hsim as
    (HstB & HmB & Hst & Hfb & Hic & Hel & Hcc & Hbuf).
  unfold _dispatch_cmd.
  destruct (Z.eqb_spec cmd cmd_P) as [-> | _].
  { unfold _on_page, in_target, _refresh_target_doc, on_target.
    rewrite HstB, Hst, HmB, Hbuf. intros [= <-] _.
    eexists. split; [reflexivity |]. apply (scratch_sim_docs pB n (doc pB) _ Hsim). }
  destruct (Z.eqb_spec cmd cmd_N) as [-> | _].
  { unfold _on_line, in_target, _refresh_target_doc, on_target.
    rewrite HstB, Hst, HmB, Hbuf.
    destruct (Document.on_line payload (doc n)) as [d |]; [| discriminate].
    intros [= <-] _.
    eexists. split; [reflexivity |]. apply (scratch_sim_docs pB n (doc pB) _ Hsim). }
  destruct (Z.eqb_spec cmd cmd_F) as [-> | _].
  { unfold _on_format, in_target, _refresh_target_doc, on_target.
    rewrite HstB, Hst, HmB, Hbuf.
    destruct (Document.on_format payload (doc n)) as [d |]; [| discriminate].
    intros [= <-] _.
    eexists. split; [reflexivity |]. apply (scratch_sim_docs pB n (doc pB) _ Hsim). }
  destruct (Z.eqb_spec cmd cmd_T) as [-> | _].
  { unfold _on_timecode.
    destruct (Timecode.from_bytes payload) as [tc | err]; [| discriminate].
    unfold in_target, _refresh_target_doc, on_target.
    rewrite HstB, Hst, HmB, Hbuf. intros [= <-] _.
    eexists. split; [reflexivity |]. apply (scratch_sim_docs pB n (doc pB) _ Hsim). }
  destruct (Z.eqb_spec cmd cmd_D) as [-> | _].
  { unfold _on_delete, on_target. rewrite HstB, Hst, HmB, Hbuf.
    destruct (Document.delete_backspace 0 (doc n)) as [d |]; [| discriminate].
    intros [= <-] _.
    eexists. split; [reflexivity |]. apply (scratch_sim_docs pB n (doc pB) _ Hsim). }
  destruct (Z.eqb_spec cmd cmd_K) as [-> | _].
  { unfold _on_prevent_save, _refresh_target_doc, on_target.
    rewrite HstB, Hst, HmB, Hbuf. simpl. intros [= <-] _.
    eexists. split; [reflexivity |].
    match goal with |- scratch_sim (set_doc ?dB (set_buffer (Some ?d) pB)) _ =>
      apply (scratch_sim_docs pB n dB d Hsim) end. }
  destruct (Z.eqb_spec cmd cmd_R) as [-> | _].
  { unfold _on_refresh_begin. destruct (negb _); [discriminate |].
    rewrite HstB. discriminate. }
  destruct (Z.eqb_spec cmd cmd_E) as [-> | _].
  { unfold _on_refresh_end. rewrite HstB, HmB.
    destruct (_refresh_start_pos pB); [| discriminate].
    destruct (_refresh_end_pos pB); [| discriminate].
    rewrite Hbuf. intros [= <-]. simpl. discriminate. }
  unfold _handle_unknown. intros [= <-] _. exists n. split; [reflexivity | exact Hsim].
Qed.

Lemma scratch_sim_feed_byte (pB n qB : LawBridgeParser.t) (b : Z) :
  scratch_sim pB n →
  feed_byte pB b = Done qB → state qB = REFRESH →
  ∃ n', feed_byte n b = Done n' ∧ scratch_sim qB n'.
Proof.
  intros Hsim. pose proof Hsim as
    (HstB & HmB & Hst & Hfb & Hic & Hel & Hcc & Hbuf).
  unfold feed_byte. rewrite Hic, Hcc, Hel, Hfb.
  destruct (_in_cmd pB); simpl negb; cbv iota.
  - destruct (_current_cmd pB) as [cmd |].
    + destruct (_expected_len pB) as [k |].
      * destruct (len (_frame_buf pB) <? k).
        { intros [= <-] _. eexists. split; [reflexivity |].
          apply scratch_sim_set_frame, Hsim. }
        destruct (b =? ETX); simpl negb; cbv iota; [| discriminate].
        destruct (_dispatch_cmd cmd (_frame_buf pB) pB) as [q0 | err q0] eqn:Hdisp;
          cbn [andthen]; [| discriminate].
        intros [= <-] Hq.
        destruct (scratch_sim_dispatch cmd (_frame_buf pB) pB n q0 Hsim Hdisp Hq)
          as (n0 & -> & Hsim').
        eexists. split; [reflexivity |]. apply scratch_sim_set_frame, Hsim'.
      * destruct (b =? ETX); cbn [andthen _handle_unknown];
          intros [= <-] _; (eexists; split; [reflexivity |]);
          apply scratch_sim_set_frame, Hsim.
    + intros [= <-] _. eexists. split; [reflexivity |].
      apply scratch_sim_set_frame, Hsim.
  - destruct (b =? STX).
    + intros [= <-] _. eexists. split; [reflexivity |].
      apply scratch_sim_set_frame, Hsim.
    + unfold _insert_text_bytes, on_target.
      rewrite HstB, Hst, HmB, Hbuf. intros [= <-] _.
      eexists. split; [reflexivity |].
      apply (scratch_sim_docs pB n (doc pB) _ Hsim).
Qed.

Lemma scratch_sim_run (data : list Z) (pB n : LawBridgeParser.t) :
  scratch_sim pB n → stays_in_refresh pB data = true →
  ∃ qB n', feed pB data = Done qB ∧ feed n data = Done n'
           ∧ scratch_sim qB n'.
Proof.
  revert pB n. induction data as [| b rest IH]; intros pB n Hsim Hstay.
  - exists pB, n. auto.
  - simpl in Hstay. simpl feed.
    destruct (feed_byte pB b) as [qB | err qB] eqn:Hb; [| discriminate].
    apply andb_true_iff in Hstay. destruct Hstay as [Hq Hrest].
    assert (Hst : state qB = REFRESH)
      by (destruct (state qB); [discriminate | reflexivity]).
    destruct (scratch_sim_feed_byte pB n qB b Hsim Hb Hst) as (n' & -> & Hsim').
    cbn [andthen]. apply (IH qB n' Hsim' Hrest).
Qed.

(** A frame that was fed completely leaves the frame parse at rest. *)
Lemma feed_frame_at_rest (p q : LawBridgeParser.t) (cmd : Z) (payload bs : list Z) :
  _in_cmd p = false → frame cmd payload = Ret bs → feed p bs = Done q →
  _frame_buf q = [] ∧ _in_cmd q = false
  ∧ _expected_len q = None ∧ _current_cmd q = None.
Proof.
  intros Hin Hf. rewrite (feed_frame p cmd payload bs Hin Hf).
  destruct (_dispatch_cmd cmd payload _); cbn [andthen]; [| discriminate].
  intros [= <-]. repeat split.
Qed.

(** The content of a BUFFER-mode refresh builds, in the scratch
    document, the document that the same bytes build in a new parser. *)
Lemma scratch_document_run (p1 : LawBridgeParser.t) (data : list Z) :
  state p1 = REFRESH → refresh_mode p1 = BUFFER →
  _frame_buf p1 = [] → _in_cmd p1 = false →
  _expected_len p1 = None → _current_cmd p1 = None →
  _refresh_buffer p1 = Some (Document.set_insertion 0 Document.new) →
  stays_in_refresh p1 data = true →
  ∃ p2 n, feed p1 data = Done p2 ∧ feed (new BUFFER) data = Done n
          ∧ state n = NORMAL
          ∧ _refresh_buffer p2 = Some (doc n).
Proof.
  intros Hst Hm Hfb Hic Hel Hcc Hbuf Hstay.
  assert (Hsim : scratch_sim p1 (new BUFFER)).
  { repeat (split; [assumption || (symmetry; assumption) || reflexivity |]).
    exact Hbuf. }
  destruct (scratch_sim_run data p1 (new BUFFER) Hsim Hstay)
    as (p2 & n & Hp2 & Hn & (_ & _ & Hstn & _ & _ & _ & _ & Hb2)).
  exists p2, n. auto.
Qed.

(** Plain text fed to a parser in NORMAL. *)
Lemma feed_text_normal (s : list Z) (p : LawBridgeParser.t) :
  state p = NORMAL → _in_cmd p = false → Forall (fun b => b ≠ STX) s →
  feed p s = Done (set_doc (Document.insert_text (decode_replace s) (doc p)) p).
Proof.
  intros Hst Hin Hs. revert p Hst Hin.
  induction Hs as [| b s Hb Hs IH]; intros p Hst Hin.
  - destruct p; reflexivity.
  - change (feed p (b :: s)) with (andthen (feed_byte p b) (fun p1 => feed p1 s)).
    rewrite feed_byte_main_text by (auto || assumption). cbn [andthen].
    rewrite IH by assumption.
    change (decode_replace (b :: s)) with (decode_replace [b] ++ decode_replace s).
    rewrite insert_text_concat. reflexivity.
Qed.

Lemma feed_text_new (s : list Z) :
  Forall (fun b => b ≠ STX) s →
  Document._chars (doc (final (feed (new BUFFER) s))) = decode_replace s.
Proof.
  intros Hs. rewrite (feed_text_normal s (new BUFFER)) by (reflexivity || exact Hs).
  simpl final. simpl doc. rewrite insert_text_chars by apply wf_new.
  simpl. apply app_nil_r.
Qed.

End ScratchDocument.

(** C2. BUFFER-mode refresh is an atomic replacement.  Take a parser in
    NORMAL and BUFFER mode with no frame open and main-document
    characters [old]; feed it a valid R frame whose timecodes resolve to
    [(start_pos, end_pos)], then any bytes that raise nothing and keep
    the parser in REFRESH (the refresh content) and end outside a frame,
    then an E frame.  The text [X] that the content accumulates to is the
    text the same bytes build in a new document: it is what a new parser
    holds after them, and for content without frames it is the decoded
    content itself.  All three calls return; when the E arrives the
    scratch document is that document, with text [X]; and afterwards the
    main document's characters are [old[0:start_pos] ++ X ++
    old[end_pos:]], so that
    [length_after = length_before - (end_pos - start_pos) + len(X)]. *)
Theorem buffer_refresh_atomic_replacement
    (p : LawBridgeParser.t) (payload bs : list Z) (stc etc : Timecode.t)
    (start_pos end_pos : Z) (data ebs : list Z) :
  state p = NORMAL → refresh_mode p = BUFFER → _in_cmd p = false →
  frame cmd_R payload = Ret bs →
  Timecode.from_bytes (take 4 payload) = Ret stc →
  Timecode.from_bytes (drop 4 payload) = Ret etc →
  _resolve_time_range stc etc p = Ret (start_pos, end_pos) →
  frame cmd_E [] = Ret ebs →
  stays_in_refresh (final (feed p bs)) data = true →
  _in_cmd (final (feed (final (feed p bs)) data)) = false →
  let old := Document._chars (doc p) in
  let X := Document._chars (doc (final (feed (new BUFFER) data))) in
  (Forall (fun b => b ≠ STX) data → X = decode_replace data)
  ∧ ∃ p2 scratch q,
      feed p (bs ++ data) = Done p2
      ∧ _refresh_buffer p2 = Some scratch
      ∧ scratch = doc (final (feed (new BUFFER) data))
      ∧ Document.text scratch = X
      ∧ feed p (bs ++ data ++ ebs) = Done q
      ∧ Document._chars (doc q)
        = take (Z.to_nat start_pos) old ++ X ++ drop (Z.to_nat end_pos) old
      ∧ Document.length (doc q)
        = Document.length (doc p) - (end_pos - start_pos) + len X.
Proof.
  intros Hst Hm Hin Hf Hstc Hetc Hres Hfe Hstay Hin2 old X.
  split; [intros Hs; apply feed_text_new, Hs |].
  destruct (feed_R_frame p payload bs stc etc start_pos end_pos
              Hst Hin Hf Hstc Hetc Hres)
    as (p1 & Hp1 & Hst1 & Hm1 & Hin1 & _ & _ & Hbuffer & _).
  rewrite Hm in Hm1. destruct (Hbuffer Hm) as [_ Hbuf1].
  destruct (feed_frame_at_rest p p1 cmd_R payload bs Hin Hf Hp1)
    as (Hfb1 & _ & Hel1 & Hcc1).
  pose proof Hstay as Hstay1. rewrite Hp1 in Hstay1. simpl final in Hstay1.
  destruct (scratch_document_run p1 data Hst1 Hm1 Hfb1 Hin1 Hel1 Hcc1 Hbuf1 Hstay1)
    as (p2 & n & Hp2 & Hn & _ & Hb2).
  destruct (buffered_refresh p payload bs stc etc start_pos end_pos data ebs
              Hst Hm Hin Hf Hstc Hetc Hres Hfe Hstay Hin2)
    as (p1' & p2' & buf & q & Hp1' & Hp2' & Hbuf' & _ & Hq & _ & Hchars & _).
  rewrite Hp1 in Hp1'. injection Hp1' as <-.
  rewrite Hp2 in Hp2'. injection Hp2' as <-.
  rewrite Hb2 in Hbuf'. injection Hbuf' as <-.
  assert (Hdn : doc n = doc (final (feed (new BUFFER) data)))
    by (rewrite Hn; reflexivity).
  assert (Hrun : feed p (bs ++ data) = Done p2).
  { rewrite feed_app, Hp1. exact Hp2. }
  assert (HX : Document.text (doc n) = X).
  { unfold X. rewrite <- Hdn. reflexivity. }
  rewrite HX in Hchars.
  exists p2, (doc n), q.
  split; [exact Hrun |]. split; [exact Hb2 |]. split; [exact Hdn |].
  split; [exact HX |].
  split; [rewrite app_assoc, feed_app, Hrun; exact Hq |].
  split; [exact Hchars |].
  unfold Document.length. rewrite Hchars. unfold old.
  destruct (_resolve_time_range_bounds stc etc p) as (s & e & Hres' & Hse & Hel).
  rewrite Hres in Hres'. injection Hres' as <- <-.
  rewrite !len_app, len_take, len_drop by lia. lia.
Qed.

(** The third scenario of the protocol description: "AA", T at 0, "BB",
    T at one second, "CC"; then R over that second, "XYZ", E.  The
    resolved range is [2, 4), the content accumulates to "XYZ", and the
    text becomes "AAXYZCC". *)
Lemma buffer_refresh_atomic_replacement_witness :
  let p := final (feed (new BUFFER)
             [65; 65; 2; 84; 0; 0; 0; 0; 3; 66; 66; 2; 84; 0; 0; 1; 0; 3; 67; 67]) in
  (Forall (fun b => b ≠ STX) [88; 89; 90]
   → Document._chars (doc (final (feed (new BUFFER) [88; 89; 90])))
     = decode_replace [88; 89; 90])
  ∧ ∃ p2 scratch q,
      feed p ([2; 82; 0; 0; 0; 0; 0; 0; 1; 0; 3] ++ [88; 89; 90]) = Done p2
      ∧ _refresh_buffer p2 = Some scratch
      ∧ scratch = doc (final (feed (new BUFFER) [88; 89; 90]))
      ∧ Document.text scratch = [88; 89; 90]
      ∧ feed p ([2; 82; 0; 0; 0; 0; 0; 0; 1; 0; 3] ++ [88; 89; 90] ++ [2; 69; 3]) = Done q
      ∧ Document._chars (doc q) = [65; 65] ++ [88; 89; 90] ++ [67; 67]
      ∧ Document.length (doc q) = 6 - (4 - 2) + 3.
Proof.
  intros p.
  apply (buffer_refresh_atomic_replacement p
           [0; 0; 0; 0; 0; 0; 1; 0] [2; 82; 0; 0; 0; 0; 0; 0; 1; 0; 3]
           (Timecode.mk 0 0 0 0) (Timecode.mk 0 0 1 0) 2 4
           [88; 89; 90] [2; 69; 3]);
    vm_compute; reflexivity.
Defined.

(** ** BUFFER mode against STREAM mode *)

Section ModeEquivalence.

Lemma take_mid {A} (a cb c : list A) (s i : Z) :
  len a = s → 0 <= i <= len cb →
  take (Z.to_nat (s + i)) (a ++ cb ++ c) = a ++ take (Z.to_nat i) cb.
Proof.
  unfold len. intros Hs Hi.
  replace (Z.to_nat (s + i)) with (length a + Z.to_nat i)%nat by lia.
  rewrite take_app_add. f_equal. apply take_app_le. lia.
Qed.

Lemma drop_mid {A} (a cb c : list A) (s i : Z) :
  len a = s → 0 <= i <= len cb →
  drop (Z.to_nat (s + i)) (a ++ cb ++ c) = drop (Z.to_nat i) cb ++ c.
Proof.
  unfold len. intros Hs Hi.
  replace (Z.to_nat (s + i)) with (length a + Z.to_nat i)%nat by lia.
  rewrite drop_app_add. apply drop_app_le. lia.
Qed.

Lemma doc_sim_wf (s e : Z) (dB buf dS : Document.t) :
  doc_sim s e dB buf dS → Document.wf dS.
Proof.
  intros (Hwf & Hse & He & Hc & Hi). unfold Document.wf in *.
  rewrite Hc, Hi, !len_app, len_take by lia.
  pose proof (len_nonneg (drop (Z.to_nat e) (Document._chars dB))). lia.
Qed.

Lemma doc_sim_ext (s e : Z) (dB buf dS dB' buf' dS' : Document.t) :
  doc_sim s e dB buf dS →
  Document._chars dB' = Document._chars dB →
  Document._chars buf' = Document._chars buf →
  Document._insertion buf' = Document._insertion buf →
  Document._chars dS' = Document._chars dS →
  Document._insertion dS' = Document._insertion dS →
  doc_sim s e dB' buf' dS'.
Proof.
  unfold doc_sim, Document.wf. intros (Hwf & Hse & He & Hc & Hi) -> -> -> -> ->.
  auto.
Qed.

Lemma doc_sim_insert (s e : Z) (t : list Z) (dB buf dS : Document.t) :
  doc_sim s e dB buf dS →
  doc_sim s e dB (Document.insert_text t buf) (Document.insert_text t dS).
Proof.
  intros H. pose proof (doc_sim_wf _ _ _ _ _ H) as HwfS.
  destruct H as (Hwf & Hse & He & Hc & Hi).
  split; [apply wf_insert_text; exact Hwf |].
  split; [exact Hse |]. split; [exact He |].
  rewrite !insert_text_chars, !insert_text_insertion by assumption.
  split; [| lia].
  assert (Ha : len (take (Z.to_nat s) (Document._chars dB)) = s)
    by (apply len_take; lia).
  rewrite Hc, Hi.
  rewrite (take_mid _ _ _ s _ Ha), (drop_mid _ _ _ s _ Ha) by exact Hwf.
  rewrite <- !app_assoc. reflexivity.
Qed.

Lemma doc_sim_delete (s e : Z) (dB buf dS : Document.t) :
  doc_sim s e dB buf dS →
  ∃ buf' dS',
    Document.delete_backspace 0 buf = Ret buf'
    ∧ Document.delete_backspace s dS = Ret dS'
    ∧ doc_sim s e dB buf' dS'.
Proof.
  intros H. pose proof (doc_sim_wf _ _ _ _ _ H) as HwfS.
  destruct H as (Hwf & Hse & He & Hc & Hi).
  destruct (decide (0 < Document._insertion buf)) as [Hpos | Hzero].
  - eexists _, _.
    split; [apply delete_backspace_removes; [exact Hwf | exact Hpos | exact Hpos] |].
    split; [apply delete_backspace_removes; [exact HwfS | lia | lia] |].
    unfold Document.wf in Hwf.
    split.
    { unfold Document.wf. simpl. rewrite len_app, len_take, len_drop by lia. lia. }
    split; [exact Hse |]. split; [exact He |]. simpl.
    split; [| lia].
    assert (Ha : len (take (Z.to_nat s) (Document._chars dB)) = s)
      by (apply len_take; lia).
    rewrite Hc, Hi.
    replace (s + Document._insertion buf - 1)
      with (s + (Document._insertion buf - 1)) by lia.
    rewrite (take_mid _ _ _ s _ Ha), (drop_mid _ _ _ s _ Ha) by lia.
    rewrite <- !app_assoc. reflexivity.
  - exists buf, dS.
    split; [apply delete_backspace_noop; lia |].
    split; [apply delete_backspace_noop; unfold Document.wf in Hwf; lia |].
    repeat split; assumption || apply Hwf || lia.
Qed.


Lemma refresh_sim_set_frame buf inc exp cmd (pB pS : LawBridgeParser.t) :
  refresh_sim pB pS →
  refresh_sim (set_frame buf inc exp cmd pB) (set_frame buf inc exp cmd pS).
Proof.
  intros (HstB & HstS & HmB & HmS & _ & _ & _ & _ & Hrest).
  repeat (split; [assumption || reflexivity |]). exact Hrest.
Qed.

Lemma refresh_sim_docs (pB pS : LawBridgeParser.t) (s e : Z)
    (dB' buf' dS' : Document.t) :
  refresh_sim pB pS →
  _refresh_start_pos pB = Some s → _refresh_end_pos pB = Some e →
  doc_sim s e dB' buf' dS' →
  refresh_sim (set_doc dB' (set_buffer (Some buf') pB)) (set_doc dS' pS).
Proof.
  intros (HstB & HstS & HmB & HmS & Hfb & Hic & Hel & Hcc
          & s0 & e0 & buf & Hs0 & He0 & Hbuf & Hlb & Hd) Hs He Hd'.
  rewrite Hs in Hs0. rewrite He in He0. injection Hs0 as <-. injection He0 as <-.
  repeat (split; [assumption || reflexivity |]).
  exists s, e, buf'. repeat (split; [assumption || reflexivity |]). exact Hd'.
Qed.

(** A handler that returns in BUFFER mode and leaves the parser in
    REFRESH returns in STREAM mode too, and the two parsers still
    correspond. *)
Lemma refresh_sim_dispatch (cmd : Z) (payload : list Z)
    (pB pS qB : LawBridgeParser.t) :
  refresh_sim pB pS →
  _dispatch_cmd cmd payload pB = Done qB → state qB = REFRESH →
  ∃ qS, _dispatch_cmd cmd payload pS = Done qS ∧ refresh_sim qB qS.
Proof.
  intros (HstB & HstS & HmB & HmS & Hfb & Hic & Hel & Hcc
          & s & e & buf & Hs & He & Hbuf & Hlb & Hd).
  assert (Hfin : ∀ dB' buf' dS',
            doc_sim s e dB' buf' dS' →
            refresh_sim (set_doc dB' (set_buffer (Some buf') pB)) (set_doc dS' pS)).
  { intros dB' buf' dS' Hd'.
    repeat (split; [assumption || reflexivity |]).
    exists s, e, buf'. repeat (split; [assumption || reflexivity |]). exact Hd'. }
  unfold _dispatch_cmd.
  destruct (Z.eqb_spec cmd cmd_P) as [-> | _].
  { unfold _on_page, in_target, _refresh_target_doc, on_target.
    rewrite HstB, HstS, HmB, HmS, Hbuf. intros [= <-] _.
    eexists. split; [reflexivity |].
    apply (Hfin (doc pB)). eapply doc_sim_ext; [exact Hd | reflexivity ..]. }
  destruct (Z.eqb_spec cmd cmd_N) as [-> | _].
  { unfold _on_line, in_target, _refresh_target_doc, on_target.
    rewrite HstB, HstS, HmB, HmS, Hbuf.
    destruct payload as [| x payload]; simpl; [discriminate |].
    intros [= <-] _. eexists. split; [reflexivity |].
    apply (Hfin (doc pB)). eapply doc_sim_ext; [exact Hd | reflexivity ..]. }
  destruct (Z.eqb_spec cmd cmd_F) as [-> | _].
  { unfold _on_format, in_target, _refresh_target_doc, on_target.
    rewrite HstB, HstS, HmB, HmS, Hbuf.
    destruct payload as [| x payload]; simpl; [discriminate |].
    intros [= <-] _. eexists. split; [reflexivity |].
    apply (Hfin (doc pB)). eapply doc_sim_ext; [exact Hd | reflexivity ..]. }
  destruct (Z.eqb_spec cmd cmd_T) as [-> | _].
  { unfold _on_timecode.
    destruct (Timecode.from_bytes payload) as [tc | err]; [| discriminate].
    unfold in_target, _refresh_target_doc, on_target.
    rewrite HstB, HstS, HmB, HmS, Hbuf. intros [= <-] _.
    eexists. split; [reflexivity |].
    apply (Hfin (doc pB)). eapply doc_sim_ext; [exact Hd | reflexivity ..]. }
  destruct (Z.eqb_spec cmd cmd_D) as [-> | _].
  { unfold _on_delete, on_target.
    rewrite HstB, HstS, HmB, HmS, Hbuf, Hlb.
    destruct (doc_sim_delete s e (doc pB) buf (doc pS) Hd)
      as (buf' & dS' & -> & -> & Hd').
    intros [= <-] _. eexists. split; [reflexivity |].
    apply (Hfin (doc pB)). exact Hd'. }
  destruct (Z.eqb_spec cmd cmd_K) as [-> | _].
  { unfold _on_prevent_save, _refresh_target_doc, on_target.
    rewrite HstB, HstS, HmB, HmS, Hbuf. simpl. intros [= <-] _.
    eexists. split; [reflexivity |].
    match goal with |- refresh_sim (set_doc ?dB' (set_buffer (Some ?b') pB)) _ =>
      apply (Hfin dB' b') end.
    eapply doc_sim_ext; [exact Hd | reflexivity ..]. }
  destruct (Z.eqb_spec cmd cmd_R) as [-> | _].
  { unfold _on_refresh_begin. destruct (negb _); [discriminate |].
    rewrite HstB. discriminate. }
  destruct (Z.eqb_spec cmd cmd_E) as [-> | _].
  { unfold _on_refresh_end. rewrite HstB, HmB, Hs, He, Hbuf.
    intros [= <-]. simpl. discriminate. }
  unfold _handle_unknown. intros [= <-] _. exists pS. split; [reflexivity |].
  repeat (split; [assumption |]). exists s, e, buf. auto 10.
Qed.


Lemma refresh_sim_feed_byte (pB pS qB : LawBridgeParser.t) (b : Z) :
  refresh_sim pB pS →
  feed_byte pB b = Done qB → state qB = REFRESH →
  ∃ qS, feed_byte pS b = Done qS ∧ refresh_sim qB qS.
Proof.
  intros Hsim. pose proof Hsim as
    (HstB & HstS & HmB & HmS & Hfb & Hic & Hel & Hcc
     & s & e & buf & Hs & He & Hbuf & Hlb & Hd).
  unfold feed_byte. rewrite Hic, Hcc, Hel, Hfb.
  destruct (_in_cmd pB); simpl negb; cbv iota.
  - destruct (_current_cmd pB) as [cmd |].
    + destruct (_expected_len pB) as [n |].
      * destruct (len (_frame_buf pB) <? n).
        { intros [= <-] _. eexists. split; [reflexivity |].
          apply refresh_sim_set_frame, Hsim. }
        destruct (b =? ETX); simpl negb; cbv iota; [| discriminate].
        destruct (_dispatch_cmd cmd (_frame_buf pB) pB) as [q0 | err q0] eqn:Hdisp;
          cbn [andthen]; [| discriminate].
        intros [= <-] Hq.
        destruct (refresh_sim_dispatch cmd (_frame_buf pB) pB pS q0 Hsim Hdisp Hq)
          as (qS0 & -> & Hsim').
        eexists. split; [reflexivity |]. apply refresh_sim_set_frame, Hsim'.
      * destruct (b =? ETX); cbn [andthen _handle_unknown];
          intros [= <-] _; (eexists; split; [reflexivity |]);
          apply refresh_sim_set_frame, Hsim.
    + intros [= <-] _. eexists. split; [reflexivity |].
      apply refresh_sim_set_frame, Hsim.
  - destruct (b =? STX).
    + intros [= <-] _. eexists. split; [reflexivity |].
      apply refresh_sim_set_frame, Hsim.
    + unfold _insert_text_bytes, on_target.
      rewrite HstB, HstS, HmB, HmS, Hbuf. intros [= <-] _.
      eexists. split; [reflexivity |].
      apply (refresh_sim_docs pB pS s e (doc pB) _ _ Hsim Hs He).
      apply doc_sim_insert, Hd.
Qed.

Lemma refresh_sim_run (data : list Z) (pB pS : LawBridgeParser.t) :
  refresh_sim pB pS → stays_in_refresh pB data = true →
  ∃ qB qS, feed pB data = Done qB ∧ feed pS data = Done qS
           ∧ refresh_sim qB qS.
Proof.
  revert pB pS. induction data as [| b rest IH]; intros pB pS Hsim Hstay.
  - exists pB, pS. auto.
  - simpl in Hstay. simpl feed.
    destruct (feed_byte pB b) as [qB | err qB] eqn:Hb; [| discriminate].
    apply andb_true_iff in Hstay. destruct Hstay as [Hq Hrest].
    assert (Hst : state qB = REFRESH)
      by (destruct (state qB); [discriminate | reflexivity]).
    destruct (refresh_sim_feed_byte pB pS qB b Hsim Hb Hst) as (qS & -> & Hsim').
    cbn [andthen]. apply (IH qB qS Hsim' Hrest).
Qed.

(** The same R frame, fed to a parser in NORMAL once in each mode. *)
Lemma refresh_sim_begin (p : LawBridgeParser.t) (payload bs : list Z) :
  state p = NORMAL → _in_cmd p = false → frame cmd_R payload = Ret bs →
  ∃ qB qS s e,
    feed (with_refresh_mode BUFFER p) bs = Done qB
    ∧ feed (with_refresh_mode STREAM p) bs = Done qS
    ∧ refresh_sim qB qS
    ∧ doc qB = doc p ∧ _in_cmd qB = false
    ∧ _refresh_start_pos qB = Some s ∧ _refresh_end_pos qB = Some e
    ∧ _refresh_buffer qB = Some (Document.set_insertion 0 Document.new)
    ∧ ∀ stc etc,
        Timecode.from_bytes (take 4 payload) = Ret stc →
        Timecode.from_bytes (drop 4 payload) = Ret etc →
        _resolve_time_range stc etc p = Ret (s, e).
Proof.
  intros Hst Hin Hf.
  rewrite (feed_frame (with_refresh_mode BUFFER p) cmd_R payload bs Hin Hf).
  rewrite (feed_frame (with_refresh_mode STREAM p) cmd_R payload bs Hin Hf).
  rewrite !_dispatch_cmd_set_frame.
  destruct (frame_inv _ _ _ Hf) as (n & Hn & Hlen & _).
  change (cmd_len cmd_R) with (Some 8) in *. injection Hn as <-.
  change (_dispatch_cmd cmd_R payload ?q) with (_on_refresh_begin payload q).
  unfold _on_refresh_begin. rewrite Hlen. simpl negb. cbv iota.
  simpl state. rewrite Hst. simpl is_refresh. cbv iota.
  destruct (len_8_inv payload Hlen)
    as (a0 & a1 & a2 & a3 & b0 & b1 & b2 & b3 & ->).
  simpl take. simpl drop. simpl Timecode.from_bytes. cbv iota zeta.
  set (stc := Timecode.mk a0 a1 a2 a3). set (etc := Timecode.mk b0 b1 b2 b3).
  rewrite (_resolve_time_range_doc stc etc
             (set_end_tc (Some etc) (set_start_tc (Some stc) (with_refresh_mode BUFFER p)))
             p) by reflexivity.
  rewrite (_resolve_time_range_doc stc etc
             (set_end_tc (Some etc) (set_start_tc (Some stc) (with_refresh_mode STREAM p)))
             p) by reflexivity.
  destruct (_resolve_time_range_bounds stc etc p) as (s & e & Hres & Hse & Hel).
  rewrite Hres.
  destruct (delete_range_set_insertion s e (doc p) Hse Hel) as (Hc & Hi & _).
  simpl refresh_mode. cbv iota. cbn [with_frame andthen].
  eexists _, _, s, e. split; [reflexivity |]. split; [reflexivity |].
  split; [| repeat split; intros stc' etc' [= <-] [= <-]; exact Hres].
  repeat (split; [reflexivity |]).
  exists s, e. eexists. repeat (split; [reflexivity |]).
  split; [apply wf_set_insertion |]. split; [exact Hse |]. split; [exact Hel |].
  simpl doc. rewrite Hc, Hi. split; [reflexivity |].
  unfold Document.set_insertion, Document.new, clamp, len. simpl. lia.
Qed.

(** The main document after the E of a BUFFER-mode refresh. *)
Lemma buffer_replace_text (s e : Z) (d buf : Document.t) :
  0 <= s <= e → e <= len (Document._chars d) →
  let d' := Document.insert_text (Document.text buf)
              (Document.set_insertion s (Document.delete_range s e d)) in
  Document._chars d'
  = take (Z.to_nat s) (Document._chars d) ++ Document._chars buf
    ++ drop (Z.to_nat e) (Document._chars d)
  ∧ Document._insertion d' = s + len (Document._chars buf).
Proof.
  intros Hse Hel d'.
  destruct (delete_range_set_insertion s e d Hse Hel) as (Hc & Hi & _).
  unfold d'.
  rewrite insert_text_chars, insert_text_insertion by apply wf_set_insertion.
  rewrite Hc, Hi. split; [| reflexivity].
  assert (Hlen : List.length (take (Z.to_nat s) (Document._chars d)) = Z.to_nat s).
  { rewrite length_take. unfold len in Hel. lia. }
  rewrite take_app_length', drop_app_length' by (symmetry; exact Hlen).
  reflexivity.
Qed.

End ModeEquivalence.

(** X16. The two refresh modes produce the same text.  Take a parser in
    NORMAL with no frame open and main-document characters [old], and
    run it once in BUFFER mode and once in STREAM mode on the same
    input: a valid R frame whose timecodes resolve to
    [(start_pos, end_pos)], then any bytes that raise nothing and keep
    the BUFFER-mode parser in REFRESH and end outside a frame (the
    content), then an E frame.  With [X] the text that the content
    builds in a new document (the decoded content itself when it holds
    no frame), both runs return in NORMAL with the document text
    [old[:start_pos] ++ X ++ old[end_pos:]].  The cursors differ: BUFFER
    mode leaves it at [start_pos + len(X)], right after the inserted
    content, STREAM mode at the end of the document. *)
Theorem refresh_modes_agree
    (p : LawBridgeParser.t) (payload bs : list Z) (stc etc : Timecode.t)
    (start_pos end_pos : Z) (data ebs : list Z) :
  state p = NORMAL → _in_cmd p = false →
  frame cmd_R payload = Ret bs →
  Timecode.from_bytes (take 4 payload) = Ret stc →
  Timecode.from_bytes (drop 4 payload) = Ret etc →
  _resolve_time_range stc etc p = Ret (start_pos, end_pos) →
  frame cmd_E [] = Ret ebs →
  stays_in_refresh (final (feed (with_refresh_mode BUFFER p) bs)) data = true →
  _in_cmd (final (feed (final (feed (with_refresh_mode BUFFER p) bs)) data)) = false →
  let old := Document._chars (doc p) in
  let X := Document._chars (doc (final (feed (new BUFFER) data))) in
  (Forall (fun b => b ≠ STX) data → X = decode_replace data)
  ∧ ∃ qB qS,
      feed (with_refresh_mode BUFFER p) (bs ++ data ++ ebs) = Done qB
      ∧ feed (with_refresh_mode STREAM p) (bs ++ data ++ ebs) = Done qS
      ∧ state qB = NORMAL ∧ state qS = NORMAL
      ∧ document_text qS = document_text qB
      ∧ document_text qB
        = take (Z.to_nat start_pos) old ++ X ++ drop (Z.to_nat end_pos) old
      ∧ Document._insertion (doc qB) = start_pos + len X
      ∧ Document._insertion (doc qS) = Document.length (doc qS)
      ∧ Document.length (doc qS) = len old - (end_pos - start_pos) + len X.
Proof.
  intros Hst Hin Hf Hstc Hetc Hres Hfe Hstay Hin2 old X.
  split; [intros Hs; apply feed_text_new, Hs |].
  destruct (refresh_sim_begin p payload bs Hst Hin Hf)
    as (pB1 & pS1 & s & e & HB1 & HS1 & Hsim1 & Hdoc1 & Hin1 & Hs1 & He1 & Hbuf1
        & Hres1).
  rewrite (Hres1 stc etc Hstc Hetc) in Hres. injection Hres as -> ->.
  destruct (feed_frame_at_rest (with_refresh_mode BUFFER p) pB1 cmd_R payload bs
              Hin Hf HB1) as (Hfb1 & _ & Hel1 & Hcc1).
  rewrite HB1 in Hstay, Hin2. simpl final in Hstay, Hin2.
  destruct (refresh_sim_run data pB1 pS1 Hsim1 Hstay)
    as (pB2 & pS2 & HB2 & HS2 & Hsim2).
  rewrite HB2 in Hin2. simpl final in Hin2.
  pose proof Hsim1 as (HstB1 & _ & HmB1 & _).
  destruct (scratch_document_run pB1 data HstB1 HmB1 Hfb1 Hin1 Hel1 Hcc1 Hbuf1 Hstay)
    as (pB2' & n & HB2' & Hn & _ & Hbn).
  rewrite HB2 in HB2'. injection HB2' as <-.
  destruct (buffered_run data pB1 HstB1 HmB1 Hstay)
    as (pB2' & HB2' & _ & _ & Hs2 & He2 & (Hchars & _) & _).
  rewrite HB2 in HB2'. injection HB2' as <-.
  rewrite Hs1 in Hs2. rewrite He1 in He2. rewrite Hdoc1 in Hchars.
  destruct Hsim2 as (HstB & HstS & HmB & HmS & Hfb & Hic & Hel & Hcc
                     & s' & e' & buf & Hs & He & Hbuf & Hlb & Hd).
  rewrite Hs2 in Hs. rewrite He2 in He. injection Hs as <-. injection He as <-.
  rewrite Hbn in Hbuf. injection Hbuf as <-.
  assert (HX : Document._chars (doc n) = X) by (unfold X; rewrite Hn; reflexivity).
  destruct Hd as (Hwf & Hse & Hle & Hc & Hi).
  destruct (buffer_replace_text start_pos end_pos (doc pB2) (doc n) Hse Hle)
    as (Hrc & Hri).
  rewrite Hin2 in Hic.
  assert (HE : feed pB2 ebs
               = Done (_exit_frame
                   (reset_refresh
                      (set_doc
                         (Document.with_prevent_save (Document.prevent_save (doc n))
                            (Document.insert_text (Document.text (doc n))
                               (Document.set_insertion start_pos
                                  (Document.delete_range start_pos end_pos (doc pB2)))))
                         pB2))))
    by (apply (feed_E_frame_buffer pB2 ebs start_pos end_pos (doc n)); assumption).
  cbv zeta in Hrc, Hri.
  set (dB := Document.insert_text (Document.text (doc n))
               (Document.set_insertion start_pos
                  (Document.delete_range start_pos end_pos (doc pB2)))) in *.
  clearbody dB.
  rewrite Hchars, HX in Hrc. rewrite Hchars, HX in Hc. rewrite HX in Hri.
  exists (_exit_frame
            (reset_refresh
               (set_doc (Document.with_prevent_save (Document.prevent_save (doc n)) dB)
                  pB2))).
  exists (_exit_frame
            (reset_refresh
               (set_doc (Document.set_insertion (Document.length (doc pS2)) (doc pS2))
                  pS2))).
  split.
  { rewrite feed_app, HB1. cbn [andthen]. rewrite feed_app, HB2. cbn [andthen].
    exact HE. }
  split.
  { rewrite feed_app, HS1. cbn [andthen]. rewrite feed_app, HS2. cbn [andthen].
    apply (feed_E_frame_stream pS2 ebs); assumption. }
  split; [reflexivity |]. split; [reflexivity |].
  unfold document_text, Document.text. simpl doc.
  change (Document._chars (Document.with_prevent_save ?f ?d)) with (Document._chars d).
  change (Document._insertion (Document.with_prevent_save ?f ?d))
    with (Document._insertion d).
  change (Document.length (Document.set_insertion ?i ?d)) with (Document.length d).
  change (Document._chars (Document.set_insertion ?i ?d)) with (Document._chars d).
  split; [rewrite Hrc; exact Hc |].
  split; [exact Hrc |].
  split; [exact Hri |].
  split.
  { unfold Document.set_insertion, Document.length. simpl.
    apply clamp_id. pose proof (len_nonneg (Document._chars (doc pS2))). lia. }
  unfold Document.length. rewrite Hc. unfold old.
  rewrite Hchars in Hle.
  rewrite !len_app, len_take, len_drop by lia. lia.
Qed.

(** The third and fourth scenarios of the protocol description, as one
    input for both modes: the range is [2, 4), the content "XYZ", the
    text "AAXYZCC" in both modes, the cursor 5 in BUFFER mode and 7 in
    STREAM mode. *)
Lemma refresh_modes_agree_witness :
  let p := final (feed (new BUFFER)
             ([65; 65] ++ T_0s ++ [66; 66] ++ T_1s ++ [67; 67])) in
  (Forall (fun b => b ≠ STX) [88; 89; 90]
   → Document._chars (doc (final (feed (new BUFFER) [88; 89; 90])))
     = decode_replace [88; 89; 90])
  ∧ ∃ qB qS,
      feed (with_refresh_mode BUFFER p) (R_0s_1s ++ [88; 89; 90] ++ E_) = Done qB
      ∧ feed (with_refresh_mode STREAM p) (R_0s_1s ++ [88; 89; 90] ++ E_) = Done qS
      ∧ state qB = NORMAL ∧ state qS = NORMAL
      ∧ document_text qS = document_text qB
      ∧ document_text qB = [65; 65] ++ [88; 89; 90] ++ [67; 67]
      ∧ Document._insertion (doc qB) = 2 + 3
      ∧ Document._insertion (doc qS) = Document.length (doc qS)
      ∧ Document.length (doc qS) = 6 - (4 - 2) + 3.
Proof.
  intros p.
  apply (refresh_modes_agree p [0; 0; 0; 0; 0; 0; 1; 0] R_0s_1s
           (Timecode.mk 0 0 0 0) (Timecode.mk 0 0 1 0) 2 4 [88; 89; 90] E_);
    vm_compute; reflexivity.
Defined.

(** ** The time index *)

Section TimeIndex.

Lemma delete_range_meta (a b : Z) (d : Document.t) :
  Document.time_index (Document.delete_range a b d) = Document.time_index d
  ∧ Document.current_page (Document.delete_range a b d) = Document.current_page d
  ∧ Document.current_line (Document.delete_range a b d) = Document.current_line d
  ∧ Document.current_format (Document.delete_range a b d) = Document.current_format d.
Proof. unfold Document.delete_range. destruct (_ <? _); repeat split. Qed.

Lemma insert_text_meta_fields (t : list Z) (d : Document.t) :
  Document.time_index (Document.insert_text t d) = Document.time_index d
  ∧ Document.current_page (Document.insert_text t d) = Document.current_page d
  ∧ Document.current_line (Document.insert_text t d) = Document.current_line d
  ∧ Document.current_format (Document.insert_text t d) = Document.current_format d.
Proof. destruct t; repeat split. Qed.

End TimeIndex.

(** X17. A BUFFER-mode refresh drops what is not text.  After a whole
    BUFFER-mode refresh (a valid R frame, bytes that raise nothing and
    keep the parser in REFRESH and end outside a frame, an E frame) the
    main document has the time index and the latched page, line and
    format it had before the R: the T, P, N and F frames received during
    the refresh went to the scratch document and are gone with it, and
    the offsets stored in the index are not adjusted to the new text. *)
Theorem buffer_refresh_discards_metadata
    (p : LawBridgeParser.t) (payload bs data ebs : list Z) :
  state p = NORMAL → refresh_mode p = BUFFER → _in_cmd p = false →
  frame cmd_R payload = Ret bs → frame cmd_E [] = Ret ebs →
  stays_in_refresh (final (feed p bs)) data = true →
  _in_cmd (final (feed (final (feed p bs)) data)) = false →
  ∃ q, feed p (bs ++ data ++ ebs) = Done q
       ∧ Document.time_index (doc q) = Document.time_index (doc p)
       ∧ Document.current_page (doc q) = Document.current_page (doc p)
       ∧ Document.current_line (doc q) = Document.current_line (doc p)
       ∧ Document.current_format (doc q) = Document.current_format (doc p).
Proof.
  intros Hst Hm Hin Hf Hfe Hstay Hin2.
  destruct (frame_inv _ _ _ Hf) as (n & Hn & Hlen & _).
  change (cmd_len cmd_R) with (Some 8) in Hn. injection Hn as <-.
  destruct (len_8_inv payload Hlen)
    as (a0 & a1 & a2 & a3 & b0 & b1 & b2 & b3 & ->).
  destruct (_resolve_time_range_bounds
              (Timecode.mk a0 a1 a2 a3) (Timecode.mk b0 b1 b2 b3) p)
    as (s & e & Hres & _).
  destruct (feed_R_frame p _ bs _ _ s e Hst Hin Hf eq_refl eq_refl Hres)
    as (p1 & Hp1 & Hst1 & Hm1 & Hin1 & Hs1 & He1 & Hbuffer & _).
  rewrite Hm in Hm1. destruct (Hbuffer Hm) as [Hdoc1 Hbuf1].
  rewrite Hp1 in Hstay, Hin2. simpl final in Hstay, Hin2.
  destruct (buffered_run data p1 Hst1 Hm1 Hstay)
    as (p2 & Hp2 & Hst2 & Hm2 & Hs2 & He2 & Hsame & Hbuf2).
  rewrite Hp2 in Hin2. simpl final in Hin2.
  destruct (Hbuf2 _ Hbuf1) as (buf & Hbuf & _).
  rewrite Hs1 in Hs2. rewrite He1 in He2.
  eexists. split.
  { rewrite feed_app, Hp1. cbn [andthen]. rewrite feed_app, Hp2. cbn [andthen].
    apply (feed_E_frame_buffer p2 ebs s e buf); assumption. }
  destruct Hsame as (_ & _ & Hti & Hpg & Hln & Hfm).
  rewrite Hdoc1 in Hti, Hpg, Hln, Hfm.
  simpl doc.
  destruct (insert_text_meta_fields (Document.text buf)
              (Document.set_insertion s (Document.delete_range s e (doc p2))))
    as (Iti & Ipg & Iln & Ifm).
  destruct (delete_range_meta s e (doc p2)) as (Dti & Dpg & Dln & Dfm).
  change (Document.time_index (Document.with_prevent_save ?f ?d))
    with (Document.time_index d).
  change (Document.current_page (Document.with_prevent_save ?f ?d))
    with (Document.current_page d).
  change (Document.current_line (Document.with_prevent_save ?f ?d))
    with (Document.current_line d).
  change (Document.current_format (Document.with_prevent_save ?f ?d))
    with (Document.current_format d).
  rewrite Iti, Ipg, Iln, Ifm.
  change (Document.time_index (Document.set_insertion ?f ?d))
    with (Document.time_index d).
  change (Document.current_page (Document.set_insertion ?f ?d))
    with (Document.current_page d).
  change (Document.current_line (Document.set_insertion ?f ?d))
    with (Document.current_line d).
  change (Document.current_format (Document.set_insertion ?f ?d))
    with (Document.current_format d).
  rewrite Dti, Dpg, Dln, Dfm. repeat split; congruence.
Qed.

(** "AB"; then R, a T frame at one second, a P frame for page 7, "X", E:
    the index is as empty and the page as unset as before. *)
Lemma buffer_refresh_discards_metadata_witness :
  let p := final (feed (new BUFFER) [65; 66]) in
  ∃ q, feed p (R_0s_1s ++ (T_1s ++ [2; 80; 7; 0; 3] ++ [88]) ++ E_) = Done q
       ∧ Document.time_index (doc q) = Document.time_index (doc p)
       ∧ Document.current_page (doc q) = Document.current_page (doc p)
       ∧ Document.current_line (doc q) = Document.current_line (doc p)
       ∧ Document.current_format (doc q) = Document.current_format (doc p).
Proof.
  intros p.
  apply (buffer_refresh_discards_metadata p [0; 0; 0; 0; 0; 0; 1; 0] R_0s_1s
           (T_1s ++ [2; 80; 7; 0; 3] ++ [88]) E_);
    vm_compute; reflexivity.
Defined.

(** X18. A T frame indexes the cursor.  In NORMAL, with no frame open,
    feeding the frame that [frame] and [tc_bytes] build for a timecode
    with fields in 0..255 stores the current cursor offset under the key
    [((hh*60+mm)*60+ss)*30+ff], replacing what that key held, and
    changes nothing else: the other keys of the index, the text and the
    cursor stay. *)
Theorem timecode_frame_indexes_cursor
    (p : LawBridgeParser.t) (hh mm ss ff : Z) :
  state p = NORMAL → _in_cmd p = false →
  0 <= hh < 256 → 0 <= mm < 256 → 0 <= ss < 256 → 0 <= ff < 256 →
  let k := ((hh * 60 + mm) * 60 + ss) * 30 + ff in
  ∃ bs q,
    frame cmd_T (tc_bytes hh mm ss ff) = Ret bs
    ∧ feed p bs = Done q
    ∧ Document.time_index (doc q) !! k = Some (Document._insertion (doc p))
    ∧ (∀ k', k' ≠ k →
         Document.time_index (doc q) !! k' = Document.time_index (doc p) !! k')
    ∧ Document._chars (doc q) = Document._chars (doc p)
    ∧ Document._insertion (doc q) = Document._insertion (doc p)
    ∧ state q = NORMAL.
Proof.
  intros Hst Hin Hh Hm Hs Hf k.
  assert (Hbytes : tc_bytes hh mm ss ff = [hh; mm; ss; ff]).
  { unfold tc_bytes. rewrite !land_255, !Z.mod_small by lia. reflexivity. }
  rewrite Hbytes.
  eexists. eexists. split; [reflexivity |].
  split.
  { rewrite (feed_frame p cmd_T [hh; mm; ss; ff] _ Hin eq_refl).
    rewrite _dispatch_cmd_set_frame.
    change (_dispatch_cmd cmd_T [hh; mm; ss; ff] p)
      with (_on_timecode [hh; mm; ss; ff] p).
    unfold _on_timecode. simpl Timecode.from_bytes. cbv iota.
    unfold in_target. rewrite Hst. unfold on_target. reflexivity. }
  simpl. split; [apply lookup_insert_eq |].
  split; [intros k' Hk'; apply lookup_insert_ne; intros E; apply Hk'; rewrite <- E; reflexivity |].
  split; [reflexivity |]. split; [reflexivity | exact Hst].
Qed.

(** "AB", then the T frame of 00:00:01:00: key 30 holds offset 2. *)
Lemma timecode_frame_indexes_cursor_witness :
  let p := final (feed (new BUFFER) [65; 66]) in
  ∃ bs q,
    frame cmd_T (tc_bytes 0 0 1 0) = Ret bs
    ∧ feed p bs = Done q
    ∧ Document.time_index (doc q) !! 30 = Some 2
    ∧ (∀ k', k' ≠ 30 →
         Document.time_index (doc q) !! k' = Document.time_index (doc p) !! k')
    ∧ Document._chars (doc q) = [65; 66]
    ∧ Document._insertion (doc q) = 2
    ∧ state q = NORMAL.
Proof.
  intros p.
  apply (timecode_frame_indexes_cursor p 0 0 1 0); (reflexivity || lia).
Defined.

(** ** More on range resolution *)

(** X19. The order of the two timecodes of an R frame does not matter:
    [_resolve_time_range] gives the same range for [(start_tc, end_tc)]
    and for [(end_tc, start_tc)]. *)
Theorem resolve_time_range_symmetric (stc etc : Timecode.t) (p : LawBridgeParser.t) :
  _resolve_time_range stc etc p = _resolve_time_range etc stc p.
Proof.
  rewrite !_resolve_time_range_unfold. cbv zeta.
  destruct (Z.ltb_spec (Timecode.to_frames etc) (Timecode.to_frames stc)) as [H1 | H1];
    destruct (Z.ltb_spec (Timecode.to_frames stc) (Timecode.to_frames etc)) as [H2 | H2];
    try reflexivity; try lia.
  assert (E : Timecode.to_frames stc = Timecode.to_frames etc) by lia.
  rewrite E. reflexivity.
Qed.

(** X20. Timecodes that are in the index resolve to their stored offsets.
    When the start and the end timecode of an R frame both are keys of
    the time index, in this order, and the offsets [a <= b] stored for
    them lie inside the document, the resolved range is exactly
    [(a, b)]. *)
Theorem resolve_time_range_indexed
    (stc etc : Timecode.t) (p : LawBridgeParser.t) (a b : Z) :
  Timecode.to_frames stc <= Timecode.to_frames etc →
  Document.time_index (doc p) !! Timecode.to_frames stc = Some a →
  Document.time_index (doc p) !! Timecode.to_frames etc = Some b →
  0 <= a <= b → b <= Document.length (doc p) →
  _resolve_time_range stc etc p = Ret (a, b).
Proof.
  intros Hle Ha Hb Hab HbL.
  rewrite _resolve_time_range_unfold. cbv zeta.
  destruct (Z.ltb_spec (Timecode.to_frames etc) (Timecode.to_frames stc)); [lia |].
  destruct (decide (Document.time_index (doc p) = ∅)) as [He | Hne].
  { rewrite He, lookup_empty in Ha. discriminate. }
  destruct (code_start_anchor _ (Timecode.to_frames stc) Hne) as (a' & -> & Hsa).
  destruct (code_end_anchor _ (Document.length (doc p)) (Timecode.to_frames etc) Hne)
    as (b' & -> & Heb).
  assert (a' = a) as ->.
  { apply (start_anchor_unique _ _ _ _ Hsa).
    eapply start_at_or_after; [exact Ha | lia | intros k' _ Hk'; exact Hk']. }
  assert (b' = b) as ->.
  { apply (end_anchor_unique _ _ _ _ _ Heb).
    eapply end_before_or_at; [exact Hb | lia | intros k' _ Hk'; exact Hk']. }
  simpl. rewrite !clamp_id by lia.
  destruct (Z.ltb_spec b a); [| reflexivity].
  assert (a = b) as -> by lia. reflexivity.
Qed.

(** "AA", T at 0, "BB", T at one second, "CC": the second from 0 to 1 is
    the range [2, 4). *)
Lemma resolve_time_range_indexed_witness :
  _resolve_time_range (Timecode.mk 0 0 0 0) (Timecode.mk 0 0 1 0)
    (final (feed (new BUFFER)
       ([65; 65] ++ T_0s ++ [66; 66] ++ T_1s ++ [67; 67])))
  = Ret (2, 4).
Proof.
  apply (resolve_time_range_indexed (Timecode.mk 0 0 0 0) (Timecode.mk 0 0 1 0)
           (final (feed (new BUFFER)
              ([65; 65] ++ T_0s ++ [66; 66] ++ T_1s ++ [67; 67]))) 2 4);
    vm_compute; (reflexivity || (split; discriminate) || discriminate).
Defined.

(** ** Printing a timecode *)

Section TimecodeStr.

Lemma format_02_two_digits (n : Z) :
  0 <= n < 100 → Timecode.format_02 n = [48 + n / 10; 48 + n mod 10].
Proof.
  intros Hn. unfold Timecode.format_02, Timecode.decimal.
  destruct (Z.ltb_spec n 0); [lia |].
  destruct (Z.ltb_spec n 10) as [Hlt | Hge].
  - simpl Timecode.digits. destruct (Z.ltb_spec n 10); [| lia].
    rewrite Z.div_small by lia. reflexivity.
  - assert (Hlog : 3 <= Z.log2 n).
    { change 3 with (Z.log2 8). apply Z.log2_le_mono. lia. }
    destruct (Z.to_nat (Z.log2 n)) as [| m] eqn:Hm; [lia |].
    simpl Timecode.digits. destruct (Z.ltb_spec n 10); [lia |].
    assert (Hq : 0 <= n / 10 < 10).
    { split; [apply Z.div_pos; lia | apply Z.div_lt_upper_bound; lia]. }
    destruct (Z.ltb_spec (n / 10) 10); [| lia].
    rewrite (Z.mod_small (n / 10)) by lia. reflexivity.
Qed.

Lemma format_02_three_digits (n : Z) :
  100 <= n < 1000 →
  Timecode.format_02 n = [48 + n / 100; 48 + (n / 10) mod 10; 48 + n mod 10].
Proof.
  intros Hn. unfold Timecode.format_02, Timecode.decimal.
  destruct (Z.ltb_spec n 0); [lia |].
  destruct (Z.ltb_spec n 10) as [Hlt | Hge]; [lia |].
  assert (Hlog : 6 <= Z.log2 n).
  { change 6 with (Z.log2 64). apply Z.log2_le_mono. lia. }
  destruct (Z.to_nat (Z.log2 n)) as [| [| m]] eqn:Hm; [lia | lia |].
  simpl Timecode.digits. destruct (Z.ltb_spec n 10); [lia |].
  assert (Hq : 10 <= n / 10 < 100).
  { split; [apply Z.div_le_lower_bound; lia | apply Z.div_lt_upper_bound; lia]. }
  destruct (Z.ltb_spec (n / 10) 10); [lia |].
  rewrite Z.div_div by lia. change (10 * 10) with 100.
  assert (Hq2 : 0 <= n / 100 < 10).
  { split; [apply Z.div_pos; lia | apply Z.div_lt_upper_bound; lia]. }
  destruct (Z.ltb_spec (n / 100) 10); [| lia].
  rewrite (Z.mod_small (n / 100)) by lia. reflexivity.
Qed.

End TimecodeStr.

(** X21. [str] of a timecode.  When every field lies in 0..99 the string
    is the eleven characters HH:MM:SS:FF, two Timecode.decimal Timecode.digits per field,
    and it determines the timecode.  The width is a minimum only: the
    hour of a timecode decoded from bytes can be as large as 255, and an
    hour in 100..255 is printed with three Timecode.digits. *)
Theorem str_of_timecode (tc : Timecode.t) :
  let d1 (n : Z) := 48 + n / 10 in
  let d0 (n : Z) := 48 + n mod 10 in
  (0 <= Timecode.hh tc < 100 ∧ 0 <= Timecode.mm tc < 100
   ∧ 0 <= Timecode.ss tc < 100 ∧ 0 <= Timecode.ff tc < 100 →
   Timecode.__str__ tc
   = [d1 (Timecode.hh tc); d0 (Timecode.hh tc); 58;
      d1 (Timecode.mm tc); d0 (Timecode.mm tc); 58;
      d1 (Timecode.ss tc); d0 (Timecode.ss tc); 58;
      d1 (Timecode.ff tc); d0 (Timecode.ff tc)]
   ∧ ∀ tc', 0 <= Timecode.hh tc' < 100 ∧ 0 <= Timecode.mm tc' < 100
            ∧ 0 <= Timecode.ss tc' < 100 ∧ 0 <= Timecode.ff tc' < 100 →
            Timecode.__str__ tc' = Timecode.__str__ tc → tc' = tc)
  ∧ (100 <= Timecode.hh tc < 256 ∧ 0 <= Timecode.mm tc < 100
     ∧ 0 <= Timecode.ss tc < 100 ∧ 0 <= Timecode.ff tc < 100 →
     len (Timecode.__str__ tc) = 12).
Proof.
  intros d1 d0. split.
  - intros (Hh & Hm & Hs & Hf).
    assert (Hstr : ∀ t, 0 <= Timecode.hh t < 100 ∧ 0 <= Timecode.mm t < 100
                        ∧ 0 <= Timecode.ss t < 100 ∧ 0 <= Timecode.ff t < 100 →
              Timecode.__str__ t
              = [d1 (Timecode.hh t); d0 (Timecode.hh t); 58;
                 d1 (Timecode.mm t); d0 (Timecode.mm t); 58;
                 d1 (Timecode.ss t); d0 (Timecode.ss t); 58;
                 d1 (Timecode.ff t); d0 (Timecode.ff t)]).
    { intros t (H1 & H2 & H3 & H4). unfold Timecode.__str__.
      rewrite !format_02_two_digits by assumption. reflexivity. }
    split; [apply Hstr; auto |].
    intros tc' Hr' Heq. rewrite !Hstr in Heq by auto.
    destruct Hr' as (Hh' & Hm' & Hs' & Hf').
    destruct tc as [h m s f], tc' as [h' m' s' f']. simpl in *.
    unfold d1, d0 in Heq.
    injection Heq as E1 E2 E3 E4 E5 E6 E7 E8.
    pose proof (Z.div_mod h 10). pose proof (Z.div_mod h' 10).
    pose proof (Z.div_mod m 10). pose proof (Z.div_mod m' 10).
    pose proof (Z.div_mod s 10). pose proof (Z.div_mod s' 10).
    pose proof (Z.div_mod f 10). pose proof (Z.div_mod f' 10).
    f_equal; lia.
  - intros (Hh & Hm & Hs & Hf). unfold Timecode.__str__.
    rewrite (format_02_three_digits (Timecode.hh tc)) by lia.
    rewrite !format_02_two_digits by assumption. reflexivity.
Qed.
